(** * Tuvok IOManager: a shallow embedding of IOManager.cpp

    The first part follows the translation unit top to bottom:

    - [Basics]      machine integers, small vectors, the message bus and
                    the set of files on disk;
    - [Converters]  the plugin record and the facade object ([IOManager]),
                    with the registry look-ups and the brick-size setters;
    - [External]    what the facade asks of code outside the file;
    - [Stacks]      [IOManager::ConvertDataset] on a file stack;
    - [Merging]     [IOManager::MergeDatasets];
    - [Stats]       [minmax_input], [get_brick_minmax], [MaxMin] and
                    [CreateUVFFromRDB];
    - [Expressions] [MergeableDatasets], [IdentifyType] and the part of
                    [IOManager::EvaluateExpression] that decides the types;
    - [Spec]        the notions of the specification, in its own words;
    - [Examples]    concrete converters, hosts, stacks, blocks and volumes.

    The second part states and proves, module by module, what the code
    does about the claims C1 to C10 of the specification.

    Code that lives outside the translation unit (the UVF container, the
    converters themselves, the raw merger, SysTools) enters as data: the
    answer an external call gives is a field of the object that is called. *)

From Stdlib Require Import ZArith List String Ascii Bool Lia.
From Stdlib Require Import Strings.Byte.
From stdpp Require Import gmap strings.
Import ListNotations.

Local Open Scope Z_scope.

(* ===================================================================== *)
(** * Basics *)
(* ===================================================================== *)

Module Basics.

(** UINT64 and UINT32 are kept as [Z]; where the source computes with them
    the reduction is written out. *)
Definition UINT64_wrap (z : Z) : Z := z mod 2 ^ 64.
Definition UINT32_wrap (z : Z) : Z := z mod 2 ^ 32.

(** UINT64VECTOR3 / UINTVECTOR3: compared component by component. *)
Record VECTOR3 := vec3 { vx : Z; vy : Z; vz : Z }.

Definition vec3_eqb (a b : VECTOR3) : bool :=
  (vx a =? vx b) && (vy a =? vy b) && (vz a =? vz b).

Definition volume (v : VECTOR3) : Z := UINT64_wrap (vx v * vy v * vz v).

(** The message bus: only the severity and the text matter here. *)
Inductive Message :=
| T_ERROR (text : string)
| WARNING (text : string).

(** What a call leaves behind: the files that exist, the messages that were
    sent, and the external stages that were started, oldest first. *)
Inductive Stage :=
| StageMerge (target : string)
| StageRAWToUVF (source target : string)
| StageToNative (converter : string) (source target : string).

Record World := mkWorld {
  files : gset string;
  messages : list Message;
  stages : list Stage
}.

Definition FileExists (p : string) (w : World) : bool :=
  bool_decide (p ∈ files w).

Definition create (p : string) (w : World) : World :=
  mkWorld ({[ p ]} ∪ files w) (messages w) (stages w).

Definition remove (p : string) (w : World) : World :=
  mkWorld (files w ∖ {[ p ]}) (messages w) (stages w).

Definition say (m : Message) (w : World) : World :=
  mkWorld (files w) (messages w ++ [m]) (stages w).

Definition start (s : Stage) (w : World) : World :=
  mkWorld (files w) (messages w) (stages w ++ [s]).

(** Modelled from the spec: SysTools::ToLowerCase and SysTools::ToUpperCase
    are not part of the sources; the spec calls the matching of extensions
    case-insensitive, so they fold the ASCII letters and leave every other
    character alone. *)
Definition lower_ascii (c : ascii) : ascii :=
  let n := nat_of_ascii c in
  if ((65 <=? n) && (n <=? 90))%nat then ascii_of_nat (n + 32) else c.

Definition upper_ascii (c : ascii) : ascii :=
  let n := nat_of_ascii c in
  if ((97 <=? n) && (n <=? 122))%nat then ascii_of_nat (n - 32) else c.

Fixpoint ToLowerCase (s : string) : string :=
  match s with
  | EmptyString => EmptyString
  | String c r => String (lower_ascii c) (ToLowerCase r)
  end.

Fixpoint ToUpperCase (s : string) : string :=
  match s with
  | EmptyString => EmptyString
  | String c r => String (upper_ascii c) (ToUpperCase r)
  end.

End Basics.

Import Basics.

(* ===================================================================== *)
(** * Converters and the facade object *)
(* ===================================================================== *)

Module Converters.

(** What describes a volume in raw form: the out-parameters of
    [AbstrConverter::ConvertToRAW] that the facade compares and passes on
    (the title and the element semantic ride along and are left out).
    The aspect ratio, a vector of floats in the source, is only compared
    for equality; it is kept as a vector of integers. *)
Record VolumeMeta := mkMeta {
  iComponentSize : Z;
  iComponentCount : Z;
  bConvertEndianess : bool;
  bSigned : bool;
  bIsFloat : bool;
  vVolumeSize : VECTOR3;
  vVolumeAspect : VECTOR3
}.

(** All the out-parameters of a successful [ConvertToRAW]. *)
Record RAWDescription := mkRAW {
  iHeaderSkip : Z;
  meta : VolumeMeta;
  strIntermediateFile : string;
  bDeleteIntermediateFile : bool
}.

(** A converter plugin.  Its virtual methods are fields; a method that does
    work outside this translation unit is the answer it gives: [CanRead]
    for a file name (the first block of the file is a function of the
    file), [ConvertToRAW] for a source file ([None]: the method returned
    false), [ConvertToNative] for a target file. *)
Record AbstrConverter := mkConverter {
  GetDesc : string;
  SupportedExt : list string;
  CanExportData : bool;
  CanRead : string -> bool;
  ConvertToRAW : string -> option RAWDescription;
  ConvertToNative : string -> bool
}.

Record IOManager := mkIOManager {
  m_vpConverters : list AbstrConverter;
  m_pFinalConverter : option AbstrConverter;
  m_iMaxBrickSize : Z;
  m_iBrickOverlap : Z;
  m_iIncoresize : Z
}.

(** [IOManager::IOManager].  The converters the constructor registers and
    the two macros DEFAULT_BRICKSIZE and DEFAULT_BRICKOVERLAP come from
    headers outside the sources, so they are arguments. *)
Definition IOManager_new (builtin : list AbstrConverter)
    (DEFAULT_BRICKSIZE DEFAULT_BRICKOVERLAP : Z) : IOManager :=
  {| m_vpConverters := builtin;
     m_pFinalConverter := None;
     m_iMaxBrickSize := DEFAULT_BRICKSIZE;
     m_iBrickOverlap := DEFAULT_BRICKOVERLAP;
     m_iIncoresize :=
       UINT64_wrap (UINT64_wrap (DEFAULT_BRICKSIZE * DEFAULT_BRICKSIZE)
                    * DEFAULT_BRICKSIZE) |}.

Definition RegisterExternalConverter (c : AbstrConverter) (io : IOManager)
    : IOManager :=
  {| m_vpConverters := m_vpConverters io ++ [c];
     m_pFinalConverter := m_pFinalConverter io;
     m_iMaxBrickSize := m_iMaxBrickSize io;
     m_iBrickOverlap := m_iBrickOverlap io;
     m_iIncoresize := m_iIncoresize io |}.

Definition RegisterFinalConverter (c : AbstrConverter) (io : IOManager)
    : IOManager :=
  {| m_vpConverters := m_vpConverters io;
     m_pFinalConverter := Some c;
     m_iMaxBrickSize := m_iMaxBrickSize io;
     m_iBrickOverlap := m_iBrickOverlap io;
     m_iIncoresize := m_iIncoresize io |}.

(** [identify_converters]: every converter whose [CanRead] accepts the
    file.  The source collects them in a std::set of pointers: the list is
    what the set holds, and a caller that walks the set meets the
    converters in the order of their addresses, which is no part of this
    list (see [address_order] among the externals). *)
Definition identify_converters (filename : string)
    (cs : list AbstrConverter) : list AbstrConverter :=
  List.filter (fun c => CanRead c filename) cs.

(** The inner loop of [GetConverterForExt]: does some advertised
    extension, lower-cased, equal [ext] as it was passed in? *)
Fixpoint ext_listed (ext : string) (exts : list string) : bool :=
  match exts with
  | [] => false
  | e :: rest =>
      if String.eqb ext (ToLowerCase e) then true else ext_listed ext rest
  end.

(** [IOManager::GetConverterForExt], over the registry. *)
Fixpoint GetConverterForExt_from (cs : list AbstrConverter) (ext : string)
    (bMustSupportExport : bool) : option AbstrConverter :=
  match cs with
  | [] => None
  | c :: rest =>
      if negb bMustSupportExport || CanExportData c then
        if ext_listed ext (SupportedExt c) then Some c
        else GetConverterForExt_from rest ext bMustSupportExport
      else GetConverterForExt_from rest ext bMustSupportExport
  end.

Definition GetConverterForExt (io : IOManager) (ext : string)
    (bMustSupportExport : bool) : option AbstrConverter :=
  GetConverterForExt_from (m_vpConverters io) ext bMustSupportExport.

(** [IOManager::SetMaxBrickSize] and [IOManager::SetBrickOverlap]: the
    returned flag and the object afterwards. *)
Definition SetMaxBrickSize (iMaxBrickSize : Z) (io : IOManager)
    : bool * IOManager :=
  if iMaxBrickSize >? m_iBrickOverlap io then
    (true,
     {| m_vpConverters := m_vpConverters io;
        m_pFinalConverter := m_pFinalConverter io;
        m_iMaxBrickSize := iMaxBrickSize;
        m_iBrickOverlap := m_iBrickOverlap io;
        m_iIncoresize := m_iIncoresize io |})
  else (false, io).

Definition SetBrickOverlap (iBrickOverlap : Z) (io : IOManager)
    : bool * IOManager :=
  if m_iMaxBrickSize io >? iBrickOverlap then
    (true,
     {| m_vpConverters := m_vpConverters io;
        m_pFinalConverter := m_pFinalConverter io;
        m_iMaxBrickSize := m_iMaxBrickSize io;
        m_iBrickOverlap := iBrickOverlap;
        m_iIncoresize := m_iIncoresize io |})
  else (false, io).

(** The member functions that are not [const]: the two registrations and
    the two setters.  A client of the object is a sequence of such calls;
    what the setters return is dropped here. *)
Inductive Operation :=
| OpRegisterExternalConverter (c : AbstrConverter)
| OpRegisterFinalConverter (c : AbstrConverter)
| OpSetMaxBrickSize (n : Z)
| OpSetBrickOverlap (n : Z).

Definition operate (o : Operation) (io : IOManager) : IOManager :=
  match o with
  | OpRegisterExternalConverter c => RegisterExternalConverter c io
  | OpRegisterFinalConverter c => RegisterFinalConverter c io
  | OpSetMaxBrickSize n => snd (SetMaxBrickSize n io)
  | OpSetBrickOverlap n => snd (SetBrickOverlap n io)
  end.

Definition operations (os : list Operation) (io : IOManager) : IOManager :=
  fold_left (fun s o => operate o s) os io.

End Converters.

Import Converters.

(* ===================================================================== *)
(** * Code outside the translation unit *)
(* ===================================================================== *)

Module External.

(** The arguments of [RAWConverter::ConvertRAWDataset]. *)
Record RAWCall := mkRAWCall {
  raw_strFilename : string;
  raw_strTargetFilename : string;
  raw_strTempDir : string;
  raw_iHeaderSkip : Z;
  raw_iComponentSize : Z;
  raw_iComponentCount : Z;
  raw_timesteps : Z;
  raw_bConvertEndianness : bool;
  raw_bSigned : bool;
  raw_bIsFloat : bool;
  raw_vVolumeSize : VECTOR3;
  raw_vVolumeAspect : VECTOR3;
  raw_strDesc : string;
  raw_strSource : string;
  raw_iTargetBrickSize : Z;
  raw_iTargetBrickOverlap : Z;
  raw_bQuantizeTo8Bit : bool
}.

(** An entry of the merger's work list ([MergeDataset]).  The scale and
    the bias are doubles that are only handed on; they are kept by their
    bit patterns. *)
Record MergeDataset := mkMergeDataset {
  strFilename : string;
  iHeaderSkip_m : Z;
  bDelete : bool;
  fScale : Z;
  fBias : Z
}.

(** A UVF dataset as the facade sees it ([UVFDataset], [Dataset]): the
    getters it calls, and for [Export] the flag it returns.  Sizes and
    counts are UINT64 in the source; the two that bound loops are [nat].
    [GetDomainSize] and [GetBrickCount] take the level of detail and the
    timestep. *)
Record Dataset := mkDataset {
  IsOpen : bool;
  GetBitWidth : Z;
  GetComponentCount : Z;
  IsSameEndianness : bool;
  GetIsSigned : bool;
  GetIsFloat : bool;
  GetScale : VECTOR3;
  GetBrickOverlapSize : VECTOR3;
  GetNumberOfTimesteps : nat;
  GetLODLevelCount : nat;
  GetDomainSize : nat -> nat -> VECTOR3;
  GetBrickCount : nat -> nat -> VECTOR3;
  Export : nat -> string -> bool
}.

(** Everything the facade asks of the host and of its collaborators.
    - [host_IsBigEndian]: [EndianConvert::IsBigEndian()];
    - [BITS_IN_JSAMPLE]: the macro of jconfig.h;
    - [GetFilename], [GetExt]: the SysTools functions of these names;
    - [can_create]: whether an ofstream opened on the path is good;
    - [open_UVF]: the dataset [UVFDataset v(filename, ...)] constructs;
    - [rand_string]: [SysTools::ToString(rand())] while input number [i]
      is handled;
    - [ConvertRAWDataset]: the flag the RAW-to-UVF builder returns;
    - [DataMerger_IsOK]: [DataMerger<T>::IsOK()] after construction on the
      work list, the output path, the element count and the mode;
    - [address_order]: the order in which a [std::set<AbstrConverter*>]
      hands out the converters it holds, which is that of their
      addresses. *)
Record Externals := mkExternals {
  host_IsBigEndian : bool;
  BITS_IN_JSAMPLE : Z;
  GetFilename : string -> string;
  GetExt : string -> string;
  can_create : string -> bool;
  open_UVF : string -> Dataset;
  rand_string : nat -> string;
  ConvertRAWDataset : RAWCall -> bool;
  DataMerger_IsOK : list MergeDataset -> string -> Z -> bool -> bool;
  address_order : list AbstrConverter -> list AbstrConverter
}.

(** Running the builder: the stage is recorded and, when it succeeds, the
    target exists. *)
Definition run_ConvertRAWDataset (X : Externals) (c : RAWCall) (w : World)
    : bool * World :=
  let w1 := start (StageRAWToUVF (raw_strFilename c)
                                 (raw_strTargetFilename c)) w in
  if ConvertRAWDataset X c
  then (true, create (raw_strTargetFilename c) w1)
  else (false, w1).

End External.

Import External.

(* ===================================================================== *)
(** * Stacks: IOManager::ConvertDataset(FileStackInfo*, ...) *)
(* ===================================================================== *)

Module Stacks.

(** An element of a stack.  [GetData] is the payload the element hands
    out and [GetDataSize] its size; [JPEG] is the embedded image of a
    JPEG-encoded DICOM element, [None] when [tuvok::JPEG::valid()] is
    false and the decoded samples otherwise. *)
Record StackElement := mkElement {
  m_strFileName : string;
  GetDataSize : Z;
  GetData : list byte;
  JPEG : option (list byte);
  GetComponentCount : Z
}.

Record FileStackInfo := mkStack {
  m_strFileType : string;
  m_strDesc : string;
  m_Elements : list StackElement;
  m_ivSize : VECTOR3;
  m_fvfAspect : VECTOR3;
  m_iAllocated : Z;
  m_iStored : Z;
  m_iComponentCount : Z;
  m_bIsBigEndian : bool;
  m_bIsJPEGEncoded : bool
}.

(** [vData.resize(n)]: the front is kept, new cells are zero. *)
Definition resize (n : nat) (v : list byte) : list byte :=
  firstn n v ++ repeat x00 (n - length v).

(** [copy(jpeg_data, jpeg_data + jpg.size(), &vData[0])]. *)
Definition copy_over (src v : list byte) : list byte :=
  src ++ skipn (length src) v.

(** [EndianConvert::Swap<short>] and [Swap<float>] over whole groups. *)
Fixpoint swap2 (v : list byte) : list byte :=
  match v with
  | a :: b :: rest => b :: a :: swap2 rest
  | _ => v
  end.

Fixpoint swap4 (v : list byte) : list byte :=
  match v with
  | a :: b :: c :: d :: rest => d :: c :: b :: a :: swap4 rest
  | _ => v
  end.

(** The endianness switch on [m_iAllocated] for a data size of [n] bytes:
    the loop swaps [n/2] shorts, or [n/4] floats, in place.  [None] where
    it runs past the end of the buffer, which the source leaves
    undefined. *)
Definition swap_endianness (allocated : Z) (n : nat) (v : list byte)
    : option (list byte) :=
  if allocated =? 16 then
    if (2 * (n / 2) <=? length v)%nat
    then Some (swap2 (firstn (2 * (n / 2)) v) ++ skipn (2 * (n / 2)) v)
    else None
  else if allocated =? 32 then
    if (4 * (n / 4) <=? length v)%nat
    then Some (swap4 (firstn (4 * (n / 4)) v) ++ skipn (4 * (n / 4)) v)
    else None
  else Some v.

(** The loop that fills [pRGBAData]: [groups] is [iDataSize/3]. *)
Fixpoint fill_RGBA (groups : nat) (k : nat) (v : list byte) : list byte :=
  match groups with
  | O => []
  | S g =>
      nth (k * 3 + 0) v x00 :: nth (k * 3 + 1) v x00
        :: nth (k * 3 + 2) v x00 :: xff
        :: fill_RGBA g (S k) v
  end.

(** The state the element loop of the DICOM branch carries: the buffer,
    the two fields of the stack it overwrites, and the temp file. *)
Record DICOMLoop := mkDICOMLoop {
  vData : list byte;
  allocated : Z;
  components : Z;
  written : list byte
}.

(** How one turn of the element loop ends.
    - [InvalidJPEG]: the [return false] on an invalid JPEG;
    - [OutOfBounds]: the turn reads or writes past the end of a buffer,
      which the source leaves undefined (forming the address [&vData[0]]
      of an empty buffer, from which nothing is then read or written, is
      not counted);
    - [Next]: the turn is over and the loop goes on. *)
Inductive Turn :=
| InvalidJPEG
| OutOfBounds
| Next (st : DICOMLoop).

(** The buffer after the element has been loaded, with the allocated bit
    width.  The decoded JPEG is copied to the front of the buffer, which
    has [iDataSize] cells: a longer one does not fit.  Otherwise the
    element fills the buffer itself with its payload. *)
Definition load_element (X : Externals) (bIsJPEGEncoded : bool)
    (e : StackElement) (iDataSize : nat) (st : DICOMLoop)
    : Turn + (list byte * Z) :=
  if bIsJPEGEncoded then
    match JPEG e with
    | None => inl InvalidJPEG
    | Some jpeg_data =>
        if (length jpeg_data <=? iDataSize)%nat
        then inr (copy_over jpeg_data (resize iDataSize (vData st)),
                  BITS_IN_JSAMPLE X)
        else inl OutOfBounds
    end
  else inr (GetData e, allocated st).

(** The part of a turn that writes to the temp file.  With three
    components [iDataSize/3] triples are read from the buffer and as many
    groups of four are written to a new buffer of [iRGBADataSize] cells;
    sizes and indices are UINT32, so that the new buffer has room for the
    groups only if four times their number stays below 2^32.  Otherwise
    the first [iDataSize] bytes of the buffer are written. *)
Definition write_element (iDataSize : nat) (buf : list byte) (alloc : Z)
    (st : DICOMLoop) : Turn :=
  if components st =? 3 then
    let groups := (iDataSize / 3)%nat in
    let iRGBADataSize := Z.to_nat (UINT32_wrap (Z.of_nat groups * 4)) in
    if (Z.of_nat groups * 4 <? 2 ^ 32) && (3 * groups <=? length buf)%nat
    then Next {| vData := buf; allocated := alloc; components := 4;
                 written := written st
                   ++ firstn iRGBADataSize (fill_RGBA groups 0 buf) |}
    else OutOfBounds
  else
    if (iDataSize <=? length buf)%nat
    then Next {| vData := buf; allocated := alloc;
                 components := components st;
                 written := written st ++ firstn iDataSize buf |}
    else OutOfBounds.

(** One turn of the element loop. *)
Definition dicom_element (X : Externals) (bIsJPEGEncoded bIsBigEndian : bool)
    (e : StackElement) (st : DICOMLoop) : Turn :=
  let iDataSize := Z.to_nat (UINT32_wrap (GetDataSize e)) in
  match load_element X bIsJPEGEncoded e iDataSize st with
  | inl stop => stop
  | inr (buf, alloc) =>
      if negb (Bool.eqb bIsBigEndian (host_IsBigEndian X)) then
        match swap_endianness alloc iDataSize buf with
        | None => OutOfBounds
        | Some swapped => write_element iDataSize swapped alloc st
        end
      else write_element iDataSize buf alloc st
  end.

(** How the element loop ends: on the invalid JPEG of a file, out of
    bounds, or with every element written. *)
Inductive Turns :=
| Invalid (name : string)
| Overrun
| Complete (st : DICOMLoop).

Fixpoint dicom_elements (X : Externals) (bIsJPEGEncoded bIsBigEndian : bool)
    (es : list StackElement) (st : DICOMLoop) : Turns :=
  match es with
  | [] => Complete st
  | e :: rest =>
      match dicom_element X bIsJPEGEncoded bIsBigEndian e st with
      | InvalidJPEG => Invalid (m_strFileName e)
      | OutOfBounds => Overrun
      | Next st' => dicom_elements X bIsJPEGEncoded bIsBigEndian rest st'
      end
  end.

(** The element loop of the IMAGE branch. *)
Definition image_elements (es : list StackElement) : list byte :=
  concat (map GetData es).

(** How a conversion ends.
    - [Undefined]: the element loop runs out of bounds, or the source
      reads [m_Elements[0]] of an empty stack;
    - [Aborted]: [false] is returned before the builder is reached;
    - [Built]: the builder ran on the temp file [raw] with the arguments
      [request] and [result] is what the conversion returns; the temp
      file is removed (the removal is taken to succeed). *)
Inductive Outcome :=
| Undefined
| Aborted (w : World)
| Built (raw : list byte) (request : RAWCall) (result : bool) (w : World).

Definition stack_size (pStack : FileStackInfo) : VECTOR3 :=
  let n := UINT32_wrap (Z.of_nat (length (m_Elements pStack))) in
  vec3 (vx (m_ivSize pStack)) (vy (m_ivSize pStack))
       (UINT64_wrap (vz (m_ivSize pStack) * n)).

Definition first_to_last (X : Externals) (first last : StackElement)
    : string :=
  GetFilename X (m_strFileName first) +:+ " to "
    +:+ GetFilename X (m_strFileName last).

Definition ConvertDataset (X : Externals) (pStack : FileStackInfo)
    (strTargetFilename strTempDir : string)
    (iMaxBrickSize iBrickOverlap : Z) (bQuantizeTo8Bit : bool)
    (w : World) : Outcome :=
  let strTempMergeFilename :=
    strTempDir +:+ GetFilename X strTargetFilename +:+ "~" in
  if String.eqb (m_strFileType pStack) "DICOM" then
    if negb (can_create X strTempMergeFilename) then
      Aborted (say (T_ERROR ("Could not create temp file "
                     +:+ strTempMergeFilename +:+ " aborted conversion.")) w)
    else
      let w := create strTempMergeFilename w in
      match dicom_elements X (m_bIsJPEGEncoded pStack)
              (m_bIsBigEndian pStack) (m_Elements pStack)
              {| vData := []; allocated := m_iAllocated pStack;
                 components := m_iComponentCount pStack; written := [] |} with
      | Invalid name =>
          Aborted (say (T_ERROR ("'" +:+ name +:+
                     "' reports an embedded JPEG, but the JPEG is invalid."))
                       w)
      | Overrun => Undefined
      | Complete st =>
          match m_Elements pStack with
          | [] => Undefined
          | first :: _ =>
              let request :=
                {| raw_strFilename := strTempMergeFilename;
                   raw_strTargetFilename := strTargetFilename;
                   raw_strTempDir := strTempDir;
                   raw_iHeaderSkip := 0;
                   raw_iComponentSize := allocated st;
                   raw_iComponentCount := components st;
                   raw_timesteps := 1;
                   raw_bConvertEndianness :=
                     negb (Bool.eqb (m_bIsBigEndian pStack)
                                    (host_IsBigEndian X));
                   raw_bSigned := allocated st >=? 32;
                   raw_bIsFloat := false;
                   raw_vVolumeSize := stack_size pStack;
                   raw_vVolumeAspect := m_fvfAspect pStack;
                   raw_strDesc := "DICOM stack";
                   raw_strSource :=
                     first_to_last X first (List.last (m_Elements pStack) first);
                   raw_iTargetBrickSize := iMaxBrickSize;
                   raw_iTargetBrickOverlap := iBrickOverlap;
                   raw_bQuantizeTo8Bit := bQuantizeTo8Bit |} in
              let (result, w) := run_ConvertRAWDataset X request w in
              Built (written st) request result
                    (remove strTempMergeFilename w)
          end
      end
  else if String.eqb (m_strFileType pStack) "IMAGE" then
    if negb (can_create X strTempMergeFilename) then
      Aborted (say (T_ERROR ("Could not create temp file "
                     +:+ strTempMergeFilename +:+ " aborted conversion.")) w)
    else
      let w := create strTempMergeFilename w in
      match m_Elements pStack with
      | [] => Undefined
      | first :: _ =>
          let request :=
            {| raw_strFilename := strTempMergeFilename;
               raw_strTargetFilename := strTargetFilename;
               raw_strTempDir := strTempDir;
               raw_iHeaderSkip := 0;
               raw_iComponentSize := m_iAllocated pStack;
               raw_iComponentCount := Stacks.GetComponentCount first;
               raw_timesteps := 1;
               raw_bConvertEndianness :=
                 negb (Bool.eqb (m_bIsBigEndian pStack)
                                (host_IsBigEndian X));
               raw_bSigned := m_iComponentCount pStack >=? 32;
               raw_bIsFloat := false;
               raw_vVolumeSize := stack_size pStack;
               raw_vVolumeAspect := m_fvfAspect pStack;
               raw_strDesc := "Image stack";
               raw_strSource :=
                 first_to_last X first (List.last (m_Elements pStack) first);
               raw_iTargetBrickSize := iMaxBrickSize;
               raw_iTargetBrickOverlap := iBrickOverlap;
               raw_bQuantizeTo8Bit := false |} in
          let (result, w) := run_ConvertRAWDataset X request w in
          Built (image_elements (m_Elements pStack)) request result
                (remove strTempMergeFilename w)
      end
  else
    Aborted (say (T_ERROR ("Unknown source stack type "
                           +:+ m_strFileType pStack)) w).

End Stacks.


(* ===================================================================== *)
(** * Merging: IOManager::MergeDatasets *)
(* ===================================================================== *)

Module Merging.

(** How a turn of the input loop ends. *)
Inductive Flow :=
| Continue
| Break
| Return (b : bool).

(** The variables of [MergeDatasets] that live across the input loop. *)
Record MergeLoop := mkMergeLoop {
  G : VolumeMeta;
  bRAWCreated : bool;
  vIntermediateFiles : list MergeDataset;
  world : World
}.

Definition zero_meta : VolumeMeta :=
  {| iComponentSize := 0; iComponentCount := 0; bConvertEndianess := false;
     bSigned := false; bIsFloat := false; vVolumeSize := vec3 0 0 0;
     vVolumeAspect := vec3 0 0 0 |}.

(** What a UVF dataset reports about its finest level (level 0, and the
    first timestep, which is the default of [GetDomainSize]). *)
Definition uvf_meta (v : Dataset) : VolumeMeta :=
  {| iComponentSize := GetBitWidth v;
     iComponentCount := GetComponentCount v;
     bConvertEndianess := negb (IsSameEndianness v);
     bSigned := GetIsSigned v;
     bIsFloat := GetIsFloat v;
     vVolumeSize := GetDomainSize v 0 0;
     vVolumeAspect := GetScale v |}.

(** One use of the macro DATA_TYPE_CHECK. *)
Definition DATA_TYPE_CHECK (same : bool) (errmsg : string)
    (st : bool * World) : bool * World :=
  if same then st else (false, say (T_ERROR errmsg) (snd st)).

Definition uvf_checks (g m : VolumeMeta) (st : bool * World)
    : bool * World :=
  let st := DATA_TYPE_CHECK (iComponentSize g =? iComponentSize m)
              "mismatched bit widths." st in
  let st := DATA_TYPE_CHECK (iComponentCount g =? iComponentCount m)
              "different number of components." st in
  let st := DATA_TYPE_CHECK (Bool.eqb (bConvertEndianess g)
                                      (bConvertEndianess m))
              "mismatched endianness." st in
  let st := DATA_TYPE_CHECK (Bool.eqb (bSigned g) (bSigned m))
              "signedness differences" st in
  let st := DATA_TYPE_CHECK (Bool.eqb (bIsFloat g) (bIsFloat m))
              "some data float, other non-float." st in
  DATA_TYPE_CHECK (vec3_eqb (vVolumeSize g) (vVolumeSize m))
              "different volume sizes" st.

(** The comparison the non-UVF branch writes out. *)
Definition same_type (g m : VolumeMeta) : bool :=
  (iComponentSize g =? iComponentSize m)
  && (iComponentCount g =? iComponentCount m)
  && Bool.eqb (bConvertEndianess g) (bConvertEndianess m)
  && Bool.eqb (bSigned g) (bSigned m)
  && Bool.eqb (bIsFloat g) (bIsFloat m)
  && vec3_eqb (vVolumeSize g) (vVolumeSize m).

Definition warn_aspect (g m : VolumeMeta) (w : World) : World :=
  if vec3_eqb (vVolumeAspect g) (vVolumeAspect m) then w
  else say (WARNING "Different aspect ratios found.") w.

(** The branch for an input whose extension is UVF. *)
Definition uvf_input (X : Externals) (strTempDir : string)
    (iInputData : nat) (name : string) (fScale fBias : Z)
    (st : MergeLoop) : Flow * MergeLoop :=
  let v := open_UVF X name in
  if negb (IsOpen v) then
    (Return false,
     mkMergeLoop (G st) (bRAWCreated st) (vIntermediateFiles st)
       (say (T_ERROR ("Could not open '" +:+ name +:+ "'!")) (world st)))
  else
    let checked :=
      match iInputData with
      | O => inl (mkMergeLoop (uvf_meta v) (bRAWCreated st)
                    (vIntermediateFiles st) (world st))
      | S _ =>
          let (flag, w) :=
            uvf_checks (G st) (uvf_meta v) (bRAWCreated st, world st) in
          if negb flag then
            inr (mkMergeLoop (G st) flag (vIntermediateFiles st)
                   (say (T_ERROR "Incompatible data types.") w))
          else
            inl (mkMergeLoop (G st) flag (vIntermediateFiles st)
                   (warn_aspect (G st) (uvf_meta v) w))
      end in
    match checked with
    | inr st' => (Break, st')
    | inl st' =>
        let file := strTempDir +:+ GetFilename X name
                      +:+ rand_string X iInputData +:+ ".raw" in
        if negb (Export v 0 file) then
          (* a failed export may have left a part of the file *)
          let w := create file (world st') in
          let w := if FileExists file w then remove file w else w in
          (Break,
           mkMergeLoop (G st') (bRAWCreated st') (vIntermediateFiles st') w)
        else
          (Continue,
           mkMergeLoop (G st') true
             (vIntermediateFiles st'
                ++ [mkMergeDataset file 0 true fScale fBias])
             (create file (world st')))
    end.

(** The loop over the identified converters: [flag] is [bRAWCreated] and
    [out] the out-parameters, as the last call left them. *)
Fixpoint try_converters (cs : list AbstrConverter) (name : string)
    (flag : bool) (out : option RAWDescription)
    : bool * option RAWDescription :=
  match cs with
  | [] => (flag, out)
  | c :: rest =>
      match ConvertToRAW c name with
      | Some r => (true, Some r)
      | None => try_converters rest name false out
      end
  end.

(** The intermediate file as the out-parameters leave it; a default
    constructed [MergeDataset] when no call succeeded. *)
Definition intermediate (out : option RAWDescription) (fScale fBias : Z)
    : MergeDataset :=
  match out with
  | Some r => mkMergeDataset (strIntermediateFile r) (iHeaderSkip r)
                (bDeleteIntermediateFile r) fScale fBias
  | None => mkMergeDataset "" 0 false fScale fBias
  end.

Definition out_meta (out : option RAWDescription) : VolumeMeta :=
  match out with
  | Some r => meta r
  | None => zero_meta
  end.

Definition out_created (out : option RAWDescription) (w : World) : World :=
  match out with
  | Some r => create (strIntermediateFile r) w
  | None => w
  end.

(** The converters identified for a file, as the set hands them out. *)
Definition identified (io : IOManager) (X : Externals) (name : string)
    : list AbstrConverter :=
  address_order X (identify_converters name (m_vpConverters io)).

(** The branch for every other input. *)
Definition foreign_input (io : IOManager) (X : Externals)
    (iInputData : nat) (name : string) (fScale fBias : Z) (st : MergeLoop)
    : Flow * MergeLoop :=
  let converters := identified io X name in
  let (flag, out) := try_converters converters name (bRAWCreated st) None in
  let (flag, out) :=
    match m_pFinalConverter io with
    | Some final =>
        if negb flag then
          match ConvertToRAW final name with
          | Some r => (true, Some r)
          | None => (false, out)
          end
        else (flag, out)
    | None => (flag, out)
    end in
  let w := out_created out (world st) in
  if negb flag then
    (Break, mkMergeLoop (G st) flag (vIntermediateFiles st) w)
  else
    let files := vIntermediateFiles st ++ [intermediate out fScale fBias] in
    match iInputData with
    | O => (Continue, mkMergeLoop (out_meta out) flag files w)
    | S _ =>
        if negb (same_type (G st) (out_meta out)) then
          (Break,
           mkMergeLoop (G st) false files
             (say (T_ERROR "Incompatible data types.") w))
        else
          (Continue,
           mkMergeLoop (G st) flag files
             (warn_aspect (G st) (out_meta out) w))
    end.

Definition input (io : IOManager) (X : Externals) (strTempDir : string)
    (iInputData : nat) (name : string) (fScale fBias : Z) (st : MergeLoop)
    : Flow * MergeLoop :=
  if String.eqb (ToUpperCase (GetExt X name)) "UVF"
  then uvf_input X strTempDir iInputData name fScale fBias st
  else foreign_input io X iInputData name fScale fBias st.

(** The input loop, from input number [iInputData] on. *)
Fixpoint inputs (io : IOManager) (X : Externals) (strTempDir : string)
    (vScales vBiases : list Z) (iInputData : nat) (names : list string)
    (st : MergeLoop) : Flow * MergeLoop :=
  match names with
  | [] => (Continue, st)
  | name :: rest =>
      match input io X strTempDir iInputData name
              (nth iInputData vScales 0) (nth iInputData vBiases 0) st with
      | (Continue, st') =>
          inputs io X strTempDir vScales vBiases (S iInputData) rest st'
      | stop => stop
      end
  end.

(** The loop that removes the intermediate files. *)
Fixpoint remove_intermediates (fs : list MergeDataset) (w : World) : World :=
  match fs with
  | [] => w
  | f :: rest =>
      remove_intermediates rest
        (if bDelete f && FileExists (strFilename f) w
         then remove (strFilename f) w else w)
  end.

(** The type switch around [DataMerger<T>]: [None] is the early
    [return false] for unsigned float data, otherwise [bIsMerged].  A
    merger that succeeds leaves the merged file; one that fails removes
    what it wrote, as the specification of the merger has it. *)
Definition merge (X : Externals) (g : VolumeMeta)
    (fs : list MergeDataset) (strMergedFile : string) (bUseMaxMode : bool)
    (w : World) : option bool * World :=
  let run :=
    let w1 := start (StageMerge strMergedFile) w in
    if DataMerger_IsOK X fs strMergedFile
         (UINT64_wrap (volume (vVolumeSize g) * iComponentCount g))
         bUseMaxMode
    then (Some true, create strMergedFile w1)
    else (Some false, w1) in
  let size := iComponentSize g in
  if bSigned g then
    if bIsFloat g then
      if (size =? 32) || (size =? 64) then run else (Some false, w)
    else
      if (size =? 8) || (size =? 16) || (size =? 32) || (size =? 64)
      then run else (Some false, w)
  else
    if bIsFloat g then
      (None, say (T_ERROR "Don't know how to handle unsigned float data.") w)
    else
      if (size =? 8) || (size =? 16) || (size =? 32) || (size =? 64)
      then run else (Some false, w).

(** The two loops that look for a converter of the target: one converter,
    then the registry. *)
Fixpoint native_by (c : AbstrConverter) (exts : list string)
    (strExtTarget strMergedFile strTargetFilename : string) (w : World)
    : bool * World :=
  match exts with
  | [] => (false, w)
  | e :: rest =>
      if String.eqb e strExtTarget then
        let w1 := start (StageToNative (GetDesc c) strMergedFile
                                       strTargetFilename) w in
        if ConvertToNative c strTargetFilename
        then (true, create strTargetFilename w1)
        else native_by c rest strExtTarget strMergedFile strTargetFilename
               (say (WARNING (GetDesc c +:+
                      " said it could convert to native, but failed!")) w1)
      else native_by c rest strExtTarget strMergedFile strTargetFilename w
  end.

Fixpoint native (cs : list AbstrConverter)
    (strExtTarget strMergedFile strTargetFilename : string) (w : World)
    : bool * World :=
  match cs with
  | [] => (false, w)
  | c :: rest =>
      match native_by c (SupportedExt c) strExtTarget strMergedFile
              strTargetFilename w with
      | (true, w') => (true, w')
      | (false, w') =>
          native rest strExtTarget strMergedFile strTargetFilename w'
      end
  end.

(** [IOManager::MergeDatasets]: the flag it returns and the world after. *)
Definition MergeDatasets (io : IOManager) (X : Externals)
    (strFilenames : list string) (vScales vBiases : list Z)
    (strTargetFilename strTempDir : string) (bUseMaxMode : bool)
    (w : World) : bool * World :=
  match inputs io X strTempDir vScales vBiases 0 strFilenames
          (mkMergeLoop zero_meta false [] w) with
  | (Return b, st) => (b, world st)
  | (_, st) =>
      if negb (bRAWCreated st) then
        let w := say (T_ERROR "No raw files.  Deleting temp files...")
                     (world st) in
        let w := remove_intermediates (vIntermediateFiles st) w in
        (false, say (T_ERROR "...  and bailing.") w)
      else
        let strMergedFile := strTempDir +:+ "merged.raw" in
        match merge X (G st) (vIntermediateFiles st) strMergedFile
                bUseMaxMode (world st) with
        | (None, w) => (false, w)
        | (Some bIsMerged, w) =>
            let w := remove_intermediates (vIntermediateFiles st) w in
            if negb bIsMerged then
              (false,
               say (WARNING "Merged failed, see other debug messages.") w)
            else
              let strExtTarget :=
                ToUpperCase (GetExt X strTargetFilename) in
              let (bTargetCreated, w) :=
                if String.eqb strExtTarget "UVF" then
                  run_ConvertRAWDataset X
                    {| raw_strFilename := strMergedFile;
                       raw_strTargetFilename := strTargetFilename;
                       raw_strTempDir := strTempDir;
                       raw_iHeaderSkip := 0;
                       raw_iComponentSize := iComponentSize (G st);
                       raw_iComponentCount := iComponentCount (G st);
                       raw_timesteps := 1;
                       raw_bConvertEndianness := bConvertEndianess (G st);
                       raw_bSigned := bSigned (G st);
                       raw_bIsFloat := bIsFloat (G st);
                       raw_vVolumeSize := vVolumeSize (G st);
                       raw_vVolumeAspect := vVolumeAspect (G st);
                       raw_strDesc := "Merged data from multiple files";
                       raw_strSource := GetFilename X strMergedFile;
                       raw_iTargetBrickSize := m_iMaxBrickSize io;
                       raw_iTargetBrickOverlap := m_iBrickOverlap io;
                       raw_bQuantizeTo8Bit := false |} w
                else
                  native (m_vpConverters io) strExtTarget strMergedFile
                         strTargetFilename w in
              (bTargetCreated, remove strMergedFile w)
        end
  end.

End Merging.

(* ===================================================================== *)
(** * Stats: minmax_input, get_brick_minmax, MaxMin, CreateUVFFromRDB *)
(* ===================================================================== *)

Module Stats.

(** The scalar types the templates are instantiated at. *)
Inductive VoxelType := I8 | U8 | I16 | U16 | I32 | U32 | F32 | F64.

(** Values.  A voxel of one of the six integer types is the integer it
    denotes, and so is a double that holds an integer: every value of
    these types is a double exactly, FLT_MAX and DBL_MAX are integers, and
    on integers the order of the doubles is the order of [Z].  Voxels of
    the types F32 and F64 are not modelled: they can be fractions and
    NaN, which [Z] does not have.  A run that looks at such voxels ends
    in [FloatVoxels] below. *)
Definition FLT_MAX : Z := (2 ^ 24 - 1) * 2 ^ 104.
Definition DBL_MAX : Z := (2 ^ 53 - 1) * 2 ^ 971.

(** The six integer types. *)
Definition integer_type (T : VoxelType) : bool :=
  match T with
  | F32 | F64 => false
  | _ => true
  end.

(** [std::numeric_limits<T>::max()] and [std::numeric_limits<T>::min()]
    of the integer types (lowest value). *)
Definition numeric_limits_max (T : VoxelType) : Z :=
  match T with
  | I8 => 2 ^ 7 - 1 | U8 => 2 ^ 8 - 1
  | I16 => 2 ^ 15 - 1 | U16 => 2 ^ 16 - 1
  | I32 => 2 ^ 31 - 1 | U32 => 2 ^ 32 - 1
  | F32 => FLT_MAX | F64 => DBL_MAX
  end.

Definition lowest (T : VoxelType) : Z :=
  match T with
  | I8 => - 2 ^ 7 | I16 => - 2 ^ 15 | I32 => - 2 ^ 31
  | U8 | U16 | U32 => 0
  | F32 => - FLT_MAX | F64 => - DBL_MAX
  end.

(** Conversion of an integer value to [T]: reduction modulo the width for
    the unsigned types, two's complement for the signed ones. *)
Definition to_unsigned (bits z : Z) : Z := z mod 2 ^ bits.
Definition to_signed (bits z : Z) : Z :=
  (z + 2 ^ (bits - 1)) mod 2 ^ bits - 2 ^ (bits - 1).

Definition convert (T : VoxelType) (z : Z) : Z :=
  match T with
  | I8 => to_signed 8 z | U8 => to_unsigned 8 z
  | I16 => to_signed 16 z | U16 => to_unsigned 16 z
  | I32 => to_signed 32 z | U32 => to_unsigned 32 z
  | F32 | F64 => z
  end.

(** A value a voxel of type [T] can have (within the model). *)
Definition is_value (T : VoxelType) (z : Z) : Prop :=
  lowest T <= z <= numeric_limits_max T.

(** [std::min(a, b)] is [(b < a) ? b : a] and [std::max(a, b)] is
    [(a < b) ? b : a]. *)
Definition std_min (a b : Z) : Z := if b <? a then b else a.
Definition std_max (a b : Z) : Z := if a <? b then b else a.

(** [minmax_input<T>] at an integer type [T], on voxels of that type:
    the pair starts at
    [(numeric_limits<T>::max(), -numeric_limits<T>::max())], the second
    component converted to [T]. *)
Definition minmax_input (T : VoxelType) (data : list Z) : Z * Z :=
  fold_left
    (fun retval v => (std_min v (fst retval), std_max v (snd retval)))
    data
    (numeric_limits_max T, convert T (- numeric_limits_max T)).

(** DOUBLEVECTOR4. *)
Record DOUBLEVECTOR4 := vec4 { x : Z; y : Z; z : Z; w : Z }.

(** One level of detail of a raster data block: the brick counts along
    the three axes and the voxels of the brick at a position (nothing
    for a brick that does not exist). *)
Record LOD := mkLOD {
  counts : VECTOR3;
  voxels : Z -> Z -> Z -> list Z
}.

Inductive BlockSemantic := BS_EMPTY | BS_REG_NDIM_GRID.
Inductive ElementSemantic := ES_UNDEFINED | ES_RED.

(** The raster data block, by the members this file reads and sets; of
    the nested vectors the entry [[0][0]] (or [[0]]) is kept. *)
Record RasterDataBlock := mkRDB {
  ulBlockSemantics : BlockSemantic;
  ulElementSemantic : ElementSemantic;
  ulElementDimensionSize : Z;
  ulElementBitSize : Z;
  ulElementMantissa : Z;
  bSignedElement : bool;
  ulDomainSize : VECTOR3;
  lods : list LOD
}.

Definition no_lod : LOD := mkLOD (vec3 0 0 0) (fun _ _ _ => []).

Definition GetBrickCount (rdb : RasterDataBlock) (LoD : nat) : VECTOR3 :=
  counts (nth LoD (lods rdb) no_lod).

Definition ValidLOD (rdb : RasterDataBlock) (LoD : nat) : bool :=
  (LoD <? length (lods rdb))%nat.

Definition ValidBrickIndex (rdb : RasterDataBlock) (LoD : nat)
    (b : VECTOR3) : bool :=
  ValidLOD rdb LoD
  && (vx b <? vx (GetBrickCount rdb LoD))
  && (vy b <? vy (GetBrickCount rdb LoD))
  && (vz b <? vz (GetBrickCount rdb LoD)).

Definition GetData (rdb : RasterDataBlock) (LoD : nat) (b : VECTOR3)
    : list Z :=
  if ValidBrickIndex rdb LoD b
  then voxels (nth LoD (lods rdb) no_lod) (vx b) (vy b) (vz b)
  else [].

(** How a run of the statistics code ends.
    - [Returns]: with a result;
    - [AssertFails]: an [assert] of the source does not hold, which
      aborts the program (the assertions are taken to be compiled in);
    - [DivisionByZero]: [NDBrickIndex] divides by zero, which the source
      leaves undefined;
    - [FloatVoxels]: the run gets to voxels of a floating point type,
      which are not modelled;
    - [OutOfFuel]: a loop has not ended within the turns it was given. *)
Inductive Run (A : Type) : Type :=
| Returns (a : A)
| AssertFails
| DivisionByZero
| FloatVoxels
| OutOfFuel.

Arguments Returns {A} a.
Arguments AssertFails {A}.
Arguments DivisionByZero {A}.
Arguments FloatVoxels {A}.
Arguments OutOfFuel {A}.

Definition bind {A B : Type} (r : Run A) (k : A -> Run B) : Run B :=
  match r with
  | Returns a => k a
  | AssertFails => AssertFails
  | DivisionByZero => DivisionByZero
  | FloatVoxels => FloatVoxels
  | OutOfFuel => OutOfFuel
  end.

Local Notation "x <- r ;; k" := (bind r (fun x => k))
  (at level 100, r at next level, right associativity).

(** [NDBrickIndex]: the 1D brick index as a 3D one.  The arithmetic is
    that of UINT64: the product of the first two brick counts is reduced
    modulo 2^64, and a product of zero makes the source divide by zero. *)
Definition NDBrickIndex (rdb : RasterDataBlock) (LoD : nat) (b : nat)
    : Run VECTOR3 :=
  let brick := UINT64_wrap (Z.of_nat b) in
  let c := GetBrickCount rdb LoD in
  let xy := UINT64_wrap (vx c * vy c) in
  if xy =? 0 then DivisionByZero
  else
    let z := brick / xy in
    let brick := brick mod xy in
    let y := brick / vx c in
    let brick := brick mod vx c in
    Returns (vec3 brick y z).

(** [rdb->ValidBrickIndex(vLOD, NDBrickIndex(rdb, vLOD[0], brick))]. *)
Definition valid_brick (rdb : RasterDataBlock) (LoD brick : nat)
    : Run bool :=
  b_idx <- NDBrickIndex rdb LoD brick ;;
  Returns (ValidBrickIndex rdb LoD b_idx).

(** [get_brick_minmax<T>]. *)
Definition get_brick_minmax (T : VoxelType) (rdb : RasterDataBlock)
    (LoD : nat) (vBrick : VECTOR3) : DOUBLEVECTOR4 :=
  let mm := minmax_input T (GetData rdb LoD vBrick) in
  {| x := fst mm; y := snd mm; z := - DBL_MAX; w := DBL_MAX |}.

(** The type dispatch in the body of [MaxMin]: what is pushed for one
    brick.  The two floating point cases assert that the type is signed.
    The two 64 bit integer cases push the widest interval and then assert
    [1 == 0], as the last case does at once: none of the three gets past
    its assertion. *)
Definition brick_entry (rdb : RasterDataBlock) (LoD : nat)
    (b_idx : VECTOR3) : Run DOUBLEVECTOR4 :=
  let is_float := negb (ulElementMantissa rdb =? 0) in
  let is_signed := bSignedElement rdb in
  let bit_width := ulElementBitSize rdb in
  if is_float && (bit_width =? 32) then
    if is_signed then FloatVoxels else AssertFails
  else if is_float && (bit_width =? 64) then
    if is_signed then FloatVoxels else AssertFails
  else if is_signed && (8 =? bit_width) then
    Returns (get_brick_minmax I8 rdb LoD b_idx)
  else if negb is_signed && (8 =? bit_width) then
    Returns (get_brick_minmax U8 rdb LoD b_idx)
  else if is_signed && (16 =? bit_width) then
    Returns (get_brick_minmax I16 rdb LoD b_idx)
  else if negb is_signed && (16 =? bit_width) then
    Returns (get_brick_minmax U16 rdb LoD b_idx)
  else if is_signed && (32 =? bit_width) then
    Returns (get_brick_minmax I32 rdb LoD b_idx)
  else if negb is_signed && (32 =? bit_width) then
    Returns (get_brick_minmax U32 rdb LoD b_idx)
  else if is_signed && (64 =? bit_width) then AssertFails
  else if negb is_signed && (64 =? bit_width) then AssertFails
  else AssertFails.

(** The inner do-while of [MaxMin], from brick number [brick] on: the
    entries it pushes.  A turn starts with the assertion that the brick
    exists.  [fuel] bounds the number of turns. *)
Fixpoint bricks_from (fuel : nat) (rdb : RasterDataBlock) (LoD brick : nat)
    : Run (list DOUBLEVECTOR4) :=
  match fuel with
  | O => OutOfFuel
  | S fuel' =>
      valid <- valid_brick rdb LoD brick ;;
      if negb valid then AssertFails
      else
        b_idx <- NDBrickIndex rdb LoD brick ;;
        entry <- brick_entry rdb LoD b_idx ;;
        again <- valid_brick rdb LoD (S brick) ;;
        if again then
          rest <- bricks_from fuel' rdb LoD (S brick) ;;
          Returns (entry :: rest)
        else Returns [entry]
  end.

Definition brick_total (rdb : RasterDataBlock) (LoD : nat) : nat :=
  let c := GetBrickCount rdb LoD in
  Z.to_nat (vx c * vy c * vz c).

(** The outer do-while, from level [LoD] on. *)
Fixpoint lods_from (fuel : nat) (rdb : RasterDataBlock) (LoD : nat)
    : Run (list DOUBLEVECTOR4) :=
  match fuel with
  | O => OutOfFuel
  | S fuel' =>
      here <- bricks_from (S (brick_total rdb LoD)) rdb LoD 0 ;;
      if ValidLOD rdb (S LoD) then
        rest <- lods_from fuel' rdb (S LoD) ;;
        Returns (here ++ rest)
      else Returns here
  end.

(** [MaxMin].  The outer loop gets a turn more than there are levels, and
    the inner loop a turn more than the level has bricks by its counts. *)
Definition MaxMin (rdb : RasterDataBlock) : Run (list DOUBLEVECTOR4) :=
  lods_from (S (length (lods rdb))) rdb 0.

(** What [CreateUVFFromRDB] puts next to the raster block: the entries
    merged into the min-max block, one [StartNewValue]/[MergeData] each,
    and the two arguments [Histogram2DDataBlock::Compute] gets besides the
    block; [hist1d_size] is [hist1d.GetHistogram().size()]. *)
Record UVFBlocks := mkUVFBlocks {
  maxmin_block : list DOUBLEVECTOR4;
  hist2d_bins : Z;
  hist2d_max : Z
}.

Definition CreateUVFFromRDB (hist1d_size : RasterDataBlock -> Z)
    (rdb : RasterDataBlock) : Run UVFBlocks :=
  minmax <- MaxMin rdb ;;
  let max_val := fold_left (fun max_val i => std_max max_val (y i))
                           minmax DBL_MAX in
  Returns {| maxmin_block := minmax;
             hist2d_bins := hist1d_size rdb;
             hist2d_max := max_val |}.

End Stats.

(* ===================================================================== *)
(** * Expressions: MergeableDatasets, IdentifyType, EvaluateExpression *)
(* ===================================================================== *)

Module Expressions.

Import Stats.

(** [a.GetDomainSize()] without arguments.  The default arguments are
    declared in a header outside the sources; they are the finest level
    and the first timestep. *)
Definition GetDomainSize_default (d : Dataset) : VECTOR3 :=
  GetDomainSize d 0 0.

(** [MergeableDatasets::operator()]. *)
Definition MergeableDatasets (a b : Dataset) : bool :=
  if negb (GetComponentCount a =? GetComponentCount b)
     || negb (vec3_eqb (GetBrickOverlapSize a) (GetBrickOverlapSize b))
  then false
  else
    let timesteps := GetNumberOfTimesteps a in
    if negb (timesteps =? GetNumberOfTimesteps b)%nat then false
    else
      let LoDs := GetLODLevelCount a in
      if negb (LoDs =? GetLODLevelCount b)%nat then false
      else
        forallb (fun ts =>
          forallb (fun level =>
            negb (negb (vec3_eqb (GetDomainSize_default a)
                                 (GetDomainSize_default b))
                  || negb (vec3_eqb (External.GetBrickCount a level ts)
                                    (External.GetBrickCount b level ts))))
            (seq 0 LoDs))
          (seq 0 timesteps).

(** [std::max] on [bool], with [false < true]. *)
Definition std_max_bool (a b : bool) : bool :=
  if negb a && b then b else a.

(** [IdentifyType]: the three out-parameters.  The cast of the bit width
    to [size_t] keeps the value: a bit width fits any [size_t]. *)
Definition IdentifyType (uvf : list Dataset) : Z * bool * bool :=
  fold_left
    (fun '(bit_width, is_float, is_signed) u =>
       (Z.max bit_width (GetBitWidth u),
        std_max_bool is_float (GetIsFloat u),
        std_max_bool is_signed (GetIsSigned u)))
    uvf (0, false, false).

(** A default constructed raster data block. *)
Definition new_RasterDataBlock : RasterDataBlock :=
  {| ulBlockSemantics := BS_EMPTY; ulElementSemantic := ES_UNDEFINED;
     ulElementDimensionSize := 0; ulElementBitSize := 0;
     ulElementMantissa := 0; bSignedElement := false;
     ulDomainSize := vec3 0 0 0; lods := [] |}.

Definition SetBlockSemantic (s : BlockSemantic) (rdb : RasterDataBlock)
    : RasterDataBlock :=
  {| ulBlockSemantics := s; ulElementSemantic := ulElementSemantic rdb;
     ulElementDimensionSize := ulElementDimensionSize rdb;
     ulElementBitSize := ulElementBitSize rdb;
     ulElementMantissa := ulElementMantissa rdb;
     bSignedElement := bSignedElement rdb;
     ulDomainSize := ulDomainSize rdb; lods := lods rdb |}.

(** Modelled from the spec: RasterDataBlock::SetTypeToUShort is not part
    of the sources.  The spec calls the type it sets 16-bit unsigned: one
    component of 16 bits, not signed, and with the mantissa entry that the
    readers in this file take for an integer type. *)
Definition SetTypeToUShort (semantic : ElementSemantic)
    (rdb : RasterDataBlock) : RasterDataBlock :=
  {| ulBlockSemantics := ulBlockSemantics rdb;
     ulElementSemantic := semantic;
     ulElementDimensionSize := 1;
     ulElementBitSize := 16;
     ulElementMantissa := 0;
     bSignedElement := false;
     ulDomainSize := ulDomainSize rdb; lods := lods rdb |}.

(** [*rdb = *rdb1]: the source assigns the raster data block as a whole.
    The assignment operator of RasterDataBlock is not part of the sources;
    the assignment is taken at its word: afterwards the block on the left
    is the one on the right, the element type included. *)
Definition assign (rdb rdb1 : RasterDataBlock) : RasterDataBlock := rdb1.

(** The bricks the evaluation loop has written when it ends are the
    business of the expression evaluator; [written] stands for them. *)
Definition SetData (written : list LOD) (rdb : RasterDataBlock)
    : RasterDataBlock :=
  {| ulBlockSemantics := ulBlockSemantics rdb;
     ulElementSemantic := ulElementSemantic rdb;
     ulElementDimensionSize := ulElementDimensionSize rdb;
     ulElementBitSize := ulElementBitSize rdb;
     ulElementMantissa := ulElementMantissa rdb;
     bSignedElement := bSignedElement rdb;
     ulDomainSize := ulDomainSize rdb; lods := written |}.

(** How [EvaluateExpression] ends: with one of its two exceptions, or
    with the block it hands to [CreateUVFFromRDB] and the destination type
    that [IdentifyType] computed.  [NoVolumes] is the call without input
    volumes, which the source excludes by an assertion. *)
Inductive Evaluation :=
| NoVolumes
| SyntaxError
| UnmergeableDatasets (what : string)
| Evaluated (rdb : RasterDataBlock) (bit_width : Z)
            (is_float is_signed : bool).

(** [IOManager::EvaluateExpression].  [parse_err] is what [yyparse]
    returns, [uvf] the datasets the factory creates for the volumes,
    [rdb1] the first raster block of the first volume and [written] the
    bricks the loop writes. *)
Definition EvaluateExpression (parse_err : Z) (uvf : list Dataset)
    (rdb1 : RasterDataBlock) (written : list LOD) : Evaluation :=
  match uvf with
  | [] => NoVolumes
  | first :: _ =>
      if parse_err =? 1 then SyntaxError
      else if existsb (fun u => negb (MergeableDatasets first u)) uvf then
        UnmergeableDatasets "Incompatible input volumes"
      else
        let rdb := new_RasterDataBlock in
        let rdb := SetBlockSemantic BS_REG_NDIM_GRID rdb in
        let rdb := SetTypeToUShort ES_RED rdb in
        let rdb := assign rdb rdb1 in
        let '(bit_width, is_float, is_signed) := IdentifyType uvf in
        let rdb := SetData written rdb in
        Evaluated rdb bit_width is_float is_signed
  end.

End Expressions.

(* ===================================================================== *)
(** * What the specification says, in its own words *)
(* ===================================================================== *)

Module Spec.

Import Stats Expressions.

(** The brick settings are consistent when a brick is larger than its
    overlap. *)
Definition brick_invariant (io : IOManager) : Prop :=
  m_iBrickOverlap io < m_iMaxBrickSize io.

(** [x] and [e] are the same extension up to letter case. *)
Definition case_variant (x e : string) : Prop :=
  ToLowerCase x = ToLowerCase e.

(** A converter supports [e] when it advertises it in some letter case. *)
Definition supports (c : AbstrConverter) (e : string) : Prop :=
  exists e', In e' (SupportedExt c) /\ case_variant e' e.

(** Three components padded to four: every triple is followed by an
    opaque alpha. *)
Fixpoint pad_RGBA (rgb : list byte) : list byte :=
  match rgb with
  | r :: g :: b :: rest => r :: g :: b :: xff :: pad_RGBA rest
  | _ => []
  end.

(** The raw file the specification expects for a stack of three
    component elements. *)
Definition padded_stack (es : list Stacks.StackElement) : list byte :=
  concat (map (fun e => pad_RGBA (Stacks.GetData e)) es).

(** The six properties merge inputs have to share. *)
Definition share (a b : VolumeMeta) : Prop :=
  iComponentSize a = iComponentSize b
  /\ iComponentCount a = iComponentCount b
  /\ bSigned a = bSigned b
  /\ bIsFloat a = bIsFloat b
  /\ bConvertEndianess a = bConvertEndianess b
  /\ vVolumeSize a = vVolumeSize b.

(** Is the input handled by the UVF branch? *)
Definition is_UVF (X : Externals) (name : string) : bool :=
  String.eqb (ToUpperCase (GetExt X name)) "UVF".

(** What the converter chain makes of a file: the first converter that
    succeeds among the identified ones, in the order the set hands them
    out, and the final converter after them. *)
Fixpoint first_success (cs : list AbstrConverter) (name : string)
    : option RAWDescription :=
  match cs with
  | [] => None
  | c :: rest =>
      match ConvertToRAW c name with
      | Some r => Some r
      | None => first_success rest name
      end
  end.

Definition conversion (io : IOManager) (X : Externals) (name : string)
    : option RAWDescription :=
  match first_success (Merging.identified io X name) name with
  | Some r => Some r
  | None =>
      match m_pFinalConverter io with
      | Some final => ConvertToRAW final name
      | None => None
      end
  end.

(** The type of an input volume, when it has one: what the dataset
    reports for a UVF file that opens, what the conversion reports for any
    other file that converts. *)
Definition input_meta (io : IOManager) (X : Externals) (name : string)
    : option VolumeMeta :=
  if is_UVF X name then
    if IsOpen (open_UVF X name) then Some (Merging.uvf_meta (open_UVF X name))
    else None
  else option_map meta (conversion io X name).

(** An input that makes it into the work list: a UVF file that opens and
    exports, or a file some registered converter accepts and the chain
    converts, in the order the set hands the accepting converters out. *)
Definition converts (io : IOManager) (X : Externals) (name : string)
    : Prop :=
  if is_UVF X name then
    IsOpen (open_UVF X name) = true
    /\ forall file, Export (open_UVF X name) 0 file = true
  else
    Merging.identified io X name <> []
    /\ conversion io X name <> None.

(** All inputs share the six properties. *)
Definition all_share (io : IOManager) (X : Externals) (names : list string)
    : Prop :=
  forall a b ma mb,
    In a names -> In b names ->
    input_meta io X a = Some ma -> input_meta io X b = Some mb ->
    share ma mb.

(** An intermediate file that stays: the conversion of an input produced
    it and did not ask for its deletion. *)
Definition kept_intermediate (io : IOManager) (X : Externals)
    (names : list string) (p : string) : Prop :=
  exists name d,
    In name names /\ conversion io X name = Some d
    /\ bDeleteIntermediateFile d = false /\ strIntermediateFile d = p.

(** The files and the work list after some turns of the input loop of
    [MergeDatasets]: a new file is in the work list, the work list only
    grows, and a new entry is either to be deleted or was produced by the
    conversion of one of the inputs handled. *)
Definition accounted (io : IOManager) (X : Externals)
    (names : list string) (st st' : Merging.MergeLoop) : Prop :=
  (forall p, p ∈ files (Merging.world st') ->
     p ∈ files (Merging.world st)
     \/ exists f, In f (Merging.vIntermediateFiles st') /\ strFilename f = p)
  /\ (forall f, In f (Merging.vIntermediateFiles st) -> In f (Merging.vIntermediateFiles st'))
  /\ (forall f, In f (Merging.vIntermediateFiles st') ->
        In f (Merging.vIntermediateFiles st) \/ bDelete f = true
        \/ kept_intermediate io X names (strFilename f)).


(** Minimum and maximum of the voxels of a brick. *)
Definition minimum (l : list Z) : option Z :=
  match l with
  | [] => None
  | v :: rest => Some (fold_left Z.min rest v)
  end.

Definition maximum (l : list Z) : option Z :=
  match l with
  | [] => None
  | v :: rest => Some (fold_left Z.max rest v)
  end.

(** A level of detail is proper when it has a brick along every axis
    and the number of its bricks is a UINT64. *)
Definition proper_level (rdb : RasterDataBlock) (LoD : nat) : Prop :=
  ValidLOD rdb LoD = true
  /\ 0 < vx (GetBrickCount rdb LoD)
  /\ 0 < vy (GetBrickCount rdb LoD)
  /\ 0 < vz (GetBrickCount rdb LoD)
  /\ vx (GetBrickCount rdb LoD) * vy (GetBrickCount rdb LoD)
       * vz (GetBrickCount rdb LoD) < 2 ^ 64.

(** The position of brick number [b] in a grid of [c] bricks: x runs
    fastest, then y. *)
Definition position (c : VECTOR3) (b : nat) : VECTOR3 :=
  vec3 (Z.of_nat b mod vx c)
       (Z.of_nat b / vx c mod vy c)
       (Z.of_nat b / (vx c * vy c)).

(** The entries of the bricks of [n] levels from level [LoD] on, computed
    at the type [T]: level by level and brick by brick. *)
Definition entries (T : VoxelType) (rdb : RasterDataBlock) (LoD n : nat)
    : list DOUBLEVECTOR4 :=
  flat_map (fun l =>
    map (fun b => get_brick_minmax T rdb l (position (GetBrickCount rdb l) b))
        (seq 0 (brick_total rdb l)))
    (seq LoD n).

(** The integer type [MaxMin] computes at, when it has one for the
    block: 8, 16 or 32 bits, signed or not. *)
Definition integer_voxels (rdb : RasterDataBlock) : option VoxelType :=
  if negb (ulElementMantissa rdb =? 0) then None
  else if ulElementBitSize rdb =? 8
  then Some (if bSignedElement rdb then I8 else U8)
  else if ulElementBitSize rdb =? 16
  then Some (if bSignedElement rdb then I16 else U16)
  else if ulElementBitSize rdb =? 32
  then Some (if bSignedElement rdb then I32 else U32)
  else None.

(** Mergeable as the specification has it: component count, brick
    overlap, number of levels and of timesteps, and for every level and
    timestep the domain size and the brick count. *)
Definition mergeable (a b : Dataset) : bool :=
  (GetComponentCount a =? GetComponentCount b)
  && vec3_eqb (GetBrickOverlapSize a) (GetBrickOverlapSize b)
  && (GetLODLevelCount a =? GetLODLevelCount b)%nat
  && (GetNumberOfTimesteps a =? GetNumberOfTimesteps b)%nat
  && forallb (fun ts =>
       forallb (fun level =>
         vec3_eqb (GetDomainSize a level ts) (GetDomainSize b level ts)
         && vec3_eqb (External.GetBrickCount a level ts)
                     (External.GetBrickCount b level ts))
         (seq 0 (GetLODLevelCount a)))
       (seq 0 (GetNumberOfTimesteps a)).

(** The widest type over the inputs: the largest bit width (0 without
    inputs), float if some input is, signed if some input is. *)
Definition widest (uvf : list Dataset) : Z * bool * bool :=
  (fold_right Z.max 0 (map GetBitWidth uvf),
   existsb GetIsFloat uvf,
   existsb GetIsSigned uvf).

End Spec.

(* ===================================================================== *)
(** * Concrete inputs *)
(* ===================================================================== *)

Module Examples.

Local Open Scope string_scope.

(** A converter that advertises its extensions in upper case, as the
    callers of [SupportedExt] in [MergeDatasets] expect them. *)
Definition nrrd_converter : AbstrConverter :=
  {| GetDesc := "Nearly Raw Raster Data";
     SupportedExt := ["NRRD"; "NHDR"];
     CanExportData := true;
     CanRead := fun _ => false;
     ConvertToRAW := fun _ => None;
     ConvertToNative := fun _ => false |}.

(** A little-endian host on which every file can be created and every
    external stage succeeds; no UVF file can be opened. *)
Definition closed_dataset : Dataset :=
  {| IsOpen := false; GetBitWidth := 0; GetComponentCount := 0;
     IsSameEndianness := true; GetIsSigned := false; GetIsFloat := false;
     GetScale := vec3 1 1 1; GetBrickOverlapSize := vec3 0 0 0;
     GetNumberOfTimesteps := 0; GetLODLevelCount := 0;
     GetDomainSize := fun _ _ => vec3 0 0 0;
     GetBrickCount := fun _ _ => vec3 0 0 0;
     Export := fun _ _ => false |}.

(** The extension of a file name: what follows its last dot. *)
Fixpoint ext_of (s : string) (after_dot : option string) : string :=
  match s with
  | EmptyString => match after_dot with Some e => e | None => "" end
  | String c rest =>
      if Ascii.eqb c "."%char then ext_of rest (Some "")
      else ext_of rest
             (match after_dot with
              | Some e => Some (e +:+ String c "")
              | None => None
              end)
  end.

Definition host : Externals :=
  {| host_IsBigEndian := false;
     BITS_IN_JSAMPLE := 8;
     GetFilename := fun s => s;
     GetExt := fun s => ext_of s None;
     can_create := fun _ => true;
     open_UVF := fun _ => closed_dataset;
     rand_string := fun _ => "42";
     ConvertRAWDataset := fun _ => true;
     DataMerger_IsOK := fun _ _ _ _ => true;
     address_order := fun cs => cs |}.

Definition empty_world : World := mkWorld ∅ [] [].

(** Stack elements: a slice of [n] voxels (1,2,3), one byte a component. *)
Definition rgb_slice (name : string) (n : nat) : Stacks.StackElement :=
  {| Stacks.m_strFileName := name;
     Stacks.GetDataSize := Z.of_nat (3 * n);
     Stacks.GetData := concat (repeat [x01; x02; x03] n);
     Stacks.JPEG := None;
     Stacks.GetComponentCount := 3 |}.

Definition rgb_stack (w h : Z) (es : list Stacks.StackElement)
    (tag : string) : Stacks.FileStackInfo :=
  {| Stacks.m_strFileType := tag;
     Stacks.m_strDesc := "RGB";
     Stacks.m_Elements := es;
     Stacks.m_ivSize := vec3 w h 1;
     Stacks.m_fvfAspect := vec3 1 1 1;
     Stacks.m_iAllocated := 8;
     Stacks.m_iStored := 8;
     Stacks.m_iComponentCount := 3;
     Stacks.m_bIsBigEndian := false;
     Stacks.m_bIsJPEGEncoded := false |}.

Definition rgb_stack_4x4x1 : Stacks.FileStackInfo :=
  rgb_stack 4 4 [rgb_slice "0001.dcm" 16] "DICOM".

Definition rgb_stack_1x1x2 : Stacks.FileStackInfo :=
  rgb_stack 1 1 [rgb_slice "0001.dcm" 1; rgb_slice "0002.dcm" 1] "DICOM".

Definition image_stack : Stacks.FileStackInfo :=
  rgb_stack 2 2 [rgb_slice "a.png" 4; rgb_slice "b.png" 4] "IMAGE".

(** A raster block of unsigned bytes with one level of one brick. *)
Definition u8_block (brick : list Z) : Stats.RasterDataBlock :=
  {| Stats.ulBlockSemantics := Stats.BS_REG_NDIM_GRID;
     Stats.ulElementSemantic := Stats.ES_RED;
     Stats.ulElementDimensionSize := 1;
     Stats.ulElementBitSize := 8;
     Stats.ulElementMantissa := 0;
     Stats.bSignedElement := false;
     Stats.ulDomainSize := vec3 2 2 1;
     Stats.lods := [Stats.mkLOD (vec3 1 1 1) (fun _ _ _ => brick)] |}.

(** Two levels, the finer one of 2 x 2 x 1 bricks. *)
Definition u8_pyramid : Stats.RasterDataBlock :=
  {| Stats.ulBlockSemantics := Stats.BS_REG_NDIM_GRID;
     Stats.ulElementSemantic := Stats.ES_RED;
     Stats.ulElementDimensionSize := 1;
     Stats.ulElementBitSize := 8;
     Stats.ulElementMantissa := 0;
     Stats.bSignedElement := false;
     Stats.ulDomainSize := vec3 4 4 1;
     Stats.lods :=
       [Stats.mkLOD (vec3 2 2 1) (fun x y _ => [x + 1; y + 1; 9]);
        Stats.mkLOD (vec3 1 1 1) (fun _ _ _ => [4; 7])] |}.

(** The first raster block of a volume of unsigned bytes with two levels
    of one brick each. *)
Definition volume_a_block : Stats.RasterDataBlock :=
  {| Stats.ulBlockSemantics := Stats.BS_REG_NDIM_GRID;
     Stats.ulElementSemantic := Stats.ES_RED;
     Stats.ulElementDimensionSize := 1;
     Stats.ulElementBitSize := 8;
     Stats.ulElementMantissa := 0;
     Stats.bSignedElement := false;
     Stats.ulDomainSize := vec3 4 4 4;
     Stats.lods :=
       [Stats.mkLOD (vec3 1 1 1) (fun _ _ _ => [10; 20; 30; 40]);
        Stats.mkLOD (vec3 1 1 1) (fun _ _ _ => [25])] |}.

(** UVF datasets of one component and one timestep with two levels:
    [domain1] is the domain size of the coarser level. *)
Definition two_level_volume (bits : Z) (is_signed is_float : bool)
    (domain1 : VECTOR3) : Dataset :=
  {| IsOpen := true; GetBitWidth := bits; GetComponentCount := 1;
     IsSameEndianness := true; GetIsSigned := is_signed;
     GetIsFloat := is_float;
     GetScale := vec3 1 1 1; GetBrickOverlapSize := vec3 2 2 2;
     GetNumberOfTimesteps := 1; GetLODLevelCount := 2;
     GetDomainSize := fun lod _ =>
       match lod with O => vec3 4 4 4 | _ => domain1 end;
     GetBrickCount := fun _ _ => vec3 1 1 1;
     Export := fun _ _ => true |}.

Definition volume_a : Dataset :=
  two_level_volume 8 false false (vec3 2 2 2).
Definition volume_b : Dataset :=
  two_level_volume 8 false false (vec3 2 2 1).
Definition volume_f : Dataset :=
  two_level_volume 32 true true (vec3 2 2 2).

(** A converter for flat data files that keeps a table of what it can
    convert: a.dat holds bytes, c.dat 16 bit values, f.dat data marked
    float and unsigned; b.dat it accepts and fails on. *)
Definition flat_meta (bits : Z) (is_float : bool) : VolumeMeta :=
  {| iComponentSize := bits; iComponentCount := 1;
     bConvertEndianess := false; bSigned := false; bIsFloat := is_float;
     vVolumeSize := vec3 2 2 2; vVolumeAspect := vec3 1 1 1 |}.

Definition flat_converter : AbstrConverter :=
  {| GetDesc := "Flat data";
     SupportedExt := ["DAT"];
     CanExportData := true;
     CanRead := fun _ => true;
     ConvertToRAW := fun name =>
       if String.eqb name "a.dat" then
         Some (mkRAW 0 (flat_meta 8 false) "/tmp/a.dat.raw" true)
       else if String.eqb name "c.dat" then
         Some (mkRAW 0 (flat_meta 16 false) "/tmp/c.dat.raw" true)
       else if String.eqb name "f.dat" then
         Some (mkRAW 0 (flat_meta 32 true) "/tmp/f.dat.raw" true)
       else None;
     ConvertToNative := fun _ => true |}.

Definition flat_manager : IOManager := IOManager_new [flat_converter] 256 4.

(** A second converter for flat data files, which takes a.dat for 16 bit
    values, a registry with both, and a host on which the second one has
    the lower address. *)
Definition wide_converter : AbstrConverter :=
  {| GetDesc := "Flat data, 16 bit";
     SupportedExt := ["DAT"];
     CanExportData := false;
     CanRead := fun _ => true;
     ConvertToRAW := fun name =>
       if String.eqb name "a.dat" then
         Some (mkRAW 0 (flat_meta 16 false) "/tmp/a.dat.wide.raw" true)
       else None;
     ConvertToNative := fun _ => false |}.

Definition two_readers : IOManager :=
  IOManager_new [flat_converter; wide_converter] 256 4.

(** A host that has three UVF files: a.uvf and c.uvf open and export,
    c.uvf with another domain size; b.uvf opens, agrees with a.uvf and
    fails to export. *)
Definition uvf_file (domain : VECTOR3) (exports : bool) : Dataset :=
  {| IsOpen := true; GetBitWidth := 8; GetComponentCount := 1;
     IsSameEndianness := true; GetIsSigned := false; GetIsFloat := false;
     GetScale := vec3 1 1 1; GetBrickOverlapSize := vec3 2 2 2;
     GetNumberOfTimesteps := 1; GetLODLevelCount := 1;
     GetDomainSize := fun _ _ => domain;
     GetBrickCount := fun _ _ => vec3 1 1 1;
     Export := fun _ _ => exports |}.

Definition uvf_host : Externals :=
  {| host_IsBigEndian := false;
     BITS_IN_JSAMPLE := 8;
     GetFilename := fun s => s;
     GetExt := fun s => ext_of s None;
     can_create := fun _ => true;
     open_UVF := fun name =>
       if String.eqb name "a.uvf" then uvf_file (vec3 4 4 4) true
       else if String.eqb name "b.uvf" then uvf_file (vec3 4 4 4) false
       else if String.eqb name "c.uvf" then uvf_file (vec3 8 8 8) true
       else closed_dataset;
     rand_string := fun _ => "42";
     ConvertRAWDataset := fun _ => true;
     DataMerger_IsOK := fun _ _ _ _ => true;
     address_order := fun cs => cs |}.

Definition reversed_host : Externals :=
  {| host_IsBigEndian := host_IsBigEndian host;
     BITS_IN_JSAMPLE := BITS_IN_JSAMPLE host;
     GetFilename := GetFilename host;
     GetExt := GetExt host;
     can_create := can_create host;
     open_UVF := open_UVF host;
     rand_string := rand_string host;
     ConvertRAWDataset := ConvertRAWDataset host;
     DataMerger_IsOK := DataMerger_IsOK host;
     address_order := @rev AbstrConverter |}.

End Examples.

(* ===================================================================== *)
(** * Scanning a directory for stacks *)
(* ===================================================================== *)

Module Scanning.

Import Stacks.

(** The warning "Can't load JPEG in stack %u, element %u!": the two
    numbers, as the casts to unsigned leave them. *)
Inductive ScanWarning :=
| CantLoadJPEG (stack element : Z).

(** The loop over the elements of a JPEG-encoded stack, from element [i]:
    the index of the first element whose embedded image is not valid. *)
Fixpoint invalid_element (es : list StackElement) (i : Z) : option Z :=
  match es with
  | [] => None
  | e :: rest =>
      match JPEG e with
      | None => Some i
      | Some _ => invalid_element rest (UINT64_wrap (i + 1))
      end
  end.

(** [m_FileStacks.erase(m_FileStacks.begin() + stack)]. *)
Definition erase {A} (stack : nat) (v : list A) : list A :=
  (firstn stack v ++ skipn (S stack) v)%list.

(** The loop that sorts out the DICOM stacks with images that cannot be
    read.  [stack] is the loop index, a size_t: after an erase it is
    decremented, which wraps at zero, and the increment of the loop
    follows.  Every turn costs one unit of [fuel]; [None] when it runs
    out. *)
Fixpoint sort_out (fuel : nat) (stack : Z)
    (m_FileStacks : list FileStackInfo) (warnings : list ScanWarning)
    : option (list FileStackInfo * list ScanWarning) :=
  if stack <? Z.of_nat (length m_FileStacks) then
    match fuel with
    | O => None
    | S fuel =>
        match nth_error m_FileStacks (Z.to_nat stack) with
        | None => None
        | Some f =>
            match
              (if m_bIsJPEGEncoded f
               then invalid_element (m_Elements f) 0 else None)
            with
            | Some i =>
                sort_out fuel (UINT64_wrap (UINT64_wrap (stack - 1) + 1))
                  (erase (Z.to_nat stack) m_FileStacks)
                  (warnings ++ [CantLoadJPEG (UINT32_wrap stack)
                                             (UINT32_wrap i)])
            | None =>
                sort_out fuel (UINT64_wrap (stack + 1)) m_FileStacks warnings
            end
        end
    end
  else Some (m_FileStacks, warnings).

(** The description a stack is handed out with. *)
Definition described (f : FileStackInfo) : FileStackInfo :=
  {| m_strFileType := m_strFileType f;
     m_strDesc := (m_strFileType f +:+ " Stack: " +:+ m_strDesc f)%string;
     m_Elements := m_Elements f;
     m_ivSize := m_ivSize f;
     m_fvfAspect := m_fvfAspect f;
     m_iAllocated := m_iAllocated f;
     m_iStored := m_iStored f;
     m_iComponentCount := m_iComponentCount f;
     m_bIsBigEndian := m_bIsBigEndian f;
     m_bIsJPEGEncoded := m_bIsJPEGEncoded f |}.

(** [IOManager::ScanDirectory].  The two parsers are outside the sources:
    [parseDICOM] and [parseImages] are the stacks their [GetDirInfo]
    finds in a directory.  The sorting loop is given as many turns as
    there are DICOM stacks. *)
Definition ScanDirectory
    (parseDICOM parseImages : string -> list FileStackInfo)
    (strDirectory : string)
    : option (list FileStackInfo * list ScanWarning) :=
  let dicom := parseDICOM strDirectory in
  match sort_out (length dicom) 0 dicom [] with
  | None => None
  | Some (m_FileStacks, warnings) =>
      let fileStacks := map described m_FileStacks in
      let fileStacks :=
        fileStacks ++ map described (parseImages strDirectory) in
      Some (fileStacks, warnings)
  end.

End Scanning.

(* ===================================================================== *)
(** * Converting and exporting single datasets *)
(* ===================================================================== *)

Module Converting.

Import Merging.

Local Open Scope string_scope.

Section ConvertToUVF.

(** [AbstrConverter::ConvertToUVF], a method the record of a converter
    does not carry: the flag it returns for the files and the target. *)
Variable ConvertToUVF : AbstrConverter -> list string -> string -> bool.

(** The std::set of pointers that [identify_converters] returns is gone
    through in the order of the addresses: [set_order] is that order for
    the converters that were inserted. *)
Variable set_order : list AbstrConverter -> list AbstrConverter.

(** The loop over the identified converters when the target is a UVF
    file; a conversion that succeeds leaves the target. *)
Fixpoint to_UVF (converters : list AbstrConverter) (files : list string)
    (strTargetFilename : string) (w : World) : bool * World :=
  match converters with
  | [] => (false, w)
  | conv :: rest =>
      if ConvertToUVF conv files strTargetFilename
      then (true, create strTargetFilename w)
      else to_UVF rest files strTargetFilename
             (say (WARNING ("Converter " +:+ GetDesc conv +:+
                     " can read files, but conversion failed!")) w)
  end.

(** The two loops that look for a converter of the target: the
    extensions of one converter, then the registry.  The advertised
    extension is compared as it stands. *)
Fixpoint to_native_by (c : AbstrConverter) (exts : list string)
    (strExtTarget strIntermediateFile strTargetFilename : string) (w : World)
    : bool * World :=
  match exts with
  | [] => (false, w)
  | e :: rest =>
      if String.eqb e strExtTarget then
        let w1 := start (StageToNative (GetDesc c) strIntermediateFile
                                       strTargetFilename) w in
        if ConvertToNative c strTargetFilename
        then (true, create strTargetFilename w1)
        else to_native_by c rest strExtTarget strIntermediateFile
               strTargetFilename w1
      else to_native_by c rest strExtTarget strIntermediateFile
             strTargetFilename w
  end.

Fixpoint to_native (cs : list AbstrConverter)
    (strExtTarget strIntermediateFile strTargetFilename : string) (w : World)
    : bool * World :=
  match cs with
  | [] => (false, w)
  | c :: rest =>
      match to_native_by c (SupportedExt c) strExtTarget strIntermediateFile
              strTargetFilename w with
      | (true, w') => (true, w')
      | (false, w') =>
          to_native rest strExtTarget strIntermediateFile strTargetFilename
            w'
      end
  end.

(** [strIntermediateFile] and [bDeleteIntermediateFile] as the
    out-parameters leave them; the empty string and [false], their
    initial values, when no call succeeded. *)
Definition out_file (out : option RAWDescription) : string :=
  match out with
  | Some r => strIntermediateFile r
  | None => ""
  end.

Definition out_delete (out : option RAWDescription) : bool :=
  match out with
  | Some r => bDeleteIntermediateFile r
  | None => false
  end.

(** The raw form of the source of an export to a format other than UVF:
    [inl] is an early [return false], [inr] carries [bRAWCreated] and the
    out-parameters. *)
Definition to_RAW (io : IOManager) (X : Externals)
    (strFilename strTempDir : string) (w : World)
    : World + (bool * option RAWDescription * World) :=
  if String.eqb (ToUpperCase (GetExt X strFilename)) "UVF" then
    let v := open_UVF X strFilename in
    if negb (IsOpen v) then inl w
    else
      let strSource := GetFilename X strFilename in
      let strIntermediateFile := strTempDir +:+ strSource +:+ ".raw" in
      if negb (Export v 0 strIntermediateFile) then
        (* a failed export may have left a part of the file *)
        let w := create strIntermediateFile w in
        inl (if FileExists strIntermediateFile w
             then remove strIntermediateFile w else w)
      else
        inr (true, Some (mkRAW 0 (uvf_meta v) strIntermediateFile true),
             create strIntermediateFile w)
  else
    let converters :=
      set_order (identify_converters strFilename (m_vpConverters io)) in
    let (flag, out) := try_converters converters strFilename false None in
    let (flag, out) :=
      match m_pFinalConverter io with
      | Some final =>
          if negb flag then
            match ConvertToRAW final strFilename with
            | Some r => (true, Some r)
            | None => (false, out)
            end
          else (flag, out)
      | None => (flag, out)
      end in
    inr (flag, out, out_created out w).

(** [IOManager::ConvertDataset] on a list of files: the flag it returns
    and the world after.  [None] is the assertion on the brick size, when
    it fails. *)
Definition ConvertDataset (io : IOManager) (X : Externals)
    (files : list string) (strTargetFilename strTempDir : string)
    (iMaxBrickSize : Z) (w : World) : option (bool * World) :=
  match files with
  | [] => Some (false, say (T_ERROR "No files to convert?!") w)
  | first :: others =>
      if (iMaxBrickSize <? 32)%Z then None
      else
        let strExtTarget := ToUpperCase (GetExt X strTargetFilename) in
        if String.eqb strExtTarget "UVF" then
          match to_UVF
                  (set_order
                     (identify_converters first (m_vpConverters io)))
                  files strTargetFilename w with
          | (true, w) => Some (true, w)
          | (false, w) =>
              match m_pFinalConverter io with
              | Some final =>
                  if ConvertToUVF final files strTargetFilename
                  then Some (true, create strTargetFilename w)
                  else Some (false, w)
              | None => Some (false, w)
              end
          end
        else
          match others with
          | _ :: _ =>
              Some (false,
                    say (T_ERROR
                      "Cannot convert multiple files to anything but UVF.")
                      w)
          | [] =>
              match to_RAW io X first strTempDir w with
              | inl w => Some (false, w)
              | inr (bRAWCreated, out, w) =>
                  if negb bRAWCreated then Some (false, w)
                  else
                    let (bTargetCreated, w) :=
                      to_native (m_vpConverters io) strExtTarget
                        (out_file out) strTargetFilename w in
                    let w := if out_delete out
                             then remove (out_file out) w else w in
                    Some (bTargetCreated, w)
              end
          end
  end.

End ConvertToUVF.

(** The loops of [ExportDataset] that look for the exporter: the
    extensions of one converter, then the registry. *)
Fixpoint advertises (exts : list string) (strExt : string) : bool :=
  match exts with
  | [] => false
  | e :: rest => if String.eqb e strExt then true else advertises rest strExt
  end.

Fixpoint exporter_for (cs : list AbstrConverter) (strExt : string)
    : option AbstrConverter :=
  match cs with
  | [] => None
  | c :: rest =>
      if advertises (SupportedExt c) strExt then Some c
      else exporter_for rest strExt
  end.

(** [IOManager::ExportDataset]. *)
Definition ExportDataset (io : IOManager) (X : Externals)
    (pSourceData : Dataset) (iLODlevel : nat)
    (strTargetFilename strTempDir : string) (w : World) : bool * World :=
  let strExt := ToUpperCase (GetExt X strTargetFilename) in
  match exporter_for (m_vpConverters io) strExt with
  | None =>
      (false, say (T_ERROR ("Unknown file extension " +:+ strExt +:+ "."))
                  w)
  | Some pExporter =>
      let strTempFilename :=
        strTempDir +:+ GetFilename X strTargetFilename +:+ ".tmp_raw" in
      if negb (Export pSourceData iLODlevel strTempFilename) then
        (* a failed export may have left a part of the file *)
        (false,
         say (T_ERROR ("Unable to write temp file " +:+ strTempFilename))
             (create strTempFilename w))
      else
        let w := create strTempFilename w in
        let w := start (StageToNative (GetDesc pExporter) strTempFilename
                                      strTargetFilename) w in
        let bTargetCreated := ConvertToNative pExporter strTargetFilename in
        let w := if bTargetCreated then create strTargetFilename w else w in
        let w := remove strTempFilename w in
        if negb bTargetCreated then
          (false,
           say (T_ERROR ("Unable to write target file "
                         +:+ strTargetFilename)) w)
        else (true, w)
  end.

End Converting.

(* ===================================================================== *)
(** * Reading and evaluating bricks *)
(* ===================================================================== *)

Module Evaluating.

Import Stats.

(** [sizeof(T) * 8], [ctti<T>::is_signed] and
    [is_floating_point<T>::value]; the floating point types count as
    signed, which is what the second assertion of [TypedRead] asks of
    them. *)
Definition dest_width (T : VoxelType) : Z :=
  match T with
  | I8 | U8 => 8
  | I16 | U16 => 16
  | I32 | U32 | F32 => 32
  | F64 => 64
  end.

Definition dest_signed (T : VoxelType) : bool :=
  match T with
  | U8 | U16 | U32 => false
  | _ => true
  end.

Definition dest_float (T : VoxelType) : bool :=
  match T with
  | F32 | F64 => true
  | _ => false
  end.

(** The way [TypedRead<T>] takes: an assertion fails; the brick is read
    as it is stored; it is read at the type [Src] and interpolated into
    [T], the vector [data] being resized to [resized] values and
    [interpolate] writing [written] values from its start on; or the
    stored type is reported as unhandled.  What [interpolate] computes is
    not modelled. *)
Inductive ReadPath :=
| AssertionFails
| Direct
| Interpolated (Src : VoxelType) (resized written : nat)
| Unhandled.

(** [TypedRead<T>] on a dataset whose brick holds [n] values, which is
    [tmpdata.size()] after [GetBrick]: [data] is resized to
    [tmpdata.size() / (width/8)] and [interpolate] runs over all of
    [tmpdata]. *)
Definition TypedRead (T : VoxelType) (ds : Dataset) (n : nat) : ReadPath :=
  let width := GetBitWidth ds in
  let is_signed := GetIsSigned ds in
  let is_float := GetIsFloat ds in
  let expand (Src : VoxelType) : ReadPath :=
    Interpolated Src (n / Z.to_nat (width / 8)) n in
  if negb (if is_float then is_signed else true) then AssertionFails
  else if negb (if dest_float T then dest_signed T else true)
  then AssertionFails
  else if (dest_width T =? width) && Bool.eqb (dest_signed T) is_signed
          && Bool.eqb (dest_float T) is_float then Direct
  else if is_float && (width =? 32) then expand F32
  else if is_float && (width =? 64) then expand F64
  else if is_signed && (8 =? width) then expand I8
  else if negb is_signed && (8 =? width) then expand U8
  else if is_signed && (16 =? width) then expand I16
  else if negb is_signed && (16 =? width) then expand U16
  else if is_signed && (32 =? width) then expand I32
  else if negb is_signed && (32 =? width) then expand U32
  else Unhandled.

(** One turn of the inner loop of [EvaluateExpression] over the volumes:
    a brick is read and evaluated at a type, [ReadAndEvalBrick<T>] running
    [TypedRead<T>] on every volume, or an error is reported. *)
Inductive BrickStep :=
| ReadAndEvalBrick (T : VoxelType)
| Report (text : string).

Definition brick_step (bit_width : Z) (is_float is_signed : bool)
    : BrickStep :=
  if is_float && (bit_width =? 32) then ReadAndEvalBrick F32
  else if is_float && (bit_width =? 64)
  then Report "double format data not supported!"
  else if is_signed && (bit_width =? 8) then ReadAndEvalBrick I8
  else if negb is_signed && (bit_width =? 8) then ReadAndEvalBrick U8
  else if is_signed && (bit_width =? 16) then ReadAndEvalBrick I16
  else if negb is_signed && (bit_width =? 16) then ReadAndEvalBrick U16
  else if is_signed && (bit_width =? 32)
  then Report "32bit signed int data not implemented!"
  else if negb is_signed && (bit_width =? 32)
  then Report "32bit unsigned data not implemented!"
  else if is_signed && (bit_width =? 64)
  then Report "64bit signed int data not implemented!"
  else if negb is_signed && (bit_width =? 64)
  then Report "64bit unsigned data not implemented!"
  else Report "Could not figure out destination data type!".


End Evaluating.

(* ===================================================================== *)
(** * Geometry: meshes and isosurfaces *)
(* ===================================================================== *)

Module Geometry.

(** The scalar types [MCDataTemplate] is instantiated at. *)
Inductive MCType :=
| MC_float | MC_double
| MC_char | MC_short | MC_int | MC_int64_t
| MC_unsigned_char | MC_unsigned_short | MC_UINT32 | MC_UINT64.

Section Meshes.

(** The class Mesh is outside the sources and only handed on. *)
Variable Mesh : Type.

(** A geometry converter, by the methods the facade calls;
    [ConvertToNative] is the flag it returns for a mesh and a target. *)
Record AbstrGeoConverter := mkGeoConverter {
  GetDesc : string;
  SupportedExt : list string;
  CanExportData : bool;
  ConvertToNative : Mesh -> string -> bool
}.

(** [IOManager::GetGeoConverterForExt], over [m_vpGeoConverters]. *)
Fixpoint GetGeoConverterForExt (m_vpGeoConverters : list AbstrGeoConverter)
    (ext : string) (bMustSupportExport : bool) : option AbstrGeoConverter :=
  match m_vpGeoConverters with
  | [] => None
  | c :: rest =>
      if negb bMustSupportExport || CanExportData c then
        if ext_listed ext (SupportedExt c) then Some c
        else GetGeoConverterForExt rest ext bMustSupportExport
      else GetGeoConverterForExt rest ext bMustSupportExport
  end.

(** [IOManager::ExportMesh]; a conversion that succeeds leaves the
    target. *)
Definition ExportMesh (m_vpGeoConverters : list AbstrGeoConverter)
    (X : Externals) (mesh : Mesh) (strTargetFilename : string) (w : World)
    : bool * World :=
  match GetGeoConverterForExt m_vpGeoConverters
          (ToLowerCase (GetExt X strTargetFilename)) true with
  | None => (false, say (T_ERROR "Unknown Mesh Format.") w)
  | Some conv =>
      if ConvertToNative conv mesh strTargetFilename
      then (true, create strTargetFilename w)
      else (false, w)
  end.

(** The switch of [ExtractIsosurface] that constructs [pMCData]; [None]
    is the pointer left at NULL. *)
Definition MCData_type (bFloatingPoint bSigned : bool) (iComponentSize : Z)
    : option MCType :=
  if bFloatingPoint then
    if bSigned then
      if iComponentSize =? 32 then Some MC_float
      else if iComponentSize =? 64 then Some MC_double
      else None
    else None
  else
    if bSigned then
      if iComponentSize =? 8 then Some MC_char
      else if iComponentSize =? 16 then Some MC_short
      else if iComponentSize =? 32 then Some MC_int
      else if iComponentSize =? 64 then Some MC_int64_t
      else None
    else
      if iComponentSize =? 8 then Some MC_unsigned_char
      else if iComponentSize =? 16 then Some MC_unsigned_short
      else if iComponentSize =? 32 then Some MC_UINT32
      else if iComponentSize =? 64 then Some MC_UINT64
      else None.

(** [IOManager::ExtractIsosurface].  The export of the source through the
    marching cubes of [pMCData] and the destructor of [pMCData] are
    outside the sources: [Export_MC] is the flag the export returns for
    the level, the temp file, the type and the converter, and what it does
    to the world; [delete_pMCData] is what the destructor does to it. *)
Definition ExtractIsosurface (m_vpGeoConverters : list AbstrGeoConverter)
    (X : Externals)
    (Export_MC : nat -> string -> MCType -> AbstrGeoConverter ->
                 World -> bool * World)
    (delete_pMCData : MCType -> World -> World)
    (pSourceData : Dataset) (iLODlevel : nat)
    (strTargetFilename strTempDir : string) (w : World) : bool * World :=
  if negb (External.GetComponentCount pSourceData =? 1) then
    (false,
     say (T_ERROR "Isosurface extraction only supported for scalar volumes.")
         w)
  else
    let strTempFilename :=
      (strTempDir +:+ GetFilename X strTargetFilename +:+ ".tmp_raw")%string
    in
    match GetGeoConverterForExt m_vpGeoConverters
            (ToLowerCase (GetExt X strTargetFilename)) true with
    | None => (false, say (T_ERROR "Unknown Mesh Format.") w)
    | Some conv =>
        match MCData_type (GetIsFloat pSourceData) (GetIsSigned pSourceData)
                (GetBitWidth pSourceData) with
        | None => (false, say (T_ERROR "Unsupported data format.") w)
        | Some T =>
            let (bResult, w) :=
              Export_MC iLODlevel strTempFilename T conv w in
            let w := if FileExists strTempFilename w
                     then remove strTempFilename w else w in
            let w := delete_pMCData T w in
            if bResult then (true, w)
            else (false,
                  say (T_ERROR "Export call failed.")
                      (remove strTargetFilename w))
        end
    end.

End Meshes.

Arguments GetDesc {Mesh} _.
Arguments SupportedExt {Mesh} _.
Arguments CanExportData {Mesh} _.
Arguments ConvertToNative {Mesh} _ _ _.
Arguments GetGeoConverterForExt {Mesh} _ _ _.
Arguments ExportMesh {Mesh} _ _ _ _ _.
Arguments ExtractIsosurface {Mesh} _ _ _ _ _ _ _ _ _.

End Geometry.

(* ===================================================================== *)
(** * Further notions used in the statements below *)
(* ===================================================================== *)

Module Notions.

Import Stats Spec.

(** The number of bricks of a raster block, all levels together. *)
Definition brick_count (rdb : RasterDataBlock) : nat :=
  list_sum (map (brick_total rdb) (seq 0 (length (lods rdb)))).

(** The entry [MaxMin] pushes for a type it does not support. *)
Definition widest_interval : DOUBLEVECTOR4 :=
  vec4 (- DBL_MAX) DBL_MAX (- DBL_MAX) DBL_MAX.

(** The 1D index of the brick at a 3D position: x runs fastest. *)
Definition linear_index (c b : VECTOR3) : Z :=
  vx b + vx c * (vy b + vy c * vz b).

(** A converter that [GetConverterForExt] may return for [ext]: it passes
    the export filter and advertises [ext] in some letter case. *)
Definition eligible (ext : string) (bMustSupportExport : bool)
    (c : AbstrConverter) : Prop :=
  (bMustSupportExport = true -> CanExportData c = true)
  /\ exists e, In e (SupportedExt c) /\ ext = ToLowerCase e.

(** A payload with the bytes of its values reversed, as far as whole
    values go: the values are pairs of bytes when 16 bits are allocated
    and groups of four when 32 bits are; for every other bit width the
    payload is left as it is. *)
Definition swapped (allocated : Z) (v : list byte) : list byte :=
  if allocated =? 16 then
    (Stacks.swap2 (firstn (2 * (length v / 2)) v)
       ++ skipn (2 * (length v / 2)) v)%list
  else if allocated =? 32 then
    (Stacks.swap4 (firstn (4 * (length v / 4)) v)
       ++ skipn (4 * (length v / 4)) v)%list
  else v.

(** What the DICOM branch writes for an element it passes through: the
    payload, [swapped] when the stack and the host differ in their byte
    order. *)
Definition stored (X : Externals) (pStack : Stacks.FileStackInfo)
    (e : Stacks.StackElement) : list byte :=
  if negb (Bool.eqb (Stacks.m_bIsBigEndian pStack) (host_IsBigEndian X))
  then swapped (Stacks.m_iAllocated pStack) (Stacks.GetData e)
  else Stacks.GetData e.

(** An element the loop of the DICOM branch handles within its buffers.
    The size the element reports is read as a UINT32.  The image of a
    JPEG-encoded element is not longer than that size; the payload of any
    other element is not shorter; and for an element that is padded to
    four components ([rgb]), four thirds of the size stay below 2^32. *)
Definition fits (bIsJPEGEncoded rgb : bool) (e : Stacks.StackElement)
    : bool :=
  let iDataSize := Z.to_nat (UINT32_wrap (Stacks.GetDataSize e)) in
  (if bIsJPEGEncoded then
     match Stacks.JPEG e with
     | Some jpeg_data => (length jpeg_data <=? iDataSize)%nat
     | None => true
     end
   else (iDataSize <=? length (Stacks.GetData e))%nat)
  && (negb rgb || (Z.of_nat (iDataSize / 3) * 4 <? 2 ^ 32)).

(** The size an element reports is the size of its payload, and fits the
    UINT32 the loop keeps it in. *)
Definition sized (e : Stacks.StackElement) : Prop :=
  Stacks.GetDataSize e = Z.of_nat (length (Stacks.GetData e))
  /\ Z.of_nat (length (Stacks.GetData e)) < 2 ^ 32.

(** A stack the scan can load: not JPEG-encoded, or with a valid image
    in every element. *)
Definition loadable (f : Stacks.FileStackInfo) : bool :=
  negb (Stacks.m_bIsJPEGEncoded f)
  || forallb (fun e => bool_decide (Stacks.JPEG e <> None))
             (Stacks.m_Elements f).

(** The elements in front of the first one without a valid image. *)
Fixpoint valid_prefix (es : list Stacks.StackElement) : nat :=
  match es with
  | [] => O
  | e :: rest =>
      match Stacks.JPEG e with
      | None => O
      | Some _ => S (valid_prefix rest)
      end
  end.

(** A vector whose size a size_t can hold. *)
Definition fits_size_t {A} (v : list A) : Prop :=
  Z.of_nat (length v) < 2 ^ 64.

(** The warnings of a scan: a stack that cannot be loaded is reported
    under the number of stacks kept in front of it, with the number of
    its first element without a valid image. *)
Fixpoint reported (kept : nat) (stacks : list Stacks.FileStackInfo)
    : list Scanning.ScanWarning :=
  match stacks with
  | [] => []
  | f :: rest =>
      if loadable f then reported (S kept) rest
      else Scanning.CantLoadJPEG
             (UINT32_wrap (Z.of_nat kept))
             (UINT32_wrap (Z.of_nat (valid_prefix (Stacks.m_Elements f))))
           :: reported kept rest
  end.

(** The entries of a list in front of the first one that passes. *)
Fixpoint in_vain {A} (p : A -> bool) (l : list A) : list A :=
  match l with
  | [] => []
  | x :: rest => if p x then [] else x :: in_vain p rest
  end.

(** What the converter chain can make of a file: the out-parameters of
    a converter that can read the file, or of the final converter. *)
Definition chain_result (io : IOManager) (strFilename : string)
    (d : RAWDescription) : Prop :=
  (exists c, In c (identify_converters strFilename (m_vpConverters io))
             /\ ConvertToRAW c strFilename = Some d)
  \/ (exists final, m_pFinalConverter io = Some final
                    /\ ConvertToRAW final strFilename = Some d).

(** The set holds the converters that were inserted. *)
Definition keeps_elements
    (set_order : list AbstrConverter -> list AbstrConverter) : Prop :=
  forall l c, In c (set_order l) <-> In c l.

(** The source of an export can be brought into raw form: a UVF file
    that opens and exports its finest level to the intermediate file, or
    a file that a converter that can read it, or the final converter,
    converts. *)
Definition raw_available (io : IOManager) (X : Externals)
    (strFilename strTempDir : string) : Prop :=
  if is_UVF X strFilename then
    IsOpen (open_UVF X strFilename) = true
    /\ Export (open_UVF X strFilename) 0
         (strTempDir +:+ GetFilename X strFilename +:+ ".raw")%string = true
  else exists d, chain_result io strFilename d.

(** A converter that writes the target: it advertises the extension as
    it stands and its [ConvertToNative] succeeds. *)
Definition writes (strExt strTargetFilename : string) (c : AbstrConverter)
    : Prop :=
  In strExt (SupportedExt c) /\ ConvertToNative c strTargetFilename = true.

(** Every converter of the registry advertises its extensions in upper
    case. *)
Definition upper_case_registry (cs : list AbstrConverter) : bool :=
  forallb (fun c =>
    forallb (fun e => String.eqb (ToUpperCase e) e) (SupportedExt c)) cs.

(** A stage that turns the merged file into the target. *)
Definition target_stage (strMergedFile strTargetFilename : string)
    (s : Stage) : Prop :=
  s = StageRAWToUVF strMergedFile strTargetFilename
  \/ exists converter,
       s = StageToNative converter strMergedFile strTargetFilename.

(** A dataset whose stored type is one the file formats have: 8, 16, 32
    or 64 bits wide, and signed with 32 or 64 bits when it is floating
    point. *)
Definition stored_type_ok (u : Dataset) : bool :=
  ((GetBitWidth u =? 8) || (GetBitWidth u =? 16)
   || (GetBitWidth u =? 32) || (GetBitWidth u =? 64))
  && (negb (GetIsFloat u)
      || (GetIsSigned u
          && ((GetBitWidth u =? 32) || (GetBitWidth u =? 64)))).




(** A geometry converter the mesh export may use for a target with the
    extension [ext]: it can export and advertises [ext] in some letter
    case. *)
Definition exports_mesh {Mesh} (ext : string)
    (c : Geometry.AbstrGeoConverter Mesh) : Prop :=
  Geometry.CanExportData c = true
  /\ exists e, In e (Geometry.SupportedExt c) /\ case_variant ext e.

End Notions.

(* ===================================================================== *)
(** * Formats: the format lists and the export dialog string *)
(* ===================================================================== *)

Module Formats.

Local Open Scope string_scope.

(** [IOManager::GetFormatList]: extension, description, export flag. *)
Definition GetFormatList (io : IOManager) : list (string * string * bool) :=
  ("UVF", "Universal Volume Format", true)
  :: flat_map (fun c =>
       map (fun e => (ToLowerCase e, GetDesc c, CanExportData c))
           (SupportedExt c))
       (m_vpConverters io).

(** [IOManager::GetImportFormatList]. *)
Definition GetImportFormatList (io : IOManager) : list (string * string) :=
  ("UVF", "Universal Volume Format")
  :: flat_map (fun c =>
       map (fun e => (ToLowerCase e, GetDesc c)) (SupportedExt c))
       (m_vpConverters io).

(** [IOManager::GetExportFormatList]: the test of the export flag sits
    inside the loop over the extensions. *)
Definition GetExportFormatList (io : IOManager) : list (string * string) :=
  ("UVF", "Universal Volume Format")
  :: flat_map (fun c =>
       flat_map (fun e =>
         if CanExportData c then [(ToLowerCase e, GetDesc c)] else [])
         (SupportedExt c))
       (m_vpConverters io).

(** [IOManager::GetExportDialogString]: the string grows by one entry
    for every extension of a converter that can export. *)
Definition GetExportDialogString (io : IOManager) : string :=
  fold_left (fun strDialog c =>
    fold_left (fun strDialog e =>
      if CanExportData c then
        strDialog +:+ (GetDesc c +:+ " (*." +:+ ToLowerCase e +:+ ");;")
      else strDialog)
      (SupportedExt c) strDialog)
    (m_vpConverters io) "".

End Formats.

(* ===================================================================== *)
(** * Further examples *)
(* ===================================================================== *)

Module MoreExamples.

Import Examples.

Local Open Scope string_scope.

(** A slice of 16 bit values stored most significant byte first. *)
Definition be16_slice (name : string) : Stacks.StackElement :=
  {| Stacks.m_strFileName := name;
     Stacks.GetDataSize := 4;
     Stacks.GetData := [x01; x02; x03; x04];
     Stacks.JPEG := None;
     Stacks.GetComponentCount := 1 |}.

(** A DICOM stack of two such slices, read on the little-endian [host]. *)
Definition be16_stack : Stacks.FileStackInfo :=
  {| Stacks.m_strFileType := "DICOM";
     Stacks.m_strDesc := "CT";
     Stacks.m_Elements := [be16_slice "0001.dcm"; be16_slice "0002.dcm"];
     Stacks.m_ivSize := vec3 2 1 1;
     Stacks.m_fvfAspect := vec3 1 1 1;
     Stacks.m_iAllocated := 16;
     Stacks.m_iStored := 12;
     Stacks.m_iComponentCount := 1;
     Stacks.m_bIsBigEndian := true;
     Stacks.m_bIsJPEGEncoded := false |}.

(** A JPEG-encoded DICOM stack; the embedded images are as given. *)
Definition jpeg_slice (name : string) (image : option (list byte))
    : Stacks.StackElement :=
  {| Stacks.m_strFileName := name;
     Stacks.GetDataSize := 2;
     Stacks.GetData := [xff; xd8];
     Stacks.JPEG := image;
     Stacks.GetComponentCount := 1 |}.

Definition jpeg_stack (desc : string) (es : list Stacks.StackElement)
    : Stacks.FileStackInfo :=
  {| Stacks.m_strFileType := "DICOM";
     Stacks.m_strDesc := desc;
     Stacks.m_Elements := es;
     Stacks.m_ivSize := vec3 1 1 1;
     Stacks.m_fvfAspect := vec3 1 1 1;
     Stacks.m_iAllocated := 8;
     Stacks.m_iStored := 8;
     Stacks.m_iComponentCount := 1;
     Stacks.m_bIsBigEndian := false;
     Stacks.m_bIsJPEGEncoded := true |}.

(** A directory with four DICOM stacks, the first and the third with an
    image that cannot be read, and one image stack. *)
Definition scanned_dicom (strDirectory : string)
    : list Stacks.FileStackInfo :=
  [jpeg_stack "A" [jpeg_slice "a1" (Some [x00]); jpeg_slice "a2" None];
   be16_stack;
   jpeg_stack "B" [jpeg_slice "b1" None];
   jpeg_stack "C" [jpeg_slice "c1" (Some [x00])]].

Definition scanned_images (strDirectory : string)
    : list Stacks.FileStackInfo :=
  [image_stack].

(** A registry in which the reader of flat files comes first and the
    NRRD converter is the fallback, and a [ConvertToUVF] that only the
    NRRD converter manages. *)
Definition fallback_manager : IOManager :=
  RegisterFinalConverter nrrd_converter flat_manager.

Definition uvf_by_nrrd (c : AbstrConverter) (files : list string)
    (strTargetFilename : string) : bool :=
  String.eqb (GetDesc c) "Nearly Raw Raster Data".

(** A converter that advertises DAT as well, cannot export by its own
    account and fails to write. *)
Definition broken_converter : AbstrConverter :=
  {| GetDesc := "Broken";
     SupportedExt := ["DAT"];
     CanExportData := false;
     CanRead := fun _ => false;
     ConvertToRAW := fun _ => None;
     ConvertToNative := fun _ => false |}.

Definition two_writers : IOManager :=
  IOManager_new [broken_converter; flat_converter] 256 4.

(** A volume of unsigned 16 bit values. *)
Definition volume_u16 : Dataset :=
  two_level_volume 16 false false (vec3 2 2 2).

(** A volume of four components of unsigned bytes, otherwise like
    [volume_a]. *)
Definition volume_rgba : Dataset :=
  {| IsOpen := true; GetBitWidth := 8; GetComponentCount := 4;
     IsSameEndianness := true; GetIsSigned := false; GetIsFloat := false;
     GetScale := vec3 1 1 1; GetBrickOverlapSize := vec3 2 2 2;
     GetNumberOfTimesteps := 1; GetLODLevelCount := 2;
     GetDomainSize := fun lod _ =>
       match lod with O => vec3 4 4 4 | _ => vec3 2 2 2 end;
     GetBrickCount := fun _ _ => vec3 1 1 1;
     Export := fun _ _ => true |}.

End MoreExamples.

(* ===================================================================== *)
(** * The brick settings *)
(* ===================================================================== *)

Module SettingFacts.

Import Spec Examples.

Lemma IOManager_new_invariant builtin bs bo :
  bo < bs -> brick_invariant (IOManager_new builtin bs bo).
Proof. intros H. exact H. Qed.

Lemma SetMaxBrickSize_spec n io :
  SetMaxBrickSize n io =
    if bool_decide (m_iBrickOverlap io < n)
    then (true, mkIOManager (m_vpConverters io) (m_pFinalConverter io) n
                  (m_iBrickOverlap io) (m_iIncoresize io))
    else (false, io).
Proof.
  unfold SetMaxBrickSize.
  destruct (Z.gtb_spec n (m_iBrickOverlap io)) as [Hgt | Hle].
  - rewrite bool_decide_eq_true_2 by lia. reflexivity.
  - rewrite bool_decide_eq_false_2 by lia. reflexivity.
Qed.

Lemma SetBrickOverlap_spec n io :
  SetBrickOverlap n io =
    if bool_decide (n < m_iMaxBrickSize io)
    then (true, mkIOManager (m_vpConverters io) (m_pFinalConverter io)
                  (m_iMaxBrickSize io) n (m_iIncoresize io))
    else (false, io).
Proof.
  unfold SetBrickOverlap.
  destruct (Z.gtb_spec (m_iMaxBrickSize io) n) as [Hgt | Hle].
  - rewrite bool_decide_eq_true_2 by lia. reflexivity.
  - rewrite bool_decide_eq_false_2 by lia. reflexivity.
Qed.

Lemma operate_preserves o io :
  brick_invariant io -> brick_invariant (operate o io).
Proof.
  unfold brick_invariant. intros Hinv. destruct o as [c | c | n | n]; simpl.
  - exact Hinv.
  - exact Hinv.
  - rewrite SetMaxBrickSize_spec. case_bool_decide; simpl; lia.
  - rewrite SetBrickOverlap_spec. case_bool_decide; simpl; lia.
Qed.

Lemma operations_preserve os : forall io,
  brick_invariant io -> brick_invariant (operations os io).
Proof.
  induction os as [| o os IH]; intros io Hinv; [exact Hinv |].
  apply IH, operate_preserves, Hinv.
Qed.

(** C9. From an object whose brick size exceeds its overlap, whatever
    sequence of calls to its non-const members a client makes, the brick
    size still exceeds the overlap, also after one more call to a setter;
    and in the object reached, SetMaxBrickSize(n) returns true
    exactly when n is above the current overlap and then stores n as the
    brick size leaving the overlap alone, SetBrickOverlap(n) returns true
    exactly when the current brick size is above n and then stores n as
    the overlap leaving the brick size alone, and a call that returns
    false leaves the object as it was. *)
Theorem brick_settings_invariant (io0 : IOManager) (os : list Operation)
    (n : Z) (Hinit : brick_invariant io0) :
  let io := operations os io0 in
  brick_invariant io
  /\ (fst (SetMaxBrickSize n io) = true <-> m_iBrickOverlap io < n)
  /\ (fst (SetMaxBrickSize n io) = true ->
        m_iMaxBrickSize (snd (SetMaxBrickSize n io)) = n
        /\ m_iBrickOverlap (snd (SetMaxBrickSize n io)) = m_iBrickOverlap io)
  /\ (fst (SetMaxBrickSize n io) = false -> snd (SetMaxBrickSize n io) = io)
  /\ (fst (SetBrickOverlap n io) = true <-> n < m_iMaxBrickSize io)
  /\ (fst (SetBrickOverlap n io) = true ->
        m_iBrickOverlap (snd (SetBrickOverlap n io)) = n
        /\ m_iMaxBrickSize (snd (SetBrickOverlap n io)) = m_iMaxBrickSize io)
  /\ (fst (SetBrickOverlap n io) = false -> snd (SetBrickOverlap n io) = io)
  /\ brick_invariant (snd (SetMaxBrickSize n io))
  /\ brick_invariant (snd (SetBrickOverlap n io)).
Proof.
  intros io.
  assert (Hio : brick_invariant io) by (apply operations_preserve, Hinit).
  rewrite SetMaxBrickSize_spec, SetBrickOverlap_spec.
  split; [exact Hio |].
  unfold brick_invariant in *.
  repeat case_bool_decide; simpl; repeat split; intros; try lia;
    try congruence; try reflexivity.
Qed.

Lemma brick_settings_invariant_witness :
  let io0 := IOManager_new [] 256 4 in
  let os := [OpSetMaxBrickSize 2; OpSetBrickOverlap 300;
             OpRegisterExternalConverter nrrd_converter;
             OpSetMaxBrickSize 512; OpSetBrickOverlap 16] in
  brick_invariant io0
  /\ brick_invariant (operations os io0)
  /\ (fst (SetMaxBrickSize 8 (operations os io0)) = true
      <-> m_iBrickOverlap (operations os io0) < 8).
Proof.
  assert (H0 : brick_invariant (IOManager_new [] 256 4))
    by (unfold brick_invariant; simpl; lia).
  split; [exact H0 |].
  pose proof (brick_settings_invariant (IOManager_new [] 256 4)
                [OpSetMaxBrickSize 2; OpSetBrickOverlap 300;
                 OpRegisterExternalConverter nrrd_converter;
                 OpSetMaxBrickSize 512; OpSetBrickOverlap 16] 8 H0)
    as (Hinv & Hmax & _).
  split; [exact Hinv | exact Hmax].
Defined.

End SettingFacts.

(* ===================================================================== *)
(** * Converter look-up by extension *)
(* ===================================================================== *)

Module DispatchFacts.

Import Spec Examples.

Lemma lower_ascii_idempotent c : lower_ascii (lower_ascii c) = lower_ascii c.
Proof.
  destruct c as [[] [] [] [] [] [] [] []]; vm_compute; reflexivity.
Qed.

Lemma ToLowerCase_idempotent s : ToLowerCase (ToLowerCase s) = ToLowerCase s.
Proof.
  induction s as [| c s IH]; simpl; [reflexivity |].
  rewrite lower_ascii_idempotent, IH. reflexivity.
Qed.

(** The inner loop finds [ext] exactly when it is the lower-case form of
    an advertised extension. *)
Lemma ext_listed_true ext exts :
  ext_listed ext exts = true <->
  exists e, In e exts /\ ext = ToLowerCase e.
Proof.
  induction exts as [| e exts IH]; simpl.
  - split; [discriminate | intros (e & [] & _)].
  - destruct (String.eqb_spec ext (ToLowerCase e)) as [Heq | Hne].
    + split; [intros _; exists e; auto | reflexivity].
    + rewrite IH. split.
      * intros (e' & Hin & He'). exists e'. auto.
      * intros (e' & [-> | Hin] & He'); [contradiction | exists e'; auto].
Qed.

(** A converter that is returned is registered, passes the export filter
    and advertises the argument. *)
Lemma GetConverterForExt_from_sound cs ext must c :
  GetConverterForExt_from cs ext must = Some c ->
  In c cs
  /\ (must = true -> CanExportData c = true)
  /\ exists e, In e (SupportedExt c) /\ ext = ToLowerCase e.
Proof.
  induction cs as [| c0 cs IH]; simpl; [discriminate |].
  destruct (negb must || CanExportData c0) eqn:Hfilter.
  - destruct (ext_listed ext (SupportedExt c0)) eqn:Hlisted.
    + intros [= <-]. split; [auto |]. split.
      * intros ->. exact Hfilter.
      * apply ext_listed_true, Hlisted.
    + intros H. destruct (IH H) as (? & ? & ?). auto.
  - intros H. destruct (IH H) as (? & ? & ?). auto.
Qed.

(** A registered converter that passes the filter and advertises the
    argument makes the look-up succeed. *)
Lemma GetConverterForExt_from_complete cs ext must c :
  In c cs ->
  (must = true -> CanExportData c = true) ->
  ext_listed ext (SupportedExt c) = true ->
  exists c', GetConverterForExt_from cs ext must = Some c'.
Proof.
  induction cs as [| c0 cs IH]; simpl; [intros [] |].
  intros [-> | Hin] Hexp Hlisted.
  - assert (Hfilter : negb must || CanExportData c = true).
    { destruct must; simpl; auto. }
    rewrite Hfilter, Hlisted. eauto.
  - destruct (negb must || CanExportData c0);
      [destruct (ext_listed ext (SupportedExt c0)) |]; eauto.
Qed.

(** An argument with an upper-case letter in it finds nothing. *)
Lemma GetConverterForExt_upper io x must :
  ToLowerCase x <> x -> GetConverterForExt io x must = None.
Proof.
  intros Hup. unfold GetConverterForExt.
  destruct (GetConverterForExt_from (m_vpConverters io) x must)
    as [c |] eqn:Hget; [| reflexivity].
  apply GetConverterForExt_from_sound in Hget as (_ & _ & e & _ & ->).
  destruct Hup. apply ToLowerCase_idempotent.
Qed.

(** C8, as stated, fails: the converter advertises NRRD, the argument is
    NRRD, a case variant of it, and the look-up returns nothing. *)
Lemma GetConverterForExt_case_sensitive :
  let io := IOManager_new [nrrd_converter] 256 4 in
  In nrrd_converter (m_vpConverters io)
  /\ In "NRRD"%string (SupportedExt nrrd_converter)
  /\ case_variant "NRRD" "NRRD"
  /\ CanExportData nrrd_converter = true
  /\ GetConverterForExt io "NRRD" true = None
  /\ GetConverterForExt io "NRRD" false = None.
Proof.
  simpl. repeat split; auto.
Qed.

(** C8, amended. For every registered converter c and every extension e
    it advertises, in whatever letter case, GetConverterForExt(x,
    must_export) returns a registered converter that supports e and meets
    the export requirement, for every case variant x of e that is in lower
    case (must_export being implied by the export capability of c). *)
Theorem GetConverterForExt_lower_case (io : IOManager) (c : AbstrConverter)
    (e x : string) (must : bool)
    (Hreg : In c (m_vpConverters io))
    (Hadv : In e (SupportedExt c))
    (Hvariant : case_variant x e)
    (Hlower : ToLowerCase x = x)
    (Hexport : must = true -> CanExportData c = true) :
  exists c',
    GetConverterForExt io x must = Some c'
    /\ In c' (m_vpConverters io)
    /\ supports c' e
    /\ (must = true -> CanExportData c' = true).
Proof.
  unfold case_variant in Hvariant. rewrite Hlower in Hvariant.
  assert (Hlisted : ext_listed x (SupportedExt c) = true).
  { apply ext_listed_true. exists e. auto. }
  destruct (GetConverterForExt_from_complete _ _ _ _ Hreg Hexport Hlisted)
    as [c' Hget].
  exists c'. split; [exact Hget |].
  apply GetConverterForExt_from_sound in Hget as (Hin & Hexp & e' & He' & Hx).
  split; [exact Hin |]. split; [| exact Hexp].
  exists e'. split; [exact He' |].
  unfold case_variant. congruence.
Qed.

Lemma GetConverterForExt_lower_case_witness :
  exists c',
    GetConverterForExt (IOManager_new [nrrd_converter] 256 4) "nhdr" true
      = Some c'
    /\ In c' [nrrd_converter]
    /\ supports c' "NHDR"
    /\ (true = true -> CanExportData c' = true).
Proof.
  apply (GetConverterForExt_lower_case
           (IOManager_new [nrrd_converter] 256 4) nrrd_converter
           "NHDR" "nhdr" true).
  - simpl. auto.
  - simpl. auto.
  - reflexivity.
  - reflexivity.
  - reflexivity.
Defined.

End DispatchFacts.

(* ===================================================================== *)
(** * Conversion of file stacks *)
(* ===================================================================== *)

Module StackFacts.

Import Stacks Spec Examples.

Local Open Scope string_scope.

(** C10. For a stack tagged IMAGE whose temp file can be created and that
    has an element, ConvertDataset runs the RAW-to-UVF builder once, on
    the temp file that holds the payloads of the elements and for the
    target, and returns what the builder returns; the signedness flag the
    builder is given is (component count >= 32): the allocated bit width,
    which is passed as the component size, has no part in it, and with a
    component count of 1, 3 or 4 the data are converted as unsigned. *)
Theorem image_stack_signedness (X : Externals) (pStack : FileStackInfo)
    (strTargetFilename strTempDir : string) (iMaxBrickSize iBrickOverlap : Z)
    (bQuantizeTo8Bit : bool) (w : World)
    (Htype : m_strFileType pStack = "IMAGE")
    (Htemp : can_create X
               (strTempDir +:+ GetFilename X strTargetFilename +:+ "~")
             = true)
    (Helements : m_Elements pStack <> []) :
  exists raw request result w',
    ConvertDataset X pStack strTargetFilename strTempDir iMaxBrickSize
      iBrickOverlap bQuantizeTo8Bit w = Built raw request result w'
    /\ raw = image_elements (m_Elements pStack)
    /\ result = ConvertRAWDataset X request
    /\ stages w'
       = (stages w
            ++ [StageRAWToUVF
                  (strTempDir +:+ GetFilename X strTargetFilename +:+ "~")
                  strTargetFilename])%list
    /\ raw_strFilename request
       = strTempDir +:+ GetFilename X strTargetFilename +:+ "~"
    /\ raw_strTargetFilename request = strTargetFilename
    /\ raw_iComponentSize request = m_iAllocated pStack
    /\ raw_bIsFloat request = false
    /\ raw_bSigned request = (m_iComponentCount pStack >=? 32)
    /\ (In (m_iComponentCount pStack) [1; 3; 4] ->
        raw_bSigned request = false).
Proof.
  unfold ConvertDataset. rewrite Htype, Htemp. simpl.
  destruct (m_Elements pStack) as [| first rest] eqn:Hes; [contradiction |].
  unfold run_ConvertRAWDataset.
  match goal with
  | |- context [ConvertRAWDataset X ?r] =>
      set (request := r); destruct (ConvertRAWDataset X request) eqn:Hrun
  end;
    (exists (image_elements (first :: rest)), request; do 2 eexists;
     split; [reflexivity |]; split; [reflexivity |];
     split; [symmetry; exact Hrun |];
     split; [reflexivity |]; split; [reflexivity |];
     split; [reflexivity |]; split; [reflexivity |];
     split; [reflexivity |]; split; [reflexivity |];
     intros Hin; subst request; cbn [raw_bSigned];
     destruct Hin as [<- | [<- | [<- | []]]]; reflexivity).
Qed.

Lemma image_stack_signedness_witness :
  exists raw request result w',
    ConvertDataset host image_stack "out.uvf" "/tmp/" 256 4 false
      empty_world = Built raw request result w'
    /\ raw = image_elements (m_Elements image_stack)
    /\ result = ConvertRAWDataset host request
    /\ stages w'
       = (stages empty_world
            ++ [StageRAWToUVF
                  ("/tmp/" +:+ GetFilename host "out.uvf" +:+ "~")
                  "out.uvf"])%list
    /\ raw_strFilename request
       = "/tmp/" +:+ GetFilename host "out.uvf" +:+ "~"
    /\ raw_strTargetFilename request = "out.uvf"
    /\ raw_iComponentSize request = m_iAllocated image_stack
    /\ raw_bIsFloat request = false
    /\ raw_bSigned request = (m_iComponentCount image_stack >=? 32)
    /\ (In (m_iComponentCount image_stack) [1; 3; 4] ->
        raw_bSigned request = false).
Proof.
  apply (image_stack_signedness host image_stack "out.uvf" "/tmp/" 256 4
           false empty_world).
  - reflexivity.
  - reflexivity.
  - discriminate.
Defined.

(** The loop that fills the RGBA buffer pads every triple it is given. *)
Lemma fill_RGBA_pads groups : forall k v,
  length v = (3 * (k + groups))%nat ->
  fill_RGBA groups k v = pad_RGBA (skipn (3 * k) v).
Proof.
  induction groups as [| g IH]; intros k v Hlen.
  - rewrite skipn_all2 by lia. reflexivity.
  - cbn [fill_RGBA]. rewrite (IH (S k) v) by lia.
    assert (Hk : (3 * k + 3 <= length v)%nat) by lia.
    clear Hlen IH.
    replace (3 * S k)%nat with (3 + 3 * k)%nat by lia.
    rewrite <- skipn_skipn.
    replace (k * 3 + 0)%nat with (3 * k + 0)%nat by lia.
    replace (k * 3 + 1)%nat with (3 * k + 1)%nat by lia.
    replace (k * 3 + 2)%nat with (3 * k + 2)%nat by lia.
    rewrite <- !(nth_skipn (3 * k)).
    assert (Hrest : (3 <= length (skipn (3 * k) v))%nat)
      by (rewrite length_skipn; lia).
    remember (skipn (3 * k) v) as t eqn:Ht. clear Ht.
    destruct t as [| r [| g' [| b rest]]]; simpl in Hrest; try lia.
    reflexivity.
Qed.

Lemma pad_RGBA_length rgb :
  length (pad_RGBA rgb) = (4 * (length rgb / 3))%nat.
Proof.
  remember (length rgb) as n eqn:Hn. revert rgb Hn.
  induction n as [n IH] using lt_wf_ind. intros rgb Hn.
  destruct rgb as [| r [| g [| b rest]]]; simpl in Hn; subst n;
    try reflexivity.
  cbn [pad_RGBA length].
  rewrite (IH (length rest)) by (lia || reflexivity).
  replace (S (S (S (length rest)))) with (1 * 3 + length rest)%nat by lia.
  rewrite Nat.div_add_l by lia. lia.
Qed.

Lemma pad_RGBA_triples rgb k :
  length rgb = (3 * k)%nat -> length (pad_RGBA rgb) = (4 * k)%nat.
Proof.
  intros Hlen. rewrite pad_RGBA_length, Hlen.
  replace (3 * k)%nat with (k * 3)%nat by lia.
  rewrite Nat.div_mul by lia. reflexivity.
Qed.

(** One turn of the element loop on a payload of whole triples. *)
Lemma dicom_element_pads (X : Externals) (bIsBigEndian : bool)
    (e : StackElement) (st : DICOMLoop) (k : nat) :
  bIsBigEndian = host_IsBigEndian X ->
  components st = 3 ->
  GetDataSize e = Z.of_nat (length (GetData e)) ->
  length (GetData e) = (3 * k)%nat ->
  Z.of_nat (4 * k) < 2 ^ 32 ->
  dicom_element X false bIsBigEndian e st
  = Next {| vData := GetData e; allocated := allocated st; components := 4;
            written := written st ++ pad_RGBA (GetData e) |}.
Proof.
  intros Hendian Hcomp Hsize Hlen Hbound.
  unfold dicom_element, load_element, write_element.
  rewrite Hendian, Bool.eqb_reflx, Hcomp, Hsize. cbn [negb Z.eqb Pos.eqb].
  assert (Hwrap : UINT32_wrap (Z.of_nat (length (GetData e)))
                  = Z.of_nat (length (GetData e))).
  { unfold UINT32_wrap. apply Z.mod_small. lia. }
  rewrite Hwrap, Nat2Z.id, Hlen.
  replace (3 * k / 3)%nat with k
    by (replace (3 * k)%nat with (k * 3)%nat by lia;
        rewrite Nat.div_mul; lia).
  assert (Hwrap4 : UINT32_wrap (Z.of_nat k * 4) = Z.of_nat (4 * k)).
  { unfold UINT32_wrap. rewrite Z.mod_small; lia. }
  rewrite Hwrap4, Nat2Z.id.
  replace (Z.of_nat k * 4 <? 2 ^ 32)%Z with true
    by (symmetry; apply Z.ltb_lt; lia).
  replace (3 * k <=? 3 * k)%nat with true
    by (symmetry; apply Nat.leb_le; lia).
  cbn [andb].
  rewrite (fill_RGBA_pads k 0 (GetData e)) by lia.
  change (skipn (3 * 0) (GetData e)) with (GetData e).
  rewrite firstn_all2; [reflexivity |].
  rewrite (pad_RGBA_triples _ k Hlen). lia.
Qed.

(** What is right in C7: a stack of one element comes out padded.  For a
    DICOM stack of three components with a single element that is not
    JPEG-encoded, stored in host byte order and made of whole triples, the
    temp file is the payload with 255 after every triple, four thirds of
    its length, and the builder is told there are four components. *)
Lemma dicom_single_element_padded (X : Externals) (pStack : FileStackInfo)
    (e : StackElement) (target tmp : string) (bs bo : Z) (q : bool)
    (w : World) (k : nat) :
  m_strFileType pStack = "DICOM" ->
  can_create X (tmp +:+ GetFilename X target +:+ "~") = true ->
  m_Elements pStack = [e] ->
  m_iComponentCount pStack = 3 ->
  m_bIsJPEGEncoded pStack = false ->
  m_bIsBigEndian pStack = host_IsBigEndian X ->
  GetDataSize e = Z.of_nat (length (GetData e)) ->
  length (GetData e) = (3 * k)%nat ->
  Z.of_nat (4 * k) < 2 ^ 32 ->
  exists request result w',
    ConvertDataset X pStack target tmp bs bo q w
      = Built (pad_RGBA (GetData e)) request result w'
    /\ raw_iComponentCount request = 4
    /\ length (pad_RGBA (GetData e)) = (4 * k)%nat.
Proof.
  intros Htype Htemp Hes Hcomp Hjpeg Hendian Hsize Hlen Hbound.
  unfold ConvertDataset. rewrite Htype, Htemp, Hes, Hjpeg.
  cbn [String.eqb Ascii.eqb Bool.eqb negb dicom_elements].
  rewrite (dicom_element_pads X _ e _ k) by assumption.
  cbn [written components app].
  unfold run_ConvertRAWDataset.
  match goal with
  | |- context [ConvertRAWDataset X ?r] =>
      set (request := r); destruct (ConvertRAWDataset X request)
  end; (do 3 eexists; split; [reflexivity |]; split; [reflexivity |];
        exact (pad_RGBA_triples _ k Hlen)).
Qed.

(** The RGB DICOM scenario of the specification: one slice of 4 x 4
    voxels (1,2,3) gives 64 bytes, each group of four being 01 02 03 FF. *)
Example rgb_dicom_scenario :
  exists request result w',
    ConvertDataset host rgb_stack_4x4x1 "out.uvf" "/tmp/" 256 4 false
      empty_world
    = Built (concat (repeat [x01; x02; x03; xff] 16)) request result w'
    /\ length (concat (repeat [x01; x02; x03; xff] 16)) = 64%nat.
Proof.
  do 3 eexists. split; [vm_compute; reflexivity | reflexivity].
Qed.

(** C7 fails from the second element on.  For a DICOM stack of three
    components with two slices of one voxel (1,2,3) each, the temp file
    holds seven bytes: the first slice is padded, the second is written
    as it came, because the first turn of the loop has set the component
    count of the stack to four.  The builder is told of four components
    in a 1 x 1 x 2 domain, which takes the eight bytes the specification
    describes. *)
Theorem dicom_rgb_second_slice_unpadded :
  exists request result w',
    ConvertDataset host rgb_stack_1x1x2 "out.uvf" "/tmp/" 256 4 false
      empty_world
    = Built [x01; x02; x03; xff; x01; x02; x03] request result w'
    /\ m_iComponentCount rgb_stack_1x1x2 = 3
    /\ raw_iComponentCount request = 4
    /\ raw_vVolumeSize request = vec3 1 1 2
    /\ padded_stack (m_Elements rgb_stack_1x1x2)
       = [x01; x02; x03; xff; x01; x02; x03; xff].
Proof.
  do 3 eexists. split; [vm_compute; reflexivity |].
  repeat split; reflexivity.
Qed.

End StackFacts.

(* ===================================================================== *)
(** * Brick statistics *)
(* ===================================================================== *)

Module StatsFacts.

Import Stats Spec Examples.

Lemma std_min_min a b : std_min a b = Z.min a b.
Proof. unfold std_min. destruct (Z.ltb_spec b a); lia. Qed.

Lemma std_max_max a b : std_max a b = Z.max a b.
Proof. unfold std_max. destruct (Z.ltb_spec a b); lia. Qed.

(** Where the maximum starts, type by type. *)
Lemma maximum_start T :
  convert T (- numeric_limits_max T) =
  match T with
  | U8 | U16 | U32 => 1
  | _ => - numeric_limits_max T
  end.
Proof. destruct T; vm_compute; reflexivity. Qed.

Lemma minmax_input_folds T data :
  minmax_input T data =
  (fold_left Z.min data (numeric_limits_max T),
   fold_left Z.max data (convert T (- numeric_limits_max T))).
Proof.
  unfold minmax_input.
  generalize (numeric_limits_max T) (convert T (- numeric_limits_max T)).
  induction data as [| v data IH]; intros mn mx; simpl; [reflexivity |].
  rewrite IH, std_min_min, std_max_max.
  f_equal; f_equal; lia.
Qed.

Lemma fold_min_le data : forall a b,
  a <= b -> fold_left Z.min data a <= fold_left Z.min data b.
Proof. induction data; simpl; intros; [assumption | apply IHdata; lia]. Qed.

Lemma fold_min_absorb data : forall a b,
  fold_left Z.min data (Z.min a b) = Z.min (fold_left Z.min data a) b.
Proof.
  induction data as [| v data IH]; simpl; intros a b; [reflexivity |].
  rewrite <- IH. f_equal. lia.
Qed.

Lemma fold_max_absorb data : forall a b,
  fold_left Z.max data (Z.max a b) = Z.max (fold_left Z.max data a) b.
Proof.
  induction data as [| v data IH]; simpl; intros a b; [reflexivity |].
  rewrite <- IH. f_equal. lia.
Qed.

Lemma fold_min_below data : forall a, fold_left Z.min data a <= a.
Proof.
  induction data as [| v data IH]; simpl; intros a; [lia |].
  specialize (IH (Z.min a v)). lia.
Qed.

(** The minimum is right for every brick that has a voxel. *)
Lemma minmax_input_minimum T v data :
  integer_type T = true ->
  Forall (is_value T) (v :: data) ->
  Some (fst (minmax_input T (v :: data))) = minimum (v :: data).
Proof.
  intros _ Hvalues. rewrite minmax_input_folds. simpl. f_equal.
  inversion Hvalues as [| ? ? [_ Hv] _]; subst.
  f_equal. lia.
Qed.

(** The maximum is the larger of the start value and the true maximum. *)
Lemma minmax_input_maximum T v data m :
  integer_type T = true ->
  maximum (v :: data) = Some m ->
  snd (minmax_input T (v :: data))
  = Z.max (convert T (- numeric_limits_max T)) m.
Proof.
  intros _ [= <-]. rewrite minmax_input_folds. simpl.
  rewrite (Z.max_comm _ v), fold_max_absorb. apply Z.max_comm.
Qed.

(** On a proper level [NDBrickIndex] returns, with the position of the
    brick in the grid. *)
Lemma NDBrickIndex_position rdb LoD b :
  proper_level rdb LoD ->
  Z.of_nat b < 2 ^ 64 ->
  NDBrickIndex rdb LoD b = Returns (position (GetBrickCount rdb LoD) b).
Proof.
  intros (Hlod & Hx & Hy & Hz & Hbound) Hb.
  unfold NDBrickIndex, position, UINT64_wrap.
  set (c := GetBrickCount rdb LoD) in *.
  assert (Hxy : 0 < vx c * vy c) by lia.
  assert (Hxy64 : vx c * vy c < 2 ^ 64) by nia.
  rewrite (Z.mod_small (Z.of_nat b)) by lia.
  rewrite (Z.mod_small (vx c * vy c)) by lia.
  destruct (Z.eqb_spec (vx c * vy c) 0) as [H0 | _]; [lia |].
  rewrite (Z.rem_mul_r (Z.of_nat b) (vx c) (vy c)) by lia.
  pose proof (Z.mod_pos_bound (Z.of_nat b) (vx c) Hx) as Hmx.
  f_equal. f_equal.
  - rewrite Z.mul_comm, Z.mod_add by lia. apply Z.mod_mod. lia.
  - rewrite Z.mul_comm, Z.div_add by lia.
    rewrite (Z.div_small (Z.of_nat b mod vx c)) by lia. reflexivity.
Qed.

(** The position of brick [b] is a valid index exactly when [b] is below
    the number of bricks. *)
Lemma position_valid rdb LoD b :
  proper_level rdb LoD ->
  ValidBrickIndex rdb LoD (position (GetBrickCount rdb LoD) b)
  = (b <? brick_total rdb LoD)%nat.
Proof.
  intros (Hlod & Hx & Hy & Hz & Hbound).
  unfold ValidBrickIndex, position, brick_total. rewrite Hlod.
  set (c := GetBrickCount rdb LoD) in *.
  cbn [vx vy vz andb].
  assert (Hb : 0 <= Z.of_nat b) by lia.
  assert (Hxy : 0 < vx c * vy c) by lia.
  pose proof (Z.mod_pos_bound (Z.of_nat b) (vx c) Hx) as Hmx.
  pose proof (Z.mod_pos_bound (Z.of_nat b / vx c) (vy c) Hy) as Hmy.
  rewrite (proj2 (Z.ltb_lt _ _)) by lia.
  rewrite (proj2 (Z.ltb_lt _ _)) by lia.
  cbn [andb].
  destruct (Nat.ltb_spec b (Z.to_nat (vx c * vy c * vz c))) as [Hlt | Hge].
  - apply Z.ltb_lt. apply Z.div_lt_upper_bound; lia.
  - apply Z.ltb_ge. apply Z.div_le_lower_bound; lia.
Qed.

Lemma NDBrickIndex_valid rdb LoD b :
  proper_level rdb LoD ->
  Z.of_nat b < 2 ^ 64 ->
  valid_brick rdb LoD b = Returns (b <? brick_total rdb LoD)%nat.
Proof.
  intros Hproper Hb. unfold valid_brick.
  rewrite (NDBrickIndex_position _ _ _ Hproper Hb). cbn [bind].
  rewrite (position_valid _ _ _ Hproper). reflexivity.
Qed.

Lemma brick_total_bound rdb LoD :
  proper_level rdb LoD -> Z.of_nat (brick_total rdb LoD) < 2 ^ 64.
Proof.
  intros (_ & Hx & Hy & Hz & Hbound). unfold brick_total.
  rewrite Z2Nat.id by nia. exact Hbound.
Qed.

(** The dispatch on a block of 8, 16 or 32 bit integers. *)
Lemma brick_entry_integer rdb LoD idx T :
  integer_voxels rdb = Some T ->
  brick_entry rdb LoD idx = Returns (get_brick_minmax T rdb LoD idx).
Proof.
  unfold integer_voxels, brick_entry.
  rewrite !(Z.eqb_sym _ (ulElementBitSize rdb)).
  destruct (ulElementMantissa rdb =? 0); cbn [negb andb]; [| discriminate].
  destruct (Z.eqb_spec (ulElementBitSize rdb) 8) as [H8 | H8].
  { intros [= <-]. destruct (bSignedElement rdb); reflexivity. }
  destruct (Z.eqb_spec (ulElementBitSize rdb) 16) as [H16 | H16].
  { intros [= <-]. rewrite !andb_false_r.
    destruct (bSignedElement rdb); reflexivity. }
  destruct (Z.eqb_spec (ulElementBitSize rdb) 32) as [H32 | H32];
    [| discriminate].
  intros [= <-]. rewrite !andb_false_r.
  destruct (bSignedElement rdb); reflexivity.
Qed.

(** The inner loop ends by its own test: with the fuel [MaxMin] gives it,
    it visits every brick of a proper level once, in order. *)
Lemma bricks_from_all rdb LoD T :
  integer_voxels rdb = Some T ->
  proper_level rdb LoD ->
  forall fuel brick,
    (brick < brick_total rdb LoD)%nat ->
    (brick_total rdb LoD - brick <= fuel)%nat ->
    bricks_from fuel rdb LoD brick
    = Returns
        (map (fun b => get_brick_minmax T rdb LoD
                         (position (GetBrickCount rdb LoD) b))
             (seq brick (brick_total rdb LoD - brick))).
Proof.
  intros Htype Hproper.
  pose proof (brick_total_bound _ _ Hproper) as Hbound.
  induction fuel as [| fuel IH]; intros brick Hlt Hfuel; [lia |].
  cbn [bricks_from].
  rewrite (NDBrickIndex_valid _ _ brick Hproper) by lia.
  cbn [bind].
  rewrite (proj2 (Nat.ltb_lt _ _) Hlt). cbn [negb].
  rewrite (NDBrickIndex_position _ _ brick Hproper) by lia.
  cbn [bind]. rewrite (brick_entry_integer _ _ _ _ Htype). cbn [bind].
  rewrite (NDBrickIndex_valid _ _ (S brick) Hproper) by lia.
  cbn [bind].
  replace (brick_total rdb LoD - brick)%nat
    with (S (brick_total rdb LoD - S brick))%nat by lia.
  cbn [seq map].
  destruct (Nat.ltb_spec (S brick) (brick_total rdb LoD)) as [Hnext | Hlast].
  - rewrite IH by lia. reflexivity.
  - replace (brick_total rdb LoD - S brick)%nat with 0%nat by lia.
    reflexivity.
Qed.

Lemma lods_from_all rdb T :
  integer_voxels rdb = Some T ->
  (forall LoD, (LoD < length (lods rdb))%nat -> proper_level rdb LoD) ->
  forall fuel LoD,
    (LoD < length (lods rdb))%nat ->
    (length (lods rdb) - LoD <= fuel)%nat ->
    lods_from fuel rdb LoD
    = Returns (entries T rdb LoD (length (lods rdb) - LoD)).
Proof.
  intros Htype Hproper. induction fuel as [| fuel IH]; intros LoD Hlt Hfuel;
    [lia |].
  cbn [lods_from].
  assert (Htotal : (0 < brick_total rdb LoD)%nat).
  { destruct (Hproper LoD Hlt) as (_ & Hx & Hy & Hz & _).
    unfold brick_total. nia. }
  rewrite (bricks_from_all rdb LoD T Htype (Hproper LoD Hlt)) by lia.
  cbn [bind]. rewrite Nat.sub_0_r.
  unfold entries.
  replace (length (lods rdb) - LoD)%nat
    with (S (length (lods rdb) - S LoD))%nat by lia.
  cbn [seq flat_map].
  unfold ValidLOD.
  destruct (Nat.ltb_spec (S LoD) (length (lods rdb))) as [Hnext | Hlast].
  - rewrite IH by lia. reflexivity.
  - replace (length (lods rdb) - S LoD)%nat with 0%nat by lia.
    cbn [seq flat_map]. rewrite app_nil_r. reflexivity.
Qed.

(** [MaxMin] on a block of 8, 16 or 32 bit integers with a level, all
    levels proper: it returns, with the entries of the bricks, level by
    level and brick by brick. *)
Lemma MaxMin_all rdb T :
  integer_voxels rdb = Some T ->
  lods rdb <> [] ->
  (forall LoD, (LoD < length (lods rdb))%nat -> proper_level rdb LoD) ->
  MaxMin rdb = Returns (entries T rdb 0 (length (lods rdb))).
Proof.
  intros Htype Hlods Hproper. unfold MaxMin.
  assert (0 < length (lods rdb))%nat
    by (destruct (lods rdb); cbn; [contradiction | lia]).
  rewrite (lods_from_all rdb T Htype Hproper) by lia.
  rewrite Nat.sub_0_r. reflexivity.
Qed.

(** C1 fails on a brick of zeros.  For the block of unsigned bytes
    whose only brick holds four zeros, MaxMin emits (mn, mx) = (0, 1):
    the minimum is the minimum of the voxels, the maximum is not, since
    the running maximum of an unsigned type starts at 1. *)
Theorem MaxMin_zero_brick :
  MaxMin (u8_block [0; 0; 0; 0]) = Returns [vec4 0 1 (- DBL_MAX) DBL_MAX]
  /\ minimum [0; 0; 0; 0] = Some 0
  /\ maximum [0; 0; 0; 0] = Some 0
  /\ minmax_input U8 [0; 0; 0; 0] = (0, 1).
Proof. repeat split; vm_compute; reflexivity. Qed.

(** The same start value misses the lowest value of a signed type. *)
Example minmax_input_lowest_int8 :
  minmax_input I8 [-128; -128] = (-128, -127).
Proof. vm_compute. reflexivity. Qed.

(** With a voxel at or above the start value both entries are right. *)
Example MaxMin_pyramid :
  exists mm,
    MaxMin u8_pyramid = Returns mm
    /\ map (fun v => (x v, y v)) mm
       = [(1, 9); (1, 9); (1, 9); (2, 9); (4, 7)].
Proof. eexists. split; vm_compute; reflexivity. Qed.

(** The running maximum of [CreateUVFFromRDB] never leaves DBL_MAX. *)
Lemma max_val_stays minmax :
  Forall (fun i => y i <= DBL_MAX) minmax ->
  fold_left (fun max_val i => std_max max_val (y i)) minmax DBL_MAX
  = DBL_MAX.
Proof.
  induction 1 as [| i minmax Hi _ IH]; simpl; [reflexivity |].
  rewrite std_max_max, Z.max_l by exact Hi. exact IH.
Qed.

Lemma CreateUVFFromRDB_max hist1d_size rdb minmax :
  MaxMin rdb = Returns minmax ->
  Forall (fun i => y i <= DBL_MAX) minmax ->
  exists blocks,
    CreateUVFFromRDB hist1d_size rdb = Returns blocks
    /\ hist2d_max blocks = DBL_MAX.
Proof.
  intros Hmm H. unfold CreateUVFFromRDB. rewrite Hmm. cbn [bind].
  eexists. split; [reflexivity |]. cbn [hist2d_max].
  apply max_val_stays, H.
Qed.

(** C2 fails on every block of bounded values; here is one.  For the
    block whose only brick holds the voxels 5 and 5 there is a single
    per-brick maximum, 5, and the maximum handed to the 2D histogram is
    DBL_MAX, the value the running maximum starts with. *)
Theorem hist2d_max_is_DBL_MAX :
  exists blocks,
    CreateUVFFromRDB (fun _ => 256) (u8_block [5; 5]) = Returns blocks
    /\ map y (maxmin_block blocks) = [5]
    /\ maximum (map y (maxmin_block blocks)) = Some 5
    /\ hist2d_max blocks = DBL_MAX
    /\ hist2d_max blocks <> 5.
Proof.
  eexists. split; [vm_compute; reflexivity |].
  repeat split; try (vm_compute; reflexivity).
  vm_compute. discriminate.
Qed.

End StatsFacts.

(* ===================================================================== *)
(** * The expression evaluator *)
(* ===================================================================== *)

Module ExpressionFacts.

Import Stats Expressions Spec Examples.

Lemma std_max_bool_orb a b : std_max_bool a b = a || b.
Proof. destruct a, b; reflexivity. Qed.

Lemma fold_left_max_right l : forall a,
  fold_left Z.max l a = fold_right Z.max a l.
Proof.
  induction l as [| v l IH]; intros a; simpl; [reflexivity |].
  rewrite IH. clear IH.
  induction l as [| u l IH]; simpl; [apply Z.max_comm |].
  rewrite IH. lia.
Qed.

Lemma IdentifyType_from uvf : forall bit_width is_float is_signed,
  fold_left
    (fun '(bit_width, is_float, is_signed) u =>
       (Z.max bit_width (GetBitWidth u),
        std_max_bool is_float (GetIsFloat u),
        std_max_bool is_signed (GetIsSigned u)))
    uvf (bit_width, is_float, is_signed)
  = (fold_left Z.max (map GetBitWidth uvf) bit_width,
     is_float || existsb GetIsFloat uvf,
     is_signed || existsb GetIsSigned uvf).
Proof.
  induction uvf as [| u uvf IH]; intros bw fl sg; simpl.
  - rewrite !orb_false_r. reflexivity.
  - rewrite IH, !std_max_bool_orb, !orb_assoc. reflexivity.
Qed.

(** [IdentifyType] computes the widest type of the specification. *)
Lemma IdentifyType_widest uvf : IdentifyType uvf = widest uvf.
Proof.
  unfold IdentifyType, widest.
  rewrite IdentifyType_from, fold_left_max_right. reflexivity.
Qed.

(** The block that is handed on for writing has the element type of the
    first raster block of the first volume: the type that was set before
    the assignment is gone. *)
Lemma EvaluateExpression_types (parse_err : Z) (first : Dataset)
    (rest : list Dataset) (rdb1 : RasterDataBlock) (written : list LOD) :
  parse_err <> 1 ->
  Forall (fun u => MergeableDatasets first u = true) (first :: rest) ->
  exists rdb bit_width is_float is_signed,
    EvaluateExpression parse_err (first :: rest) rdb1 written
      = Evaluated rdb bit_width is_float is_signed
    /\ (bit_width, is_float, is_signed) = widest (first :: rest)
    /\ bit_width = fold_right Z.max 0 (map GetBitWidth (first :: rest))
    /\ is_float = existsb GetIsFloat (first :: rest)
    /\ is_signed = existsb GetIsSigned (first :: rest)
    /\ ulElementBitSize rdb = ulElementBitSize rdb1
    /\ bSignedElement rdb = bSignedElement rdb1
    /\ ulElementMantissa rdb = ulElementMantissa rdb1.
Proof.
  intros Hparse Hmergeable.
  unfold EvaluateExpression.
  destruct (Z.eqb_spec parse_err 1) as [| _]; [contradiction |].
  assert (Hnone : existsb (fun u => negb (MergeableDatasets first u))
                    (first :: rest) = false).
  { apply not_true_is_false. intros Hex.
    apply existsb_exists in Hex as (u & Hin & Hu).
    rewrite (proj1 (List.Forall_forall _ _) Hmergeable u Hin) in Hu.
    discriminate. }
  rewrite Hnone, IdentifyType_widest. unfold widest.
  do 4 eexists. split; [reflexivity |].
  repeat split; reflexivity.
Qed.

(** C5. The first half holds: EvaluateExpression computes as destination
    type the widest type over its inputs.  The second half fails: for a
    volume of unsigned bytes and a volume of 32 bit floats, in this order,
    the widest type is 32 bit float, and the raster block that is handed
    on for writing has the 8 bit unsigned type of the first raster block
    of the first volume, not the 16 bit unsigned type: that block is
    assigned to it as a whole after its type has been set. *)
Theorem EvaluateExpression_output_type :
  widest [volume_a; volume_f] = (32, true, true)
  /\ exists rdb,
       EvaluateExpression 0 [volume_a; volume_f] volume_a_block
         (lods volume_a_block)
       = Evaluated rdb 32 true true
       /\ ulElementBitSize rdb = 8
       /\ bSignedElement rdb = false
       /\ ulElementMantissa rdb = 0
       /\ ulElementBitSize rdb <> 16.
Proof.
  split; [reflexivity |].
  eexists. split; [vm_compute; reflexivity |].
  repeat split; try reflexivity. discriminate.
Qed.

(** The widest type of a byte volume and a float volume is 32 bit float. *)
Example widest_of_byte_and_float :
  widest [volume_a; volume_f] = (32, true, true).
Proof. reflexivity. Qed.

Lemma forallb_seq_imp (f g : nat -> bool) n : forall s,
  (forall i, (s <= i < s + n)%nat -> f i = true -> g i = true) ->
  forallb f (seq s n) = true -> forallb g (seq s n) = true.
Proof.
  induction n as [| n IH]; intros s Himp; simpl; [reflexivity |].
  rewrite !andb_true_iff. intros [Hs Hrest]. split.
  - apply Himp; [lia | exact Hs].
  - apply (IH (S s)); [| exact Hrest].
    intros i Hi. apply Himp. lia.
Qed.

Lemma vec3_eqb_refl v : vec3_eqb v v = true.
Proof. unfold vec3_eqb. rewrite !Z.eqb_refl. reflexivity. Qed.

Lemma vec3_eqb_eq a b : vec3_eqb a b = true <-> a = b.
Proof.
  unfold vec3_eqb. rewrite !andb_true_iff, !Z.eqb_eq.
  destruct a, b; simpl. split.
  - intros [[-> ->] ->]. reflexivity.
  - intros [= -> -> ->]. auto.
Qed.

(** The test of the source accepts whatever the specification accepts. *)
Lemma mergeable_MergeableDatasets a b :
  mergeable a b = true -> MergeableDatasets a b = true.
Proof.
  unfold mergeable, MergeableDatasets.
  rewrite !andb_true_iff. intros [[[[Hc Ho] Hl] Ht] Hall].
  rewrite Hc, Ho, Hl, Ht. simpl.
  generalize Hall. apply forallb_seq_imp. intros ts Hts.
  apply forallb_seq_imp. intros level Hlevel.
  rewrite andb_true_iff. intros [Hd ->].
  rewrite negb_orb, !negb_involutive, andb_true_r.
  assert (H00 : vec3_eqb (GetDomainSize a 0 0) (GetDomainSize b 0 0) = true).
  { rewrite forallb_forall in Hall.
    assert (Hts0 : In 0%nat (seq 0 (GetNumberOfTimesteps a)))
      by (apply in_seq; lia).
    specialize (Hall _ Hts0). rewrite forallb_forall in Hall.
    assert (Hl0 : In 0%nat (seq 0 (GetLODLevelCount a)))
      by (apply in_seq; lia).
    specialize (Hall _ Hl0). apply andb_true_iff in Hall. apply Hall. }
  exact H00.
Qed.

(** Hence an unmergeable error is only raised for inputs that are not
    mergeable in the sense of the specification. *)
Lemma UnmergeableDatasets_only_if parse_err uvf rdb1 written what :
  EvaluateExpression parse_err uvf rdb1 written
    = UnmergeableDatasets what ->
  exists a b, In a uvf /\ In b uvf /\ mergeable a b = false.
Proof.
  unfold EvaluateExpression. destruct uvf as [| first rest]; [discriminate |].
  destruct (parse_err =? 1); [discriminate |].
  destruct (existsb _ (first :: rest)) eqn:Hex.
  - intros _. apply existsb_exists in Hex as (u & Hin & Hu).
    exists first, u. split; [left; reflexivity |]. split; [exact Hin |].
    apply not_true_is_false. intros Hspec.
    rewrite (mergeable_MergeableDatasets _ _ Hspec) in Hu. discriminate.
  - destruct (IdentifyType (first :: rest)) as [[? ?] ?]. discriminate.
Qed.

(** C6 fails in the other direction.  The two volumes below agree on
    component count, brick overlap, number of levels and of timesteps, on
    every brick count and on the domain size of the finest level; at the
    second level one has the domain 2 x 2 x 2 and the other 2 x 2 x 1.
    MergeableDatasets accepts the pair and EvaluateExpression goes on to
    evaluate: inside its loops the test asks for the domain size without
    naming the level and the timestep. *)
Theorem MergeableDatasets_ignores_level :
  GetDomainSize volume_a 1 0 = vec3 2 2 2
  /\ GetDomainSize volume_b 1 0 = vec3 2 2 1
  /\ mergeable volume_a volume_b = false
  /\ MergeableDatasets volume_a volume_b = true
  /\ exists rdb bit_width is_float is_signed,
       EvaluateExpression 0 [volume_a; volume_b] u8_pyramid []
       = Evaluated rdb bit_width is_float is_signed.
Proof.
  repeat split; try reflexivity.
  do 4 eexists. vm_compute. reflexivity.
Qed.

End ExpressionFacts.

(* ===================================================================== *)
(** * Merging *)
(* ===================================================================== *)

Module MergeFacts.

Import Merging Spec Examples ExpressionFacts.

Local Open Scope string_scope.

(** ** The comparisons *)

Lemma same_type_share g m : same_type g m = true <-> share g m.
Proof.
  unfold same_type, share.
  rewrite !andb_true_iff, !Z.eqb_eq, !Bool.eqb_true_iff, vec3_eqb_eq.
  tauto.
Qed.

Lemma DATA_TYPE_CHECK_flag same errmsg st :
  fst (DATA_TYPE_CHECK same errmsg st) = same && fst st.
Proof. unfold DATA_TYPE_CHECK. destruct same; reflexivity. Qed.

Lemma DATA_TYPE_CHECK_stages same errmsg st :
  stages (snd (DATA_TYPE_CHECK same errmsg st)) = stages (snd st).
Proof. unfold DATA_TYPE_CHECK. destruct same; reflexivity. Qed.

Lemma uvf_checks_flag g m st :
  fst (uvf_checks g m st) = same_type g m && fst st.
Proof.
  unfold uvf_checks, same_type. rewrite !DATA_TYPE_CHECK_flag.
  repeat match goal with |- context [Z.eqb ?a ?b] => destruct (Z.eqb a b) end;
  repeat match goal with |- context [Bool.eqb ?a ?b] => destruct (Bool.eqb a b) end;
  repeat match goal with |- context [vec3_eqb ?a ?b] => destruct (vec3_eqb a b) end;
  reflexivity.
Qed.

Lemma uvf_checks_stages g m st :
  stages (snd (uvf_checks g m st)) = stages (snd st).
Proof. unfold uvf_checks. rewrite !DATA_TYPE_CHECK_stages. reflexivity. Qed.

Lemma warn_aspect_stages g m w : stages (warn_aspect g m w) = stages w.
Proof. unfold warn_aspect. destruct (vec3_eqb _ _); reflexivity. Qed.

(** ** The converter chain *)

Lemma try_converters_first_success cs name : forall flag out,
  try_converters cs name flag out =
  match first_success cs name with
  | Some r => (true, Some r)
  | None => (match cs with [] => flag | _ => false end, out)
  end.
Proof.
  induction cs as [| c cs IH]; intros flag out; simpl; [reflexivity |].
  destruct (ConvertToRAW c name) as [r |]; [reflexivity |].
  rewrite IH. destruct (first_success cs name); [reflexivity |].
  destruct cs; reflexivity.
Qed.

(** ** The cleaning loops touch neither messages nor stages *)

Lemma remove_intermediates_stages fs : forall w,
  stages (remove_intermediates fs w) = stages w.
Proof.
  induction fs as [| f fs IH]; intros w; simpl; [reflexivity |].
  rewrite IH. destruct (bDelete f && FileExists (strFilename f) w); reflexivity.
Qed.

Lemma remove_intermediates_messages fs : forall w,
  messages (remove_intermediates fs w) = messages w.
Proof.
  induction fs as [| f fs IH]; intros w; simpl; [reflexivity |].
  rewrite IH. destruct (bDelete f && FileExists (strFilename f) w); reflexivity.
Qed.

(** ** One input that makes it into the work list *)

(** What a turn of the loop does with such an input, by its type [m]:
    the first input sets the type to compare with; a later one is kept
    when it shares the six properties and stops the loop with the flag
    down and the error sent when it does not.  No stage is started. *)
Lemma input_converts io X strTempDir i name fScale fBias st m :
  converts io X name ->
  input_meta io X name = Some m ->
  (i <> 0%nat -> bRAWCreated st = true) ->
  let r := input io X strTempDir i name fScale fBias st in
  stages (world (snd r)) = stages (world st)
  /\ match i with
     | O => fst r = Continue /\ G (snd r) = m /\ bRAWCreated (snd r) = true
     | S _ =>
         if same_type (G st) m then
           fst r = Continue /\ G (snd r) = G st
           /\ bRAWCreated (snd r) = true
         else
           fst r = Break /\ bRAWCreated (snd r) = false
           /\ In (T_ERROR "Incompatible data types.")
                 (messages (world (snd r)))
     end.
Proof.
  unfold converts, input_meta, input, is_UVF.
  destruct (String.eqb (ToUpperCase (GetExt X name)) "UVF").
  - (* a UVF file *)
    intros [Hopen Hexport] Hmeta Hflag. rewrite Hopen in Hmeta.
    injection Hmeta as <-.
    unfold uvf_input. rewrite Hopen. cbn [negb].
    destruct i as [| i'].
    + rewrite Hexport. cbn. auto.
    + rewrite (Hflag ltac:(discriminate)).
      pose proof (uvf_checks_flag (G st) (uvf_meta (open_UVF X name))
                    (true, world st)) as Hfst.
      pose proof (uvf_checks_stages (G st) (uvf_meta (open_UVF X name))
                    (true, world st)) as Hstages.
      destruct (uvf_checks (G st) (uvf_meta (open_UVF X name))
                  (true, world st)) as [flag w'].
      cbn [fst snd] in Hfst, Hstages. rewrite andb_true_r in Hfst.
      subst flag.
      destruct (same_type (G st) (uvf_meta (open_UVF X name))); cbn [negb].
      * rewrite Hexport. cbn. rewrite warn_aspect_stages. auto.
      * cbn. split; [exact Hstages |]. repeat split.
        apply in_or_app. right. left. reflexivity.
  - (* any other file *)
    intros [Hid Hconv] Hmeta Hflag.
    unfold conversion in Hconv, Hmeta. unfold foreign_input.
    rewrite try_converters_first_success.
    destruct (first_success _ name) as [r |] eqn:Hfirst.
    + (* an identified converter succeeds *)
      cbn in Hmeta. injection Hmeta as <-.
      assert (Hfinal :
        match m_pFinalConverter io with
        | Some final =>
            if negb true then
              match ConvertToRAW final name with
              | Some r0 => (true, Some r0)
              | None => (false, Some r)
              end
            else (true, Some r)
        | None => (true, Some r)
        end = (true, Some r)) by (destruct (m_pFinalConverter io); reflexivity).
      rewrite Hfinal. cbn [negb out_created out_meta].
      destruct i as [| i']; [cbn; auto |].
      destruct (same_type (G st) (meta r)); cbn [negb].
      * cbn. rewrite warn_aspect_stages. auto.
      * cbn. repeat split. apply in_or_app. right. left. reflexivity.
    + (* all identified converters fail: the final converter *)
      destruct (identified io X name) as [| c0 cs0];
        [contradiction |].
      destruct (m_pFinalConverter io) as [final |]; [| contradiction].
      cbn [negb].
      destruct (ConvertToRAW final name) as [r |]; [| contradiction].
      cbn in Hmeta. injection Hmeta as <-.
      cbn [negb out_created out_meta].
      destruct i as [| i']; [cbn; auto |].
      destruct (same_type (G st) (meta r)); cbn [negb].
      * cbn. rewrite warn_aspect_stages. auto.
      * cbn. repeat split. apply in_or_app. right. left. reflexivity.
Qed.

Lemma converts_meta io X name :
  converts io X name -> exists m, input_meta io X name = Some m.
Proof.
  unfold converts, input_meta.
  destruct (is_UVF X name).
  - intros [-> _]. eauto.
  - intros [_ Hconv]. destruct (conversion io X name) as [r |];
      [cbn; eauto | contradiction].
Qed.

(** ** The loop, from the second input on *)

Lemma inputs_after_first io X strTempDir vScales vBiases names :
  forall i st,
    i <> 0%nat ->
    bRAWCreated st = true ->
    Forall (converts io X) names ->
    let r := inputs io X strTempDir vScales vBiases i names st in
    stages (world (snd r)) = stages (world st)
    /\ ((fst r = Continue /\ bRAWCreated (snd r) = true
         /\ forall n m, In n names -> input_meta io X n = Some m ->
                        share (G st) m)
        \/ (fst r = Break /\ bRAWCreated (snd r) = false
            /\ In (T_ERROR "Incompatible data types.")
                  (messages (world (snd r)))
            /\ exists n m, In n names /\ input_meta io X n = Some m
                           /\ ~ share (G st) m)).
Proof.
  induction names as [| name names IH]; intros i st Hi Hflag Hconv.
  - cbn. split; [reflexivity |]. left.
    split; [reflexivity |]. split; [exact Hflag |]. intros ? ? [].
  - inversion Hconv as [| ? ? Hname Hnames]; subst.
    destruct (converts_meta _ _ _ Hname) as [m Hm].
    pose proof (input_converts io X strTempDir i name
                  (nth i vScales 0) (nth i vBiases 0) st m Hname Hm
                  (fun _ => Hflag)) as Hstep.
    cbn zeta in Hstep. cbn [inputs].
    destruct (input io X strTempDir i name (nth i vScales 0)
                (nth i vBiases 0) st) as [flow st'].
    cbn [fst snd] in Hstep. destruct Hstep as [Hstages Hstep].
    destruct i as [| i']; [contradiction |].
    destruct (same_type (G st) m) eqn:Hsame.
    + destruct Hstep as (-> & HG & Hflag').
      specialize (IH (S (S i')) st' ltac:(discriminate) Hflag' Hnames).
      cbn zeta in IH. destruct IH as [Hstages' IH].
      split; [congruence |]. rewrite HG in IH.
      destruct IH as [(Hc & Hf & Hall) | (Hb & Hf & Herr & n & m' & Hin & Hn & Hns)].
      * left. split; [exact Hc |]. split; [exact Hf |].
        intros other m_other [<- | Hin0] Hn0.
        -- rewrite Hm in Hn0. injection Hn0 as <-.
           apply same_type_share, Hsame.
        -- eapply Hall; eauto.
      * right. split; [exact Hb |]. split; [exact Hf |].
        split; [exact Herr |]. exists n, m'.
        split; [right; exact Hin |]. split; [exact Hn | exact Hns].
    + destruct Hstep as (-> & Hf & Herr).
      split; [exact Hstages |]. right.
      split; [reflexivity |]. split; [exact Hf |]. split; [exact Herr |].
      exists name, m. split; [left; reflexivity |]. split; [exact Hm |].
      rewrite <- same_type_share, Hsame. discriminate.
Qed.

Lemma share_refl m : share m m.
Proof. unfold share. tauto. Qed.

Lemma share_trans_l g a b : share g a -> share g b -> share a b.
Proof. unfold share. intuition congruence. Qed.

(** The loops that remove the intermediate files do remove them. *)
Lemma remove_intermediates_files fs : forall w,
  files (remove_intermediates fs w) ⊆ files w.
Proof.
  induction fs as [| f fs IH]; intros w; cbn [remove_intermediates];
    [reflexivity |].
  etransitivity; [apply IH |].
  destruct (bDelete f && FileExists (strFilename f) w); [| reflexivity].
  cbn [remove files]. intros p Hp. apply elem_of_difference in Hp. apply Hp.
Qed.

Lemma remove_intermediates_removes fs : forall w f,
  In f fs -> bDelete f = true ->
  strFilename f ∉ files (remove_intermediates fs w).
Proof.
  induction fs as [| f0 fs IH]; intros w f; [intros [] |].
  cbn [remove_intermediates]. intros [-> | Hin] Hdel.
  - intros Hf. apply remove_intermediates_files in Hf. revert Hf.
    rewrite Hdel. unfold FileExists. cbn [andb].
    case_bool_decide as Hexists; [| exact Hexists].
    cbn [remove files]. rewrite elem_of_difference, elem_of_singleton.
    tauto.
  - apply IH; assumption.
Qed.

(** ** The files a call leaves behind *)

Lemma DATA_TYPE_CHECK_files same errmsg st :
  files (snd (DATA_TYPE_CHECK same errmsg st)) = files (snd st).
Proof. unfold DATA_TYPE_CHECK. destruct same; reflexivity. Qed.

Lemma uvf_checks_files g m st :
  files (snd (uvf_checks g m st)) = files (snd st).
Proof. unfold uvf_checks. rewrite !DATA_TYPE_CHECK_files. reflexivity. Qed.

Lemma warn_aspect_files g m w : files (warn_aspect g m w) = files w.
Proof. unfold warn_aspect. destruct (vec3_eqb _ _); reflexivity. Qed.

Lemma accounted_same io X names st st' :
  files (world st') = files (world st) ->
  vIntermediateFiles st' = vIntermediateFiles st ->
  accounted io X names st st'.
Proof.
  intros Hfiles Hlist. unfold accounted. rewrite Hfiles, Hlist. auto.
Qed.

Lemma accounted_pushed io X names st st' p f :
  files (world st') = {[ p ]} ∪ files (world st) ->
  vIntermediateFiles st' = (vIntermediateFiles st ++ [f])%list ->
  strFilename f = p ->
  bDelete f = true \/ kept_intermediate io X names p ->
  accounted io X names st st'.
Proof.
  intros Hfiles Hlist Hname Hkind. unfold accounted.
  rewrite Hfiles, Hlist. split; [| split].
  - intros q Hq. apply elem_of_union in Hq as [Hq | Hq]; [| left; exact Hq].
    apply elem_of_singleton in Hq. subst q. right. exists f.
    split; [apply in_or_app; right; left; reflexivity | exact Hname].
  - intros f' Hf'. apply in_or_app. left. exact Hf'.
  - intros f' Hf'. apply in_app_or in Hf' as [Hf' | [<- | []]];
      [left; exact Hf' | right].
    rewrite Hname. exact Hkind.
Qed.

Lemma input_accounted io X strTempDir i name fScale fBias st :
  converts io X name ->
  accounted io X [name] st
    (snd (input io X strTempDir i name fScale fBias st)).
Proof.
  unfold converts, input, is_UVF.
  destruct (String.eqb (ToUpperCase (GetExt X name)) "UVF").
  - (* a UVF file *)
    intros [Hopen Hexport].
    unfold uvf_input. rewrite Hopen. cbn [negb].
    destruct i as [| i'].
    + rewrite Hexport. cbn [negb snd].
      eapply accounted_pushed; cbn; auto.
    + pose proof (uvf_checks_files (G st) (uvf_meta (open_UVF X name))
                    (bRAWCreated st, world st)) as Hfiles.
      destruct (uvf_checks (G st) (uvf_meta (open_UVF X name))
                  (bRAWCreated st, world st)) as [flag w'].
      cbn [snd] in Hfiles.
      destruct flag; cbn [negb].
      * rewrite Hexport. cbn [negb snd].
        eapply accounted_pushed; cbn; try reflexivity; auto.
        rewrite warn_aspect_files, Hfiles. reflexivity.
      * cbn [snd]. apply accounted_same; cbn; auto.
  - (* any other file *)
    intros [Hid Hconv].
    unfold conversion in Hconv. unfold foreign_input.
    rewrite try_converters_first_success.
    assert (Hchain : exists r, conversion io X name = Some r /\
      (let (flag, out) :=
         match first_success (identified io X name) name with
         | Some r => (true, Some r)
         | None =>
             (match identified io X name with
              | [] => bRAWCreated st
              | _ :: _ => false
              end, None)
         end in
       match m_pFinalConverter io with
       | Some final =>
           if negb flag
           then match ConvertToRAW final name with
                | Some r => (true, Some r)
                | None => (false, out)
                end
           else (flag, out)
       | None => (flag, out)
       end) = (true, Some r)).
    { unfold conversion.
      destruct (first_success _ name) as [r |] eqn:Hfirst.
      - exists r. split; [reflexivity |].
        destruct (m_pFinalConverter io); reflexivity.
      - destruct (identified io X name);
          [contradiction |].
        destruct (m_pFinalConverter io) as [final |]; [| contradiction].
        cbn [negb].
        destruct (ConvertToRAW final name) as [r |]; [| contradiction].
        exists r. split; reflexivity. }
    destruct Hchain as (r & Hr & Hchain).
    cbn zeta in Hchain.
    destruct (first_success (identified io X name) name)
      as [r0 |] eqn:Hfirst.
    + rewrite Hchain. cbn [negb out_created out_meta intermediate].
      assert (Hkind : bDelete (intermediate (Some r) fScale fBias) = true
                      \/ kept_intermediate io X [name] (strIntermediateFile r)).
      { cbn. destruct (bDeleteIntermediateFile r) eqn:Hdel; [left; reflexivity |].
        right. exists name, r. cbn. auto. }
      destruct i as [| i']; [eapply accounted_pushed; cbn; eauto |].
      destruct (same_type (G st) (meta r)); cbn [negb snd];
        eapply accounted_pushed; cbn; eauto.
      rewrite warn_aspect_files. reflexivity.
    + rewrite Hchain. cbn [negb out_created out_meta intermediate].
      assert (Hkind : bDelete (intermediate (Some r) fScale fBias) = true
                      \/ kept_intermediate io X [name] (strIntermediateFile r)).
      { cbn. destruct (bDeleteIntermediateFile r) eqn:Hdel; [left; reflexivity |].
        right. exists name, r. cbn. auto. }
      destruct i as [| i']; [eapply accounted_pushed; cbn; eauto |].
      destruct (same_type (G st) (meta r)); cbn [negb snd];
        eapply accounted_pushed; cbn; eauto.
      rewrite warn_aspect_files. reflexivity.
Qed.

Lemma accounted_step io X name names st st' st'' :
  accounted io X [name] st st' ->
  accounted io X names st' st'' ->
  accounted io X (name :: names) st st''.
Proof.
  intros (Hfiles1 & Hgrow1 & Hnew1) (Hfiles2 & Hgrow2 & Hnew2).
  assert (Hhead : forall p, kept_intermediate io X [name] p ->
                            kept_intermediate io X (name :: names) p).
  { intros p (n & d & [Hn | []] & Hd). exists n, d.
    split; [left; exact Hn | exact Hd]. }
  assert (Htail : forall p, kept_intermediate io X names p ->
                            kept_intermediate io X (name :: names) p).
  { intros p (n & d & Hin & Hd). exists n, d.
    split; [right; exact Hin | exact Hd]. }
  split; [| split].
  - intros p Hp. destruct (Hfiles2 p Hp) as [Hp' | Hf]; [| right; exact Hf].
    destruct (Hfiles1 p Hp') as [Hp0 | (f & Hf & Hname)]; [left; exact Hp0 |].
    right. exists f. split; [apply Hgrow2, Hf | exact Hname].
  - intros f Hf. apply Hgrow2, Hgrow1, Hf.
  - intros f Hf. destruct (Hnew2 f Hf) as [Hf' | [Hdel | Hkept]].
    + destruct (Hnew1 f Hf') as [Hf0 | [Hdel | Hkept]]; auto.
    + auto.
    + auto.
Qed.

Lemma accounted_weaken io X name names st st' :
  accounted io X [name] st st' -> accounted io X (name :: names) st st'.
Proof.
  intros H. apply (accounted_step io X name names st st' st' H).
  apply accounted_same; reflexivity.
Qed.

Lemma inputs_accounted io X strTempDir vScales vBiases names :
  forall i st,
    Forall (converts io X) names ->
    accounted io X names st
      (snd (inputs io X strTempDir vScales vBiases i names st)).
Proof.
  induction names as [| name names IH]; intros i st Hconv.
  - apply accounted_same; reflexivity.
  - inversion Hconv as [| ? ? Hname Hnames]; subst.
    pose proof (input_accounted io X strTempDir i name
                  (nth i vScales 0) (nth i vBiases 0) st Hname) as Hstep.
    cbn [inputs].
    destruct (input io X strTempDir i name (nth i vScales 0)
                (nth i vBiases 0) st) as [[| | b] st'];
      cbn [snd] in Hstep.
    + eapply accounted_step; [exact Hstep | apply IH, Hnames].
    + apply accounted_weaken, Hstep.
    + apply accounted_weaken, Hstep.
Qed.

(** What the removal loop leaves of an accounted world. *)
Lemma accounted_removed io X names w st p :
  accounted io X names (mkMergeLoop zero_meta false [] w) st ->
  forall w', files w' = files (world st) ->
  p ∈ files (remove_intermediates (vIntermediateFiles st) w') ->
  p ∈ files w \/ kept_intermediate io X names p.
Proof.
  intros (Hfiles & _ & Hnew) w' Hw' Hp.
  assert (Hbefore : p ∈ files (world st)).
  { rewrite <- Hw'. apply (remove_intermediates_files _ _ _ Hp). }
  destruct (Hfiles p Hbefore) as [H0 | (f & Hf & <-)]; [left; exact H0 |].
  destruct (Hnew f Hf) as [[] | [Hdel | Hkept]]; [| right; exact Hkept].
  destruct (remove_intermediates_removes _ w' f Hf Hdel Hp).
Qed.

(** C3, amended. Provided every input makes it into the work list (a
    UVF file opens and exports, any other file is accepted by a registered
    converter and converted by the chain of the accepting converters, in
    whatever order the set hands them out, and the final converter),
    MergeDatasets returns success
    only if all inputs share bit width, component count, signedness,
    float-ness, endianness delta and domain size; and if some of these
    differ across the inputs it returns false, sends the error
    "Incompatible data types." and starts neither the merger nor a
    conversion to the target; a file that exists afterwards existed
    before or is an intermediate file whose converter did not ask for its
    deletion, so that neither the target nor merged.raw is left behind. *)
Theorem MergeDatasets_compatibility (io : IOManager) (X : Externals)
    (strFilenames : list string) (vScales vBiases : list Z)
    (strTargetFilename strTempDir : string) (bUseMaxMode : bool)
    (w : World)
    (Hconverts : Forall (converts io X) strFilenames) :
  let r := MergeDatasets io X strFilenames vScales vBiases
             strTargetFilename strTempDir bUseMaxMode w in
  (fst r = true -> all_share io X strFilenames)
  /\ (~ all_share io X strFilenames ->
      fst r = false
      /\ In (T_ERROR "Incompatible data types.") (messages (snd r))
      /\ stages (snd r) = stages w
      /\ forall p, p ∈ files (snd r) ->
           p ∈ files w \/ kept_intermediate io X strFilenames p).
Proof.
  cbn zeta. unfold MergeDatasets.
  destruct strFilenames as [| name names].
  - cbn. split; [discriminate |]. intros Hno. destruct Hno.
    intros a b ma mb [].
  - pose proof (inputs_accounted io X strTempDir vScales vBiases
                  (name :: names) 0 (mkMergeLoop zero_meta false [] w)
                  Hconverts) as Hacc.
    inversion Hconverts as [| ? ? Hname Hnames]; subst.
    destruct (converts_meta _ _ _ Hname) as [m Hm].
    pose proof (input_converts io X strTempDir 0 name
                  (nth 0 vScales 0) (nth 0 vBiases 0)
                  (mkMergeLoop zero_meta false [] w) m Hname Hm
                  (fun H => False_ind _ (H eq_refl))) as Hstep.
    cbn zeta in Hstep. cbn [inputs] in Hacc |- *.
    destruct (input io X strTempDir 0 name (nth 0 vScales 0)
                (nth 0 vBiases 0) (mkMergeLoop zero_meta false [] w))
      as [flow st1].
    cbn [fst snd world] in Hstep.
    destruct Hstep as (Hstages & -> & HG & Hflag).
    pose proof (inputs_after_first io X strTempDir vScales vBiases names
                  1 st1 ltac:(discriminate) Hflag Hnames) as Hloop.
    cbn zeta in Hloop.
    destruct (inputs io X strTempDir vScales vBiases 1 names st1)
      as [flow st2].
    cbn [fst snd] in Hloop, Hacc. rewrite HG in Hloop.
    destruct Hloop as [Hstages2 [(-> & Hf & Hall) | (-> & Hf & Herr & n & m' & Hin & Hn & Hns)]].
    + (* every input was kept *)
      assert (Hshare : all_share io X (name :: names)).
      { assert (Hm0 : forall a ma, In a (name :: names) ->
                  input_meta io X a = Some ma -> share m ma).
        { intros a ma [<- | Ha] Hma.
          - rewrite Hm in Hma. injection Hma as <-. apply share_refl.
          - eapply Hall; eauto. }
        intros a b ma mb Ha Hb Hma Hmb.
        eapply share_trans_l; eauto. }
      split; [intros _; exact Hshare | intros Hno; contradiction].
    + (* an input was turned away *)
      rewrite Hf. cbn [negb fst snd].
      split; [discriminate |]. intros _.
      split; [reflexivity |]. split.
      * cbn [messages say]. apply in_or_app. left.
        rewrite remove_intermediates_messages. cbn [messages say].
        apply in_or_app. left. exact Herr.
      * split.
        -- cbn [stages say]. rewrite remove_intermediates_stages.
           cbn [stages say]. congruence.
        -- intros p Hp. cbn [files say] in Hp.
           eapply accounted_removed; [exact Hacc | | exact Hp].
           reflexivity.
Qed.

Lemma MergeDatasets_compatibility_witness :
  let r := MergeDatasets flat_manager host ["a.dat"; "c.dat"] [1; 1] [0; 0]
             "out.uvf" "/tmp/" true empty_world in
  (fst r = true -> all_share flat_manager host ["a.dat"; "c.dat"])
  /\ (~ all_share flat_manager host ["a.dat"; "c.dat"] ->
      fst r = false
      /\ In (T_ERROR "Incompatible data types.") (messages (snd r))
      /\ stages (snd r) = stages empty_world
      /\ forall p, p ∈ files (snd r) ->
           p ∈ files empty_world
           \/ kept_intermediate flat_manager host ["a.dat"; "c.dat"] p).
Proof.
  apply (MergeDatasets_compatibility flat_manager host ["a.dat"; "c.dat"]
           [1; 1] [0; 0] "out.uvf" "/tmp/" true empty_world).
  repeat constructor; discriminate.
Defined.

(** Which converter gets a file that two converters accept depends on
    their addresses, not on the order of their registration. *)
Example conversion_by_address :
  option_map meta (conversion two_readers host "a.dat")
    = Some (flat_meta 8 false)
  /\ option_map meta (conversion two_readers reversed_host "a.dat")
     = Some (flat_meta 16 false).
Proof. split; reflexivity. Qed.

(** The inputs a.dat and c.dat do differ, in their bit widths. *)
Example a_and_c_differ : ~ all_share flat_manager host ["a.dat"; "c.dat"].
Proof.
  intros Hall.
  specialize (Hall "a.dat" "c.dat" (flat_meta 8 false) (flat_meta 16 false)).
  destruct Hall as [Hbits _]; cbn; auto. discriminate.
Qed.

(** C3, as stated, fails when an input in between cannot be converted.
    Of the three inputs the first holds bytes and the third 16 bit values,
    so the bit widths differ across the inputs; the second is accepted by
    the converter and fails to convert.  MergeDatasets stops at the second
    input and returns false, and the errors it sends are those of a failed
    conversion: "Incompatible data types." is not among them. *)
Lemma MergeDatasets_conversion_failure_first :
  let r := MergeDatasets flat_manager host ["a.dat"; "b.dat"; "c.dat"]
             [1; 1; 1] [0; 0; 0] "out.uvf" "/tmp/" true empty_world in
  input_meta flat_manager host "a.dat" = Some (flat_meta 8 false)
  /\ input_meta flat_manager host "c.dat" = Some (flat_meta 16 false)
  /\ ~ share (flat_meta 8 false) (flat_meta 16 false)
  /\ ~ all_share flat_manager host ["a.dat"; "b.dat"; "c.dat"]
  /\ fst r = false
  /\ messages (snd r) = [T_ERROR "No raw files.  Deleting temp files...";
                         T_ERROR "...  and bailing."]
  /\ ~ In (T_ERROR "Incompatible data types.") (messages (snd r)).
Proof.
  assert (Hdiffer : ~ share (flat_meta 8 false) (flat_meta 16 false)).
  { intros [Hbits _]. discriminate. }
  assert (Hmessages :
    messages (snd (MergeDatasets flat_manager host
                     ["a.dat"; "b.dat"; "c.dat"] [1; 1; 1] [0; 0; 0]
                     "out.uvf" "/tmp/" true empty_world))
    = [T_ERROR "No raw files.  Deleting temp files...";
       T_ERROR "...  and bailing."]) by (vm_compute; reflexivity).
  cbn zeta. rewrite Hmessages.
  split; [reflexivity |]. split; [reflexivity |]. split; [exact Hdiffer |].
  split.
  - intros Hall. apply Hdiffer.
    apply (Hall "a.dat" "c.dat"); cbn; auto.
  - split; [vm_compute; reflexivity |]. split; [reflexivity |].
    intros [H | [H | []]]; discriminate.
Qed.

(** C4 fails on the early returns.  The first input is converted to the
    intermediate file /tmp/a.dat.raw with its delete flag set; the second
    is a UVF file that cannot be opened.  MergeDatasets returns false from
    inside the input loop, and the intermediate file of the first input is
    still there. *)
Theorem MergeDatasets_leaves_intermediate :
  let r := MergeDatasets flat_manager host ["a.dat"; "b.uvf"] [1; 1] [0; 0]
             "out.uvf" "/tmp/" true empty_world in
  conversion flat_manager host "a.dat"
    = Some (mkRAW 0 (flat_meta 8 false) "/tmp/a.dat.raw" true)
  /\ fst r = false
  /\ messages (snd r) = [T_ERROR "Could not open 'b.uvf'!"]
  /\ "/tmp/a.dat.raw" ∈ files (snd r).
Proof.
  split; [reflexivity |]. split; [vm_compute; reflexivity |].
  split; [vm_compute; reflexivity |].
  apply (bool_decide_unpack _). vm_compute. exact I.
Qed.

(** The other early return: data marked float and unsigned. *)
Example MergeDatasets_unsigned_float :
  let r := MergeDatasets flat_manager host ["f.dat"] [1] [0]
             "out.uvf" "/tmp/" true empty_world in
  fst r = false
  /\ messages (snd r)
     = [T_ERROR "Don't know how to handle unsigned float data."]
  /\ "/tmp/f.dat.raw" ∈ files (snd r).
Proof.
  split; [vm_compute; reflexivity |]. split; [vm_compute; reflexivity |].
  apply (bool_decide_unpack _). vm_compute. exact I.
Qed.

(** A case the amended C3 leaves aside: a UVF input that fails to export
    ends the input loop with the flag still up.  Here the second input
    fails to export and the third has another domain size; the first
    alone is merged and the call succeeds. *)
Example export_failure_goes_unnoticed :
  let r := MergeDatasets flat_manager uvf_host ["a.uvf"; "b.uvf"; "c.uvf"]
             [1; 1; 1] [0; 0; 0] "out.uvf" "/tmp/" true empty_world in
  fst r = true
  /\ stages (snd r) = [StageMerge "/tmp/merged.raw";
                       StageRAWToUVF "/tmp/merged.raw" "out.uvf"].
Proof. split; vm_compute; reflexivity. Qed.

End MergeFacts.

(* ===================================================================== *)
(** * More on the brick statistics *)
(* ===================================================================== *)

Module StatsMore.

Import Stats Spec Examples Notions StatsFacts.

(** For one of the six integer types and a brick with a voxel, all voxels
    being values of the type, the minimum [minmax_input] returns is the
    minimum of the voxels, and the maximum it returns is the maximum of
    the voxels exactly when that maximum is not below the value the
    running maximum starts with (1 for the unsigned types, the negated
    largest value for the signed ones). *)
Theorem minmax_input_right (T : VoxelType) (v : Z) (data : list Z) (m : Z)
    (Hinteger : integer_type T = true)
    (Hvalues : Forall (is_value T) (v :: data))
    (Hmax : maximum (v :: data) = Some m) :
  Some (fst (minmax_input T (v :: data))) = minimum (v :: data)
  /\ (Some (snd (minmax_input T (v :: data))) = maximum (v :: data)
      <-> convert T (- numeric_limits_max T) <= m).
Proof.
  split; [apply minmax_input_minimum; assumption |].
  rewrite (minmax_input_maximum T v data m Hinteger Hmax), Hmax.
  split.
  - intros [= H]. lia.
  - intros H. f_equal. lia.
Qed.

Lemma minmax_input_right_witness :
  Some (fst (minmax_input U16 [3; 7; 5])) = minimum [3; 7; 5]
  /\ (Some (snd (minmax_input U16 [3; 7; 5])) = maximum [3; 7; 5]
      <-> convert U16 (- numeric_limits_max U16) <= 7).
Proof.
  apply (minmax_input_right U16 3 [7; 5] 7).
  - reflexivity.
  - repeat constructor; vm_compute; discriminate.
  - reflexivity.
Defined.

Lemma position_round_trip c b :
  0 < vx c -> 0 < vy c -> 0 < vz c ->
  Z.of_nat b < vx c * vy c * vz c ->
  0 <= vx (position c b) < vx c
  /\ 0 <= vy (position c b) < vy c
  /\ 0 <= vz (position c b) < vz c
  /\ linear_index c (position c b) = Z.of_nat b.
Proof.
  intros Hx Hy Hz Hb. unfold position, linear_index. cbn [vx vy vz].
  assert (Hxy : 0 < vx c * vy c) by lia.
  pose proof (Z.mod_pos_bound (Z.of_nat b) (vx c) Hx) as Hmx.
  pose proof (Z.mod_pos_bound (Z.of_nat b / vx c) (vy c) Hy) as Hmy.
  assert (Hdz : 0 <= Z.of_nat b / (vx c * vy c) < vz c).
  { split; [apply Z.div_pos; lia | apply Z.div_lt_upper_bound; lia]. }
  split; [exact Hmx |]. split; [exact Hmy |]. split; [exact Hdz |].
  rewrite <- (Z.div_div (Z.of_nat b) (vx c) (vy c)) by lia.
  pose proof (Z.div_mod (Z.of_nat b) (vx c) ltac:(lia)) as Hd1.
  pose proof (Z.div_mod (Z.of_nat b / vx c) (vy c) ltac:(lia)) as Hd2.
  set (q := Z.of_nat b / vx c) in *.
  set (qq := q / vy c) in *. set (r := q mod vy c) in *.
  set (x := Z.of_nat b mod vx c) in *.
  clearbody x r qq q. rewrite Hd1, Hd2. ring.
Qed.

(** [NDBrickIndex] and the linear order of the bricks are inverse to each
    other.  On a level with bricks along every axis whose number of bricks
    is a UINT64, and for a brick number that is a UINT64, [NDBrickIndex]
    returns; the 3D index of brick [b] lies within the brick counts and
    linearises back to [b] as long as [b] is below the number of bricks,
    and it is not a valid index from there on. *)
Theorem NDBrickIndex_round_trip (rdb : RasterDataBlock) (LoD b : nat)
    (Hproper : proper_level rdb LoD)
    (Hb : Z.of_nat b < 2 ^ 64) :
  let c := GetBrickCount rdb LoD in
  exists i,
    NDBrickIndex rdb LoD b = Returns i
    /\ ((b < brick_total rdb LoD)%nat ->
        0 <= vx i < vx c /\ 0 <= vy i < vy c /\ 0 <= vz i < vz c
        /\ linear_index c i = Z.of_nat b
        /\ ValidBrickIndex rdb LoD i = true)
    /\ ((brick_total rdb LoD <= b)%nat ->
        ValidBrickIndex rdb LoD i = false).
Proof.
  cbn zeta. exists (position (GetBrickCount rdb LoD) b).
  split; [apply NDBrickIndex_position; assumption |].
  rewrite (position_valid rdb LoD b Hproper).
  destruct Hproper as (Hlod & Hx & Hy & Hz & Hbound).
  split.
  - intros Hlt.
    destruct (position_round_trip (GetBrickCount rdb LoD) b Hx Hy Hz)
      as (Hpx & Hpy & Hpz & Hlin).
    { unfold brick_total in Hlt. lia. }
    split; [exact Hpx |]. split; [exact Hpy |]. split; [exact Hpz |].
    split; [exact Hlin | apply Nat.ltb_lt, Hlt].
  - intros Hge. apply Nat.ltb_ge, Hge.
Qed.

Lemma NDBrickIndex_round_trip_witness :
  let c := GetBrickCount u8_pyramid 0 in
  exists i,
    NDBrickIndex u8_pyramid 0 3 = Returns i
    /\ ((3 < brick_total u8_pyramid 0)%nat ->
        0 <= vx i < vx c /\ 0 <= vy i < vy c /\ 0 <= vz i < vz c
        /\ linear_index c i = Z.of_nat 3
        /\ ValidBrickIndex u8_pyramid 0 i = true)
    /\ ((brick_total u8_pyramid 0 <= 3)%nat ->
        ValidBrickIndex u8_pyramid 0 i = false).
Proof.
  apply (NDBrickIndex_round_trip u8_pyramid 0 3).
  - repeat split.
  - reflexivity.
Defined.

(** Where the product of the first two brick counts is a multiple of
    2^64, the UINT64 product is zero and the index cannot be computed. *)
Example NDBrickIndex_wraps :
  NDBrickIndex
    (mkRDB BS_REG_NDIM_GRID ES_RED 1 8 0 false (vec3 2 2 2)
       [mkLOD (vec3 (2 ^ 32) (2 ^ 32) 1) (fun _ _ _ => [])]) 0 0
  = DivisionByZero.
Proof. reflexivity. Qed.

Lemma entries_length T rdb n : forall LoD,
  length (entries T rdb LoD n)
  = list_sum (map (brick_total rdb) (seq LoD n)).
Proof.
  unfold entries, list_sum.
  induction n as [| n IH]; intros LoD; cbn [seq flat_map map fold_right];
    [reflexivity |].
  rewrite length_app, length_map, length_seq, IH. reflexivity.
Qed.

(** [MaxMin] emits one entry per brick.  On a block of 8, 16 or 32 bit
    integers with at least one level, every level having bricks along
    every axis and a number of bricks that is a UINT64, [MaxMin] returns;
    its result holds, level by level and brick by brick, what
    [get_brick_minmax] finds at the position of the brick, and has as
    many entries as the block has bricks. *)
Theorem MaxMin_length (rdb : RasterDataBlock) (T : VoxelType)
    (Htype : integer_voxels rdb = Some T)
    (Hlods : lods rdb <> [])
    (Hproper : forall LoD, (LoD < length (lods rdb))%nat ->
                           proper_level rdb LoD) :
  MaxMin rdb = Returns (entries T rdb 0 (length (lods rdb)))
  /\ length (entries T rdb 0 (length (lods rdb))) = brick_count rdb.
Proof.
  split; [apply MaxMin_all; assumption |].
  apply entries_length.
Qed.

Lemma u8_pyramid_proper LoD :
  (LoD < length (lods u8_pyramid))%nat -> proper_level u8_pyramid LoD.
Proof.
  destruct LoD as [| [| LoD]]; intros HLoD;
    [repeat split | repeat split |].
  cbn in HLoD. lia.
Qed.

Lemma MaxMin_length_witness :
  MaxMin u8_pyramid = Returns (entries U8 u8_pyramid 0 (length (lods u8_pyramid)))
  /\ length (entries U8 u8_pyramid 0 (length (lods u8_pyramid)))
     = brick_count u8_pyramid.
Proof.
  apply (MaxMin_length u8_pyramid U8).
  - reflexivity.
  - discriminate.
  - exact u8_pyramid_proper.
Defined.

(** The dispatch on a block of integers that are not 8, 16 or 32 bits
    wide: no brick gets past the assertions. *)
Lemma brick_entry_unsupported rdb LoD idx :
  ulElementMantissa rdb = 0 ->
  integer_voxels rdb = None ->
  brick_entry rdb LoD idx = AssertFails.
Proof.
  unfold integer_voxels, brick_entry. intros ->.
  rewrite !(Z.eqb_sym _ (ulElementBitSize rdb)).
  cbn [Z.eqb negb andb].
  destruct (Z.eqb_spec (ulElementBitSize rdb) 8); [discriminate |].
  destruct (Z.eqb_spec (ulElementBitSize rdb) 16); [discriminate |].
  destruct (Z.eqb_spec (ulElementBitSize rdb) 32); [discriminate |].
  intros _. rewrite !andb_false_r.
  destruct (bSignedElement rdb), (ulElementBitSize rdb =? 64); reflexivity.
Qed.

(** Integers of 64 bits are not supported, and no other width but 8, 16
    and 32 is: for a block of such integers whose finest level has bricks
    along every axis, the assertion behind the first brick fails, so that
    [MaxMin] emits nothing and [CreateUVFFromRDB] does not get to the
    histograms. *)
Theorem MaxMin_unsupported_integers (rdb : RasterDataBlock)
    (hist1d_size : RasterDataBlock -> Z)
    (Hinteger : ulElementMantissa rdb = 0)
    (Htype : integer_voxels rdb = None)
    (Hproper : proper_level rdb 0) :
  MaxMin rdb = AssertFails
  /\ CreateUVFFromRDB hist1d_size rdb = AssertFails.
Proof.
  assert (Hmm : MaxMin rdb = AssertFails).
  { unfold MaxMin. cbn [lods_from bricks_from].
    rewrite (NDBrickIndex_valid rdb 0 0 Hproper) by (cbn; lia).
    cbn [bind].
    assert (Htotal : (0 < brick_total rdb 0)%nat).
    { destruct Hproper as (_ & Hx & Hy & Hz & _). unfold brick_total. nia. }
    rewrite (proj2 (Nat.ltb_lt _ _) Htotal). cbn [negb].
    rewrite (NDBrickIndex_position rdb 0 0 Hproper) by (cbn; lia).
    cbn [bind].
    rewrite (brick_entry_unsupported rdb 0 _ Hinteger Htype).
    reflexivity. }
  split; [exact Hmm |].
  unfold CreateUVFFromRDB. rewrite Hmm. reflexivity.
Qed.

Lemma MaxMin_unsupported_integers_witness :
  MaxMin (mkRDB BS_REG_NDIM_GRID ES_RED 1 64 0 true (vec3 2 2 2)
            [mkLOD (vec3 2 1 1) (fun _ _ _ => [1; 2; 3])])
  = AssertFails
  /\ CreateUVFFromRDB (fun _ => 256)
       (mkRDB BS_REG_NDIM_GRID ES_RED 1 64 0 true (vec3 2 2 2)
          [mkLOD (vec3 2 1 1) (fun _ _ _ => [1; 2; 3])])
     = AssertFails.
Proof.
  apply (MaxMin_unsupported_integers
           (mkRDB BS_REG_NDIM_GRID ES_RED 1 64 0 true (vec3 2 2 2)
              [mkLOD (vec3 2 1 1) (fun _ _ _ => [1; 2; 3])])
           (fun _ => 256)).
  - reflexivity.
  - reflexivity.
  - repeat split.
Defined.

Lemma maximum_start_bounded T : convert T (- numeric_limits_max T) <= DBL_MAX.
Proof. rewrite maximum_start. destruct T; vm_compute; discriminate. Qed.

Lemma fold_max_bounded data : forall start bound,
  start <= bound -> List.Forall (fun v => v <= bound) data ->
  fold_left Z.max data start <= bound.
Proof.
  induction data as [| v data IH]; intros start bound Hstart Hdata;
    cbn [fold_left]; [exact Hstart |].
  inversion Hdata; subst. apply IH; [lia | assumption].
Qed.

Lemma entries_bounded T rdb n :
  (forall LoD idx,
     List.Forall (fun v => v <= DBL_MAX) (GetData rdb LoD idx)) ->
  forall LoD,
    List.Forall (fun i => y i <= DBL_MAX) (entries T rdb LoD n).
Proof.
  intros Hfinite. unfold entries.
  induction n as [| n IH]; intros LoD; cbn [seq flat_map]; [constructor |].
  apply List.Forall_app. split; [| apply IH].
  apply List.Forall_forall. intros i Hi.
  apply in_map_iff in Hi as (b & <- & _).
  unfold get_brick_minmax. cbn [y].
  rewrite minmax_input_folds. cbn [snd].
  apply fold_max_bounded; [apply maximum_start_bounded | apply Hfinite].
Qed.

(** What [CreateUVFFromRDB] adds to the raster block.  On a block of 8,
    16 or 32 bit integers with at least one level, every level having
    bricks along every axis and a number of bricks that is a UINT64, and
    no voxel above DBL_MAX, [CreateUVFFromRDB] returns: the min-max block
    holds the entries of the bricks in their order, and
    [Histogram2DDataBlock::Compute] is given the size of the 1D
    histogram and, as the maximum, DBL_MAX itself. *)
Theorem CreateUVFFromRDB_blocks (hist1d_size : RasterDataBlock -> Z)
    (rdb : RasterDataBlock) (T : VoxelType)
    (Htype : integer_voxels rdb = Some T)
    (Hlods : lods rdb <> [])
    (Hproper : forall LoD, (LoD < length (lods rdb))%nat ->
                           proper_level rdb LoD)
    (Hfinite : forall LoD idx,
       List.Forall (fun v => v <= DBL_MAX) (GetData rdb LoD idx)) :
  CreateUVFFromRDB hist1d_size rdb
  = Returns {| maxmin_block := entries T rdb 0 (length (lods rdb));
               hist2d_bins := hist1d_size rdb;
               hist2d_max := DBL_MAX |}.
Proof.
  unfold CreateUVFFromRDB.
  rewrite (MaxMin_all rdb T Htype Hlods Hproper). cbn [bind].
  rewrite (max_val_stays _ (entries_bounded T rdb _ Hfinite 0%nat)).
  reflexivity.
Qed.

Lemma CreateUVFFromRDB_blocks_witness :
  CreateUVFFromRDB (fun _ => 256) u8_pyramid
  = Returns {| maxmin_block :=
                 entries U8 u8_pyramid 0 (length (lods u8_pyramid));
               hist2d_bins := 256;
               hist2d_max := DBL_MAX |}.
Proof.
  apply (CreateUVFFromRDB_blocks (fun _ => 256) u8_pyramid U8).
  - reflexivity.
  - discriminate.
  - exact u8_pyramid_proper.
  - intros LoD idx. unfold GetData.
    destruct (ValidBrickIndex u8_pyramid LoD idx) eqn:Hvalid;
      [| constructor].
    destruct LoD as [| [| LoD]]; [| | discriminate Hvalid].
    + cbn. unfold ValidBrickIndex in Hvalid. cbn in Hvalid.
      apply andb_true_iff in Hvalid as [Hvalid _].
      apply andb_true_iff in Hvalid as [Hx Hy].
      apply Z.ltb_lt in Hx, Hy.
      repeat constructor; apply Z.leb_le.
      * assert (Hc : vx idx + 1 <= 2) by lia.
        apply Z.leb_le. apply (Z.le_trans _ 2 _ Hc).
        apply Z.leb_le. vm_compute. reflexivity.
      * assert (Hc : vy idx + 1 <= 2) by lia.
        apply Z.leb_le. apply (Z.le_trans _ 2 _ Hc).
        apply Z.leb_le. vm_compute. reflexivity.
      * vm_compute. reflexivity.
    + cbn. repeat constructor; apply Z.leb_le; vm_compute; reflexivity.
Defined.

End StatsMore.

(* ===================================================================== *)
(** * More on the expression evaluator *)
(* ===================================================================== *)

Module ExpressionMore.

Import Stats Expressions Spec Examples MoreExamples Notions ExpressionFacts.

Lemma forallb_seq_forall (f : nat -> bool) n :
  forallb f (seq 0 n) = true <-> forall i, (i < n)%nat -> f i = true.
Proof.
  rewrite forallb_forall. split.
  - intros H i Hi. apply H, in_seq. lia.
  - intros H i Hi. apply in_seq in Hi. apply H. lia.
Qed.

(** The test of [MergeableDatasets], taken apart. *)
Lemma MergeableDatasets_spec (a b : Dataset) :
  MergeableDatasets a b = true <->
  GetComponentCount a = GetComponentCount b
  /\ GetBrickOverlapSize a = GetBrickOverlapSize b
  /\ GetNumberOfTimesteps a = GetNumberOfTimesteps b
  /\ GetLODLevelCount a = GetLODLevelCount b
  /\ ((0 < GetNumberOfTimesteps a)%nat -> (0 < GetLODLevelCount a)%nat ->
      GetDomainSize a 0 0 = GetDomainSize b 0 0)
  /\ (forall ts level,
        (ts < GetNumberOfTimesteps a)%nat ->
        (level < GetLODLevelCount a)%nat ->
        External.GetBrickCount a level ts = External.GetBrickCount b level ts).
Proof.
  unfold MergeableDatasets, GetDomainSize_default.
  destruct (Z.eqb_spec (GetComponentCount a) (GetComponentCount b))
    as [Hc | Hc]; [| cbn; split; [discriminate | tauto]].
  destruct (vec3_eqb (GetBrickOverlapSize a) (GetBrickOverlapSize b))
    eqn:Ho; cbn [negb orb].
  2: { split; [discriminate |]. intros (_ & Ho' & _).
       apply vec3_eqb_eq in Ho'. congruence. }
  apply vec3_eqb_eq in Ho.
  destruct (Nat.eqb_spec (GetNumberOfTimesteps a) (GetNumberOfTimesteps b))
    as [Ht | Ht]; cbn [negb]; [| split; [discriminate | tauto]].
  destruct (Nat.eqb_spec (GetLODLevelCount a) (GetLODLevelCount b))
    as [Hl | Hl]; cbn [negb]; [| split; [discriminate | tauto]].
  rewrite forallb_seq_forall. split.
  - intros Hall. repeat (split; [assumption |]). split.
    + intros Hts Hlevel. specialize (Hall 0%nat Hts).
      rewrite forallb_seq_forall in Hall. specialize (Hall 0%nat Hlevel).
      rewrite negb_orb, !negb_involutive in Hall.
      apply andb_true_iff in Hall as [Hd _]. apply vec3_eqb_eq, Hd.
    + intros ts level Hts Hlevel. specialize (Hall ts Hts).
      rewrite forallb_seq_forall in Hall. specialize (Hall level Hlevel).
      rewrite negb_orb, !negb_involutive in Hall.
      apply andb_true_iff in Hall as [_ Hb]. apply vec3_eqb_eq, Hb.
  - intros (_ & _ & _ & _ & Hd & Hb) ts Hts.
    rewrite forallb_seq_forall. intros level Hlevel.
    rewrite negb_orb, !negb_involutive. apply andb_true_iff. split.
    + apply vec3_eqb_eq, Hd; lia.
    + apply vec3_eqb_eq, Hb; assumption.
Qed.

(** What [MergeableDatasets] tests.  Two datasets pass exactly when they
    agree on the component count, the brick overlap, the number of
    timesteps and the number of levels, on the brick count of every level
    at every timestep, and, provided there is a timestep and a level at
    all, on the one domain size that [GetDomainSize()] returns. *)
Theorem MergeableDatasets_iff (a b : Dataset) :
  MergeableDatasets a b = true <->
  GetComponentCount a = GetComponentCount b
  /\ GetBrickOverlapSize a = GetBrickOverlapSize b
  /\ GetNumberOfTimesteps a = GetNumberOfTimesteps b
  /\ GetLODLevelCount a = GetLODLevelCount b
  /\ ((0 < GetNumberOfTimesteps a)%nat -> (0 < GetLODLevelCount a)%nat ->
      GetDomainSize a 0 0 = GetDomainSize b 0 0)
  /\ (forall ts level,
        (ts < GetNumberOfTimesteps a)%nat ->
        (level < GetLODLevelCount a)%nat ->
        External.GetBrickCount a level ts = External.GetBrickCount b level ts).
Proof.
  unfold MergeableDatasets, GetDomainSize_default.
  destruct (Z.eqb_spec (GetComponentCount a) (GetComponentCount b))
    as [Hc | Hc]; [| cbn; split; [discriminate | tauto]].
  destruct (vec3_eqb (GetBrickOverlapSize a) (GetBrickOverlapSize b))
    eqn:Ho; cbn [negb orb].
  2: { split; [discriminate |]. intros (_ & Ho' & _).
       apply vec3_eqb_eq in Ho'. congruence. }
  apply vec3_eqb_eq in Ho.
  destruct (Nat.eqb_spec (GetNumberOfTimesteps a) (GetNumberOfTimesteps b))
    as [Ht | Ht]; cbn [negb]; [| split; [discriminate | tauto]].
  destruct (Nat.eqb_spec (GetLODLevelCount a) (GetLODLevelCount b))
    as [Hl | Hl]; cbn [negb]; [| split; [discriminate | tauto]].
  rewrite forallb_seq_forall. split.
  - intros Hall. repeat (split; [assumption |]). split.
    + intros Hts Hlevel. specialize (Hall 0%nat Hts).
      rewrite forallb_seq_forall in Hall. specialize (Hall 0%nat Hlevel).
      rewrite negb_orb, !negb_involutive in Hall.
      apply andb_true_iff in Hall as [Hd _]. apply vec3_eqb_eq, Hd.
    + intros ts level Hts Hlevel. specialize (Hall ts Hts).
      rewrite forallb_seq_forall in Hall. specialize (Hall level Hlevel).
      rewrite negb_orb, !negb_involutive in Hall.
      apply andb_true_iff in Hall as [_ Hb]. apply vec3_eqb_eq, Hb.
  - intros (_ & _ & _ & _ & Hd & Hb) ts Hts.
    rewrite forallb_seq_forall. intros level Hlevel.
    rewrite negb_orb, !negb_involutive. apply andb_true_iff. split.
    + apply vec3_eqb_eq, Hd; lia.
    + apply vec3_eqb_eq, Hb; assumption.
Qed.

(** Symmetry and transitivity of the test. *)
Lemma MergeableDatasets_sym_trans :
  (forall a, MergeableDatasets a a = true)
  /\ (forall a b, MergeableDatasets a b = true ->
                  MergeableDatasets b a = true)
  /\ (forall a b c, MergeableDatasets a b = true ->
                    MergeableDatasets b c = true ->
                    MergeableDatasets a c = true).
Proof.
  split; [| split].
  - intros a. apply MergeableDatasets_spec. repeat split; reflexivity.
  - intros a b Hab. apply MergeableDatasets_spec in Hab.
    destruct Hab as (Hc & Ho & Ht & Hl & Hd & Hb).
    apply MergeableDatasets_spec. rewrite <- Ht, <- Hl.
    repeat (split; [congruence |]). split.
    + intros Hts Hlevel. symmetry. apply Hd; assumption.
    + intros ts level Hts Hlevel. symmetry. apply Hb; assumption.
  - intros a b c Hab Hbc.
    apply MergeableDatasets_spec in Hab, Hbc.
    destruct Hab as (Hc & Ho & Ht & Hl & Hd & Hb).
    destruct Hbc as (Hc' & Ho' & Ht' & Hl' & Hd' & Hb').
    rewrite <- Ht, <- Hl in Hd', Hb'.
    apply MergeableDatasets_spec.
    repeat (split; [congruence |]). split.
    + intros Hts Hlevel. rewrite Hd, Hd'; auto.
    + intros ts level Hts Hlevel. rewrite Hb, Hb'; auto.
Qed.

(** [MergeableDatasets] is an equivalence: every dataset is mergeable
    with itself, and the test is symmetric and transitive. *)
Theorem MergeableDatasets_equivalence :
  (forall a, MergeableDatasets a a = true)
  /\ (forall a b, MergeableDatasets a b = true ->
                  MergeableDatasets b a = true)
  /\ (forall a b c, MergeableDatasets a b = true ->
                    MergeableDatasets b c = true ->
                    MergeableDatasets a c = true).
Proof.
  split; [| split].
  - intros a. apply MergeableDatasets_spec. repeat split; reflexivity.
  - intros a b Hab. apply MergeableDatasets_spec in Hab.
    destruct Hab as (Hc & Ho & Ht & Hl & Hd & Hb).
    apply MergeableDatasets_spec. rewrite <- Ht, <- Hl.
    repeat (split; [congruence |]). split.
    + intros Hts Hlevel. symmetry. apply Hd; assumption.
    + intros ts level Hts Hlevel. symmetry. apply Hb; assumption.
  - intros a b c Hab Hbc.
    apply MergeableDatasets_spec in Hab, Hbc.
    destruct Hab as (Hc & Ho & Ht & Hl & Hd & Hb).
    destruct Hbc as (Hc' & Ho' & Ht' & Hl' & Hd' & Hb').
    rewrite <- Ht, <- Hl in Hd', Hb'.
    apply MergeableDatasets_spec.
    repeat (split; [congruence |]). split.
    + intros Hts Hlevel. rewrite Hd, Hd'; auto.
    + intros ts level Hts Hlevel. rewrite Hb, Hb'; auto.
Qed.

(** Testing against the first volume is as good as testing all pairs:
    for an expression that parses, [EvaluateExpression] throws
    UnmergeableDatasets exactly when some two of its input volumes fail
    the test of [MergeableDatasets]. *)
Theorem EvaluateExpression_unmergeable
    (parse_err : Z) (uvf : list Dataset) (rdb1 : RasterDataBlock)
    (written : list LOD)
    (Hparse : parse_err <> 1) (Hvolumes : uvf <> []) :
  EvaluateExpression parse_err uvf rdb1 written
    = UnmergeableDatasets "Incompatible input volumes"
  <-> exists a b, In a uvf /\ In b uvf /\ MergeableDatasets a b = false.
Proof.
  destruct MergeableDatasets_sym_trans as (_ & Hsym & Htrans).
  unfold EvaluateExpression.
  destruct uvf as [| first rest]; [contradiction |].
  destruct (Z.eqb_spec parse_err 1) as [| _]; [contradiction |].
  destruct (existsb _ (first :: rest)) eqn:Hex.
  - split; [intros _ | reflexivity].
    apply existsb_exists in Hex as (u & Hin & Hu).
    exists first, u. split; [left; reflexivity |]. split; [exact Hin |].
    apply negb_true_iff, Hu.
  - destruct (IdentifyType (first :: rest)) as [[? ?] ?].
    split; [discriminate |]. intros (va & vb & Ha & Hb & Hab).
    assert (Hall : forall u, In u (first :: rest) ->
                             MergeableDatasets first u = true).
    { intros u Hu. apply not_false_iff_true. intros Hno.
      assert (Hyes : existsb (fun u => negb (MergeableDatasets first u))
                       (first :: rest) = true).
      { apply existsb_exists. exists u. split; [exact Hu |].
        rewrite Hno. reflexivity. }
      rewrite Hex in Hyes. discriminate. }
    rewrite (Htrans va first vb) in Hab; [discriminate | | apply Hall, Hb].
    apply Hsym, Hall, Ha.
Qed.

(** Three volumes of which the second and the third fail the test: the
    exception is thrown. *)
Lemma EvaluateExpression_unmergeable_witness :
  MergeableDatasets volume_a volume_f = true
  /\ MergeableDatasets volume_f volume_rgba = false
  /\ EvaluateExpression 0 [volume_a; volume_f; volume_rgba] volume_a_block []
     = UnmergeableDatasets "Incompatible input volumes".
Proof.
  split; [reflexivity |]. split; [reflexivity |].
  apply (EvaluateExpression_unmergeable 0 [volume_a; volume_f; volume_rgba]
           volume_a_block []).
  - discriminate.
  - discriminate.
  - exists volume_f, volume_rgba.
    split; [right; left; reflexivity |].
    split; [right; right; left; reflexivity | reflexivity].
Defined.

Lemma fold_right_max_nonneg l : 0 <= fold_right Z.max 0 l.
Proof. induction l as [| v l IH]; cbn; lia. Qed.

(** The destination type of several volumes taken together is the wider
    of the destination types of any two parts of them; in particular it
    does not depend on the order of the volumes. *)
Theorem IdentifyType_app (uvf1 uvf2 : list Dataset) :
  IdentifyType (uvf1 ++ uvf2)
  = (Z.max (fst (fst (IdentifyType uvf1))) (fst (fst (IdentifyType uvf2))),
     snd (fst (IdentifyType uvf1)) || snd (fst (IdentifyType uvf2)),
     snd (IdentifyType uvf1) || snd (IdentifyType uvf2))
  /\ IdentifyType (uvf1 ++ uvf2) = IdentifyType (uvf2 ++ uvf1).
Proof.
  assert (Happ : forall l1 l2,
    IdentifyType (l1 ++ l2)
    = (Z.max (fst (fst (IdentifyType l1))) (fst (fst (IdentifyType l2))),
       snd (fst (IdentifyType l1)) || snd (fst (IdentifyType l2)),
       snd (IdentifyType l1) || snd (IdentifyType l2))).
  { intros l1 l2. rewrite !IdentifyType_widest. unfold widest. cbn [fst snd].
    rewrite !existsb_app, map_app, fold_right_app.
    assert (Hmax : fold_right Z.max (fold_right Z.max 0 (map GetBitWidth l2))
                     (map GetBitWidth l1)
                   = Z.max (fold_right Z.max 0 (map GetBitWidth l1))
                           (fold_right Z.max 0 (map GetBitWidth l2)));
      [| rewrite Hmax; reflexivity].
    pose proof (fold_right_max_nonneg (map GetBitWidth l2)) as Hnn.
    revert Hnn. generalize (fold_right Z.max 0 (map GetBitWidth l2)).
    intros m Hm. induction (map GetBitWidth l1) as [| v l IH]; cbn; lia. }
  split; [apply Happ |].
  rewrite (Happ uvf1 uvf2), (Happ uvf2 uvf1).
  rewrite Z.max_comm, (orb_comm (snd (fst (IdentifyType uvf1)))),
    (orb_comm (snd (IdentifyType uvf1))).
  reflexivity.
Qed.

End ExpressionMore.

(* ===================================================================== *)
(** * More on the converter look-up *)
(* ===================================================================== *)

Module DispatchMore.

Import Spec Examples Notions DispatchFacts.

Local Open Scope string_scope.

Lemma ext_listed_eligible ext must c :
  (negb must || CanExportData c) && ext_listed ext (SupportedExt c) = true
  <-> eligible ext must c.
Proof.
  unfold eligible. rewrite andb_true_iff, ext_listed_true. split.
  - intros [Hfilter Hlisted]. split; [| exact Hlisted].
    intros ->. exact Hfilter.
  - intros [Hexport Hlisted]. split; [| exact Hlisted].
    destruct must; cbn; auto.
Qed.

(** The look-up goes by registration order.  When [GetConverterForExt]
    returns a converter, that converter passes the export filter and
    advertises the argument (in some letter case), and no converter
    registered before it does; when it returns nothing, no registered
    converter does. *)
Theorem GetConverterForExt_first (io : IOManager) (ext : string)
    (must : bool) :
  match GetConverterForExt io ext must with
  | Some c =>
      exists before after,
        m_vpConverters io = (before ++ c :: after)%list
        /\ eligible ext must c
        /\ List.Forall (fun c' => ~ eligible ext must c') before
  | None => List.Forall (fun c' => ~ eligible ext must c') (m_vpConverters io)
  end.
Proof.
  unfold GetConverterForExt.
  induction (m_vpConverters io) as [| c0 cs IH];
    cbn [GetConverterForExt_from]; [constructor |].
  pose proof (ext_listed_eligible ext must c0) as Hc0.
  destruct (negb must || CanExportData c0);
    [destruct (ext_listed ext (SupportedExt c0)) |]; cbn [andb] in Hc0.
  - exists [], cs. split; [reflexivity |]. split; [tauto | constructor].
  - destruct (GetConverterForExt_from cs ext must) as [c |].
    + destruct IH as (before & after & -> & Hc & Hbefore).
      exists (c0 :: before), after. split; [reflexivity |].
      split; [exact Hc |]. constructor; [| exact Hbefore].
      intros H. apply Hc0 in H. discriminate.
    + constructor; [| exact IH]. intros H. apply Hc0 in H. discriminate.
  - destruct (GetConverterForExt_from cs ext must) as [c |].
    + destruct IH as (before & after & -> & Hc & Hbefore).
      exists (c0 :: before), after. split; [reflexivity |].
      split; [exact Hc |]. constructor; [| exact Hbefore].
      intros H. apply Hc0 in H. discriminate.
    + constructor; [| exact IH]. intros H. apply Hc0 in H. discriminate.
Qed.

Lemma GetConverterForExt_from_app cs1 cs2 ext must :
  GetConverterForExt_from (cs1 ++ cs2) ext must
  = match GetConverterForExt_from cs1 ext must with
    | Some c => Some c
    | None => GetConverterForExt_from cs2 ext must
    end.
Proof.
  induction cs1 as [| c cs1 IH]; cbn [app GetConverterForExt_from];
    [reflexivity |].
  destruct (negb must || CanExportData c);
    [destruct (ext_listed ext (SupportedExt c)) |]; auto.
Qed.

(** Registering does not disturb what is found.  After
    [RegisterExternalConverter] every look-up that found a converter
    before finds the same one, and a look-up that found none finds the new
    converter if it passes the export filter and advertises the argument;
    [RegisterFinalConverter] changes no look-up at all. *)
Theorem GetConverterForExt_after_register (io : IOManager)
    (c : AbstrConverter) (ext : string) (must : bool) :
  GetConverterForExt (RegisterExternalConverter c io) ext must
  = match GetConverterForExt io ext must with
    | Some found => Some found
    | None =>
        if (negb must || CanExportData c) && ext_listed ext (SupportedExt c)
        then Some c else None
    end
  /\ GetConverterForExt (RegisterFinalConverter c io) ext must
     = GetConverterForExt io ext must.
Proof.
  split; [| reflexivity].
  unfold GetConverterForExt, RegisterExternalConverter.
  cbn [m_vpConverters]. rewrite GetConverterForExt_from_app.
  destruct (GetConverterForExt_from (m_vpConverters io) ext must);
    [reflexivity |].
  cbn [GetConverterForExt_from].
  destruct (negb must || CanExportData c);
    [destruct (ext_listed ext (SupportedExt c)) |]; reflexivity.
Qed.

(** An argument with an upper-case letter in it finds nothing. *)
Lemma GetConverterForExt_upper_witness :
  GetConverterForExt (IOManager_new [nrrd_converter] 256 4) "Nrrd" false
  = None.
Proof.
  apply (GetConverterForExt_upper (IOManager_new [nrrd_converter] 256 4)
           "Nrrd" false).
  discriminate.
Defined.

End DispatchMore.

(* ===================================================================== *)
(** * The format lists *)
(* ===================================================================== *)

Module FormatFacts.

Import Spec Examples Notions Formats DispatchFacts DispatchMore.

Local Open Scope string_scope.

Lemma append_assoc (a b c : string) : (a +:+ b) +:+ c = a +:+ (b +:+ c).
Proof.
  induction a as [| ch a IH]; [reflexivity |].
  change (String ch ((a +:+ b) +:+ c) = String ch (a +:+ (b +:+ c))).
  rewrite IH. reflexivity.
Qed.

Lemma append_empty_r (a : string) : a +:+ "" = a.
Proof.
  induction a as [| ch a IH]; [reflexivity |].
  change (String ch (a +:+ "") = String ch a). rewrite IH. reflexivity.
Qed.

Lemma concat_cons (s : string) (l : list string) :
  String.concat "" (s :: l) = s +:+ String.concat "" l.
Proof.
  destruct l; [symmetry; apply append_empty_r | reflexivity].
Qed.

Lemma concat_app (l1 l2 : list string) :
  String.concat "" (l1 ++ l2) = String.concat "" l1 +:+ String.concat "" l2.
Proof.
  induction l1 as [| s l1 IH]; [reflexivity |].
  change ((s :: l1) ++ l2)%list with (s :: (l1 ++ l2))%list.
  rewrite !concat_cons, IH, append_assoc. reflexivity.
Qed.

(** The three lists tell the same story: the import list is the format
    list without the export flags, and the export list is what remains
    of it when the entries that cannot export are struck. *)
Theorem format_lists_agree (io : IOManager) :
  GetImportFormatList io
  = map (fun '(e, d, _) => (e, d)) (GetFormatList io)
  /\ GetExportFormatList io
     = map (fun '(e, d, _) => (e, d))
           (List.filter (fun '(_, _, x) => x) (GetFormatList io)).
Proof.
  unfold GetImportFormatList, GetExportFormatList, GetFormatList.
  cbn [map List.filter]. split; f_equal.
  - induction (m_vpConverters io) as [| c cs IH]; cbn [flat_map map];
      [reflexivity |].
    rewrite map_app, <- IH, map_map. reflexivity.
  - induction (m_vpConverters io) as [| c cs IH]; cbn [flat_map];
      [reflexivity |].
    rewrite List.filter_app, map_app, <- IH. f_equal.
    induction (SupportedExt c) as [| e es IHe]; cbn [flat_map map List.filter];
      [reflexivity |].
    destruct (CanExportData c); cbn [app map]; rewrite IHe; reflexivity.
Qed.

Lemma In_GetFormatList io e d x :
  In (e, d, x) (tl (GetFormatList io)) <->
  exists c adv, In c (m_vpConverters io) /\ In adv (SupportedExt c)
                /\ e = ToLowerCase adv /\ d = GetDesc c
                /\ x = CanExportData c.
Proof.
  unfold GetFormatList. cbn [tl]. rewrite in_flat_map. split.
  - intros (c & Hc & Hin). apply in_map_iff in Hin as (adv & [= <- <- <-] & Hadv).
    exists c, adv. auto.
  - intros (c & adv & Hc & Hadv & -> & -> & ->).
    exists c. split; [exact Hc |]. apply in_map_iff. exists adv. auto.
Qed.

(** Listing and look-up fit together.  Every extension the format list
    shows for a converter is in lower case and is found by
    [GetConverterForExt], with the export requirement on when the entry
    is flagged as exporting; and whatever the look-up returns for an
    argument is listed with that argument as its extension. *)
Theorem format_list_lookup (io : IOManager) :
  (forall e d x, In (e, d, x) (tl (GetFormatList io)) ->
     ToLowerCase e = e
     /\ exists c, GetConverterForExt io e x = Some c)
  /\ (forall ext must c, GetConverterForExt io ext must = Some c ->
        In (ext, GetDesc c, CanExportData c) (tl (GetFormatList io))).
Proof.
  split.
  - intros e d x Hin.
    apply In_GetFormatList in Hin as (c & adv & Hc & Hadv & -> & -> & ->).
    split; [apply ToLowerCase_idempotent |].
    apply (GetConverterForExt_from_complete _ _ _ c Hc); [auto |].
    apply ext_listed_true. exists adv. auto.
  - intros ext must c Hget.
    apply GetConverterForExt_from_sound in Hget as (Hc & _ & adv & Hadv & ->).
    apply In_GetFormatList. exists c, adv. auto.
Qed.

Lemma dialog_entries c es : forall strDialog,
  fold_left (fun strDialog e =>
      if CanExportData c then
        strDialog +:+ (GetDesc c +:+ " (*." +:+ ToLowerCase e +:+ ");;")
      else strDialog) es strDialog
  = strDialog +:+
    String.concat ""
      (map (fun '(e, d) => d +:+ " (*." +:+ e +:+ ");;")
           (flat_map (fun e =>
              if CanExportData c then [(ToLowerCase e, GetDesc c)] else [])
              es)).
Proof.
  induction es as [| e es IH]; intros strDialog; cbn [fold_left flat_map map].
  - change (String.concat "" []) with "". rewrite append_empty_r. reflexivity.
  - rewrite IH. destruct (CanExportData c); cbn [app map]; [| reflexivity].
    rewrite concat_cons, !append_assoc. reflexivity.
Qed.

(** The export dialog offers the export list: the dialog string is made
    of one entry "description (*.ext);;" for every entry of the export
    format list after the UVF entry, in the order of the list. *)
Theorem export_dialog_is_export_list (io : IOManager) :
  GetExportDialogString io
  = String.concat ""
      (map (fun '(e, d) => d +:+ " (*." +:+ e +:+ ");;")
           (tl (GetExportFormatList io))).
Proof.
  unfold GetExportDialogString, GetExportFormatList. cbn [tl].
  assert (Hgen : forall cs strDialog,
    fold_left (fun strDialog c =>
      fold_left (fun strDialog e =>
        if CanExportData c then
          strDialog +:+ (GetDesc c +:+ " (*." +:+ ToLowerCase e +:+ ");;")
        else strDialog) (SupportedExt c) strDialog) cs strDialog
    = strDialog +:+
      String.concat ""
        (map (fun '(e, d) => d +:+ " (*." +:+ e +:+ ");;")
           (flat_map (fun c =>
              flat_map (fun e =>
                if CanExportData c then [(ToLowerCase e, GetDesc c)] else [])
                (SupportedExt c)) cs))).
  { induction cs as [| c cs IH]; intros strDialog; cbn [fold_left flat_map].
    - change (String.concat "" (map _ [])) with "".
      rewrite append_empty_r. reflexivity.
    - rewrite IH, dialog_entries, map_app, concat_app, append_assoc.
      reflexivity. }
  rewrite Hgen. reflexivity.
Qed.

End FormatFacts.

(* ===================================================================== *)
(** * More on the conversion of stacks *)
(* ===================================================================== *)

Module StackMore.

Import Stacks Spec Examples MoreExamples Notions StackFacts.

Local Open Scope string_scope.

Lemma swap2_length_le n : forall v, (length v <= n)%nat ->
  length (swap2 v) = length v /\ swap2 (swap2 v) = v.
Proof.
  induction n as [| n IH]; intros v Hlen.
  - destruct v; [split; reflexivity | cbn in Hlen; lia].
  - destruct v as [| a [| b rest]]; try (split; reflexivity).
    cbn [length] in Hlen.
    destruct (IH rest ltac:(lia)) as [Hl Hs].
    cbn [swap2 length]. rewrite Hl, Hs. split; reflexivity.
Qed.

Lemma swap4_length_le n : forall v, (length v <= n)%nat ->
  length (swap4 v) = length v /\ swap4 (swap4 v) = v.
Proof.
  induction n as [| n IH]; intros v Hlen.
  - destruct v; [split; reflexivity | cbn in Hlen; lia].
  - destruct v as [| a [| b [| c [| d rest]]]]; try (split; reflexivity).
    cbn [length] in Hlen.
    destruct (IH rest ltac:(lia)) as [Hl Hs].
    cbn [swap4 length]. rewrite Hl, Hs. split; reflexivity.
Qed.

Lemma firstn_skipn_front {A} (u b : list A) :
  firstn (length u) (u ++ b) = u /\ skipn (length u) (u ++ b) = b.
Proof.
  induction u as [| x u [IH1 IH2]]; [split; reflexivity |].
  cbn [length app firstn skipn]. rewrite IH1, IH2. split; reflexivity.
Qed.

(** Swapping a front of the buffer with a swap that keeps the length and
    undoes itself. *)
Lemma swap_front (f : list byte -> list byte) (m : nat) (v : list byte) :
  (forall u, length (f u) = length u) ->
  (forall u, f (f u) = u) ->
  length (f (firstn m v) ++ skipn m v)%list = length v
  /\ (f (firstn m (f (firstn m v) ++ skipn m v))
        ++ skipn m (f (firstn m v) ++ skipn m v))%list = v.
Proof.
  intros Hlen Hinv. split.
  - rewrite length_app, Hlen, <- length_app, firstn_skipn. reflexivity.
  - destruct (Nat.le_gt_cases m (length v)) as [Hle | Hgt].
    + assert (Hm : m = length (f (firstn m v)))
        by (rewrite Hlen, length_firstn; lia).
      destruct (firstn_skipn_front (f (firstn m v)) (skipn m v))
        as [H1 H2].
      rewrite <- Hm in H1, H2. rewrite H1, H2, Hinv.
      apply firstn_skipn.
    + rewrite (skipn_all2 v) by lia. rewrite app_nil_r.
      rewrite (firstn_all2 v) by lia.
      rewrite firstn_all2 by (rewrite Hlen; lia).
      rewrite skipn_all2 by (rewrite Hlen; lia).
      rewrite app_nil_r. apply Hinv.
Qed.

(** Within the buffer the swap keeps its size. *)
Lemma swap_endianness_length (allocated : Z) (n : nat) (v v' : list byte) :
  swap_endianness allocated n v = Some v' -> length v' = length v.
Proof.
  unfold swap_endianness.
  destruct (allocated =? 16)%Z.
  - destruct (_ <=? _)%nat; [| discriminate]. intros [= <-].
    apply swap_front; intros u;
      apply (swap2_length_le (length u) u (Nat.le_refl _)).
  - destruct (allocated =? 32)%Z; [| intros [= <-]; reflexivity].
    destruct (_ <=? _)%nat; [| discriminate]. intros [= <-].
    apply swap_front; intros u;
      apply (swap4_length_le (length u) u (Nat.le_refl _)).
Qed.

Lemma whole_groups (k n : nat) : (k * (n / k) <= n)%nat.
Proof.
  destruct k as [| k]; [cbn; lia |].
  apply Nat.Div0.mul_div_le.
Qed.

(** A data size within the buffer keeps the swap within the buffer. *)
Lemma swap_endianness_in_bounds (allocated : Z) (n : nat) (v : list byte) :
  (n <= length v)%nat ->
  exists v', swap_endianness allocated n v = Some v'.
Proof.
  intros Hn. unfold swap_endianness.
  pose proof (whole_groups 2 n) as H2. pose proof (whole_groups 4 n) as H4.
  destruct (allocated =? 16)%Z.
  - rewrite (proj2 (Nat.leb_le _ _)) by lia. eauto.
  - destruct (allocated =? 32)%Z; [| eauto].
    rewrite (proj2 (Nat.leb_le _ _)) by lia. eauto.
Qed.

(** On a payload of the size it is given the swap is [swapped]. *)
Lemma swap_endianness_swapped (allocated : Z) (v : list byte) :
  swap_endianness allocated (length v) v = Some (swapped allocated v).
Proof.
  unfold swap_endianness, swapped.
  pose proof (whole_groups 2 (length v)) as H2.
  pose proof (whole_groups 4 (length v)) as H4.
  destruct (allocated =? 16)%Z.
  - rewrite (proj2 (Nat.leb_le _ _)) by lia. reflexivity.
  - destruct (allocated =? 32)%Z; [| reflexivity].
    rewrite (proj2 (Nat.leb_le _ _)) by lia. reflexivity.
Qed.

(** The byte swap of the DICOM branch, as long as the data size it is
    given keeps it within the buffer: it keeps the size of the buffer and
    undoes itself, so that run twice with the same bit width and the same
    data size it gives the buffer back. *)
Theorem swap_endianness_involutive (allocated : Z) (n : nat)
    (v v' : list byte)
    (Hswap : swap_endianness allocated n v = Some v') :
  length v' = length v
  /\ swap_endianness allocated n v' = Some v.
Proof.
  unfold swap_endianness in *.
  destruct (allocated =? 16)%Z.
  - destruct (2 * (n / 2) <=? length v)%nat eqn:Hfit; [| discriminate].
    apply (inj Some) in Hswap. subst v'.
    destruct (swap_front swap2 (2 * (n / 2)) v) as [Hlen Hback].
    + intros u. apply (swap2_length_le (length u) u (Nat.le_refl _)).
    + intros u. apply (swap2_length_le (length u) u (Nat.le_refl _)).
    + split; [exact Hlen |]. rewrite Hlen, Hfit, Hback. reflexivity.
  - destruct (allocated =? 32)%Z; [| apply (inj Some) in Hswap; subst v'; auto].
    destruct (4 * (n / 4) <=? length v)%nat eqn:Hfit; [| discriminate].
    apply (inj Some) in Hswap. subst v'.
    destruct (swap_front swap4 (4 * (n / 4)) v) as [Hlen Hback].
    + intros u. apply (swap4_length_le (length u) u (Nat.le_refl _)).
    + intros u. apply (swap4_length_le (length u) u (Nat.le_refl _)).
    + split; [exact Hlen |]. rewrite Hlen, Hfit, Hback. reflexivity.
Qed.

Lemma swap_endianness_involutive_witness :
  length [x02; x01; x04; x03; x05] = length [x01; x02; x03; x04; x05]
  /\ swap_endianness 16 5 [x02; x01; x04; x03; x05]
     = Some [x01; x02; x03; x04; x05].
Proof.
  apply (swap_endianness_involutive 16 5 [x01; x02; x03; x04; x05]
           [x02; x01; x04; x03; x05]).
  reflexivity.
Defined.

(** A data size beyond the buffer takes the swap out of bounds. *)
Example swap_endianness_out_of_bounds :
  swap_endianness 16 4 [x01; x02] = None.
Proof. reflexivity. Qed.

Lemma write_element_state n buf alloc st st' :
  write_element n buf alloc st = Next st' ->
  components st' = (if (components st =? 3)%Z then 4 else components st)
  /\ allocated st' = alloc.
Proof.
  unfold write_element.
  destruct (components st =? 3)%Z.
  - destruct (_ && _); [| discriminate]. intros [= <-]. split; reflexivity.
  - destruct (_ <=? _)%nat; [| discriminate]. intros [= <-].
    split; reflexivity.
Qed.

Lemma dicom_element_state X j b e st st' :
  dicom_element X j b e st = Next st' ->
  components st' = (if (components st =? 3)%Z then 4 else components st)
  /\ allocated st' = (if j then BITS_IN_JSAMPLE X else allocated st).
Proof.
  unfold dicom_element, load_element. intros H.
  destruct j.
  - destruct (JPEG e) as [d |]; [| discriminate].
    destruct (_ <=? _)%nat; [| discriminate].
    destruct (negb _).
    + destruct (swap_endianness _ _ _); [| discriminate].
      apply write_element_state in H. exact H.
    + apply write_element_state in H. exact H.
  - destruct (negb _).
    + destruct (swap_endianness _ _ _); [| discriminate].
      apply write_element_state in H. exact H.
    + apply write_element_state in H. exact H.
Qed.

(** What the element loop leaves in the two fields of the stack it
    overwrites, once it has run over an element. *)
Lemma dicom_elements_state X j b es : forall st st',
  dicom_elements X j b es st = Complete st' ->
  es <> [] ->
  components st' = (if (components st =? 3)%Z then 4 else components st)
  /\ allocated st' = (if j then BITS_IN_JSAMPLE X else allocated st).
Proof.
  induction es as [| e rest IH]; intros st st' Hrun Hne; [contradiction |].
  cbn [dicom_elements] in Hrun.
  destruct (dicom_element X j b e st) as [| | st1] eqn:Hone;
    [discriminate | discriminate |].
  apply dicom_element_state in Hone as [Hc Ha].
  destruct rest as [| e' rest'].
  - injection Hrun as <-. split; assumption.
  - destruct (IH st1 st' Hrun ltac:(discriminate)) as [Hc' Ha'].
    rewrite Hc', Ha', Hc, Ha. split.
    + destruct (components st =? 3)%Z eqn:H3; [reflexivity |].
      rewrite H3. reflexivity.
    + destruct j; reflexivity.
Qed.

Lemma write_element_valid n buf alloc st :
  write_element n buf alloc st <> InvalidJPEG.
Proof.
  unfold write_element.
  destruct (components st =? 3)%Z;
    [destruct (_ && _) | destruct (_ <=? _)%nat]; discriminate.
Qed.

(** The element loop stops early only on a JPEG-encoded stack, at an
    element whose embedded image is not valid. *)
Lemma dicom_elements_stops X j b es : forall st name,
  dicom_elements X j b es st = Invalid name ->
  j = true
  /\ exists e, In e es /\ JPEG e = None /\ name = m_strFileName e.
Proof.
  induction es as [| e rest IH]; intros st name Hrun; [discriminate |].
  cbn [dicom_elements] in Hrun.
  destruct (dicom_element X j b e st) as [| | st1] eqn:Hone;
    [| discriminate |].
  - injection Hrun as <-. unfold dicom_element, load_element in Hone.
    destruct j.
    + destruct (JPEG e) eqn:Hjpeg.
      * exfalso. destruct (_ <=? _)%nat; [| discriminate].
        destruct (negb _);
          [destruct (swap_endianness _ _ _); [| discriminate] |];
          exact (write_element_valid _ _ _ _ Hone).
      * split; [reflexivity |]. exists e. split; [left; reflexivity | auto].
    + exfalso.
      destruct (negb _);
        [destruct (swap_endianness _ _ _); [| discriminate] |];
        exact (write_element_valid _ _ _ _ Hone).
  - destruct (IH st1 name Hrun) as (Hj & e' & Hin & Hbad & Hname).
    split; [exact Hj |]. exists e'. split; [right; exact Hin | auto].
Qed.

Lemma copy_over_length (src v : list byte) :
  (length src <= length v)%nat -> length (copy_over src v) = length v.
Proof.
  intros H. unfold copy_over. rewrite length_app, length_skipn. lia.
Qed.

Lemma resize_length (n : nat) (v : list byte) : length (resize n v) = n.
Proof.
  unfold resize. rewrite length_app, length_firstn, repeat_length. lia.
Qed.

Lemma write_element_in_bounds n buf alloc st rgb :
  (n <= length buf)%nat ->
  (components st = 3 -> rgb = true) ->
  negb rgb || (Z.of_nat (n / 3) * 4 <? 2 ^ 32)%Z = true ->
  write_element n buf alloc st <> OutOfBounds.
Proof.
  intros Hn Hrgb Hroom. unfold write_element.
  destruct (Z.eqb_spec (components st) 3) as [H3 | _].
  - rewrite (Hrgb H3) in Hroom. cbn [negb orb] in Hroom. rewrite Hroom.
    pose proof (whole_groups 3 n) as Hw.
    rewrite (proj2 (Nat.leb_le _ _)) by lia. discriminate.
  - rewrite (proj2 (Nat.leb_le _ _)) by lia. discriminate.
Qed.

(** A turn on an element that fits stays within the buffers. *)
Lemma dicom_element_in_bounds X j b e st rgb :
  fits j rgb e = true ->
  (components st = 3 -> rgb = true) ->
  dicom_element X j b e st <> OutOfBounds.
Proof.
  unfold fits, dicom_element, load_element.
  set (n := Z.to_nat (UINT32_wrap (GetDataSize e))).
  intros Hfits Hrgb. apply andb_true_iff in Hfits as [Hsize Hroom].
  assert (Hgo : forall buf alloc, (n <= length buf)%nat ->
            (if negb (Bool.eqb b (host_IsBigEndian X))
             then match swap_endianness alloc n buf with
                  | Some swapped => write_element n swapped alloc st
                  | None => OutOfBounds
                  end
             else write_element n buf alloc st) <> OutOfBounds).
  { intros buf alloc Hbuf.
    destruct (negb (Bool.eqb b (host_IsBigEndian X))).
    - destruct (swap_endianness_in_bounds alloc n buf Hbuf) as [v' Hv'].
      rewrite Hv'. apply (write_element_in_bounds _ _ _ _ rgb); auto.
      rewrite (swap_endianness_length _ _ _ _ Hv'). exact Hbuf.
    - apply (write_element_in_bounds _ _ _ _ rgb); auto. }
  destruct j.
  - destruct (JPEG e) as [d |]; [| discriminate].
    rewrite Hsize. apply Hgo.
    rewrite copy_over_length; rewrite resize_length; [lia |].
    apply Nat.leb_le, Hsize.
  - apply Hgo. apply Nat.leb_le, Hsize.
Qed.

(** The element loop leaves the buffers only at an element that does not
    fit. *)
Lemma dicom_elements_overrun X j b es : forall st rgb,
  dicom_elements X j b es st = Overrun ->
  (components st = 3 -> rgb = true) ->
  exists e, In e es /\ fits j rgb e = false.
Proof.
  induction es as [| e rest IH]; intros st rgb Hrun Hrgb; [discriminate |].
  cbn [dicom_elements] in Hrun.
  destruct (fits j rgb e) eqn:Hfits; [| exists e; split; [left |]; auto].
  pose proof (dicom_element_in_bounds X j b e st rgb Hfits Hrgb) as Hin.
  destruct (dicom_element X j b e st) as [| | st1] eqn:Hone;
    [discriminate | contradiction |].
  apply dicom_element_state in Hone as [Hc _].
  destruct (IH st1 rgb Hrun) as (e' & Hin' & Hfits').
  - intros H3. rewrite Hc in H3.
    destruct (Z.eqb_spec (components st) 3); [discriminate | contradiction].
  - exists e'. split; [right; exact Hin' | exact Hfits'].
Qed.

(** What the builder is told about a DICOM stack.  Whenever the
    conversion of a DICOM stack reaches the builder, the component count
    it passes is the stack's, with 4 in the place of 3; the component size
    is BITS_IN_JSAMPLE for a JPEG-encoded stack and the allocated bit
    width otherwise; the data are called signed exactly when that size is
    at least 32; a swap of the byte order is requested exactly when the
    stack and the host differ in it; and the flag returned is the
    builder's. *)
Theorem dicom_request (X : Externals) (pStack : FileStackInfo)
    (strTargetFilename strTempDir : string) (iMaxBrickSize iBrickOverlap : Z)
    (bQuantizeTo8Bit : bool) (w w' : World) (raw : list byte)
    (request : RAWCall) (result : bool)
    (Htype : m_strFileType pStack = "DICOM")
    (Hbuilt : ConvertDataset X pStack strTargetFilename strTempDir
                iMaxBrickSize iBrickOverlap bQuantizeTo8Bit w
              = Built raw request result w') :
  raw_iComponentCount request
    = (if (m_iComponentCount pStack =? 3)%Z then 4
       else m_iComponentCount pStack)
  /\ raw_iComponentSize request
     = (if m_bIsJPEGEncoded pStack then BITS_IN_JSAMPLE X
        else m_iAllocated pStack)
  /\ raw_bSigned request = (raw_iComponentSize request >=? 32)%Z
  /\ raw_bConvertEndianness request
     = negb (Bool.eqb (m_bIsBigEndian pStack) (host_IsBigEndian X))
  /\ raw_vVolumeSize request = stack_size pStack
  /\ result = ConvertRAWDataset X request.
Proof.
  unfold ConvertDataset in Hbuilt. rewrite Htype in Hbuilt.
  cbn [String.eqb Ascii.eqb Bool.eqb] in Hbuilt.
  destruct (negb (can_create X _)); [discriminate |].
  destruct (dicom_elements _ _ _ _ _) as [name | | st] eqn:Hloop;
    [discriminate | discriminate |].
  destruct (m_Elements pStack) as [| first rest] eqn:Hes; [discriminate |].
  apply dicom_elements_state in Hloop as [Hc Ha]; [| discriminate].
  cbn [components allocated] in Hc, Ha.
  unfold run_ConvertRAWDataset in Hbuilt.
  match type of Hbuilt with
  | context [ConvertRAWDataset X ?r] =>
      set (req := r) in *; destruct (ConvertRAWDataset X req) eqn:Hres
  end; injection Hbuilt as _ <- <- _; rewrite Hres; subst req;
    cbn [raw_iComponentCount raw_iComponentSize raw_bSigned
         raw_bConvertEndianness raw_vVolumeSize];
    rewrite Hc, Ha; repeat split; reflexivity.
Qed.

Lemma dicom_request_witness :
  exists raw request result w',
    ConvertDataset host rgb_stack_1x1x2 "out.uvf" "/tmp/" 256 4 false
      empty_world = Built raw request result w'
    /\ raw_iComponentCount request = 4
    /\ raw_iComponentSize request = 8
    /\ raw_bSigned request = false
    /\ raw_bConvertEndianness request = false
    /\ raw_vVolumeSize request = vec3 1 1 2
    /\ result = true.
Proof.
  do 4 eexists. split; [reflexivity |].
  eapply (dicom_request host rgb_stack_1x1x2 "out.uvf" "/tmp/" 256 4 false
            empty_world).
  - reflexivity.
  - reflexivity.
Defined.

Lemma not_in_removed (p : string) (w : World) : p ∉ files (remove p w).
Proof.
  cbn [files remove]. intros H. apply elem_of_difference in H as [_ H].
  apply H, elem_of_singleton. reflexivity.
Qed.

Lemma in_removed_created (p q t : string) (s : gset string) :
  p ∈ ({[ t ]} ∪ ({[ q ]} ∪ s)) ∖ {[ q ]} -> p ∈ s \/ p = t.
Proof.
  intros H. apply elem_of_difference in H as [H Hq].
  apply elem_of_union in H as [H | H].
  - right. apply elem_of_singleton in H. exact H.
  - apply elem_of_union in H as [H | H]; [| left; exact H].
    destruct Hq. exact H.
Qed.

Lemma in_removed (p q : string) (s : gset string) :
  p ∈ ({[ q ]} ∪ s) ∖ {[ q ]} -> p ∈ s.
Proof.
  intros H. apply elem_of_difference in H as [H Hq].
  apply elem_of_union in H as [H | H]; [destruct Hq |]; exact H.
Qed.

(** The life of the temp file.  Whatever the stack: when the builder is
    reached the temp file is gone afterwards, the builder is the only
    stage that ran, neither an error nor a warning was reported (the
    removal is taken to succeed), and no file is new but the target
    of a builder that succeeded.  When the conversion is aborted no stage
    ran and one error was reported; the files are as they were, except
    for a JPEG-encoded stack with an element whose image is invalid,
    where the temp file is left behind.  The behaviour is undefined only
    for a stack without elements and for a DICOM stack with an element
    that does not fit its buffers. *)
Theorem ConvertDataset_temp_file (X : Externals) (pStack : FileStackInfo)
    (strTargetFilename strTempDir : string) (iMaxBrickSize iBrickOverlap : Z)
    (bQuantizeTo8Bit : bool) (w : World) :
  let strTempMergeFilename :=
    strTempDir +:+ GetFilename X strTargetFilename +:+ "~" in
  match ConvertDataset X pStack strTargetFilename strTempDir iMaxBrickSize
          iBrickOverlap bQuantizeTo8Bit w with
  | Undefined =>
      m_Elements pStack = []
      \/ (m_strFileType pStack = "DICOM"
          /\ exists e,
               In e (m_Elements pStack)
               /\ fits (m_bIsJPEGEncoded pStack)
                       (m_iComponentCount pStack =? 3)%Z e = false)
  | Aborted w' =>
      stages w' = stages w
      /\ (exists text, messages w' = (messages w ++ [T_ERROR text])%list)
      /\ (files w' = files w
          \/ (files w' = {[ strTempMergeFilename ]} ∪ files w
              /\ m_strFileType pStack = "DICOM"
              /\ m_bIsJPEGEncoded pStack = true
              /\ exists e, In e (m_Elements pStack) /\ JPEG e = None))
  | Built raw request result w' =>
      (strTempMergeFilename ∉ files w')
      /\ raw_strFilename request = strTempMergeFilename
      /\ stages w'
         = (stages w
            ++ [StageRAWToUVF strTempMergeFilename strTargetFilename])%list
      /\ messages w' = messages w
      /\ (forall p, p ∈ files w' ->
            p ∈ files w \/ (p = strTargetFilename /\ result = true))
  end.
Proof.
  intros temp. unfold ConvertDataset. fold temp.
  destruct (String.eqb (m_strFileType pStack) "DICOM") eqn:Hdicom.
  - destruct (can_create X temp); cbn [negb].
    + destruct (dicom_elements _ _ _ _ _) as [name | | st] eqn:Hloop.
      * apply dicom_elements_stops in Hloop as (Hj & e & Hin & Hbad & _).
        split; [reflexivity |]. split; [eexists; reflexivity |].
        right. split; [reflexivity |].
        apply String.eqb_eq in Hdicom. eauto.
      * right. apply String.eqb_eq in Hdicom. split; [exact Hdicom |].
        apply (dicom_elements_overrun _ _ _ _ _ _ Hloop).
        cbn [components]. intros ->. reflexivity.
      * destruct (m_Elements pStack) as [| first rest];
          [left; reflexivity |].
        unfold run_ConvertRAWDataset.
        match goal with
        | |- context [ConvertRAWDataset X ?r] =>
            set (req := r); destruct (ConvertRAWDataset X req)
        end; (split; [apply not_in_removed |]);
          (split; [reflexivity |]); (split; [reflexivity |]);
          (split; [reflexivity |]); intros p Hp; cbn in Hp.
        -- apply in_removed_created in Hp as [Hp | Hp]; auto.
        -- apply in_removed in Hp. auto.
    + split; [reflexivity |]. split; [eexists; reflexivity |].
      left. reflexivity.
  - destruct (String.eqb (m_strFileType pStack) "IMAGE").
    + destruct (can_create X temp); cbn [negb].
      * destruct (m_Elements pStack) as [| first rest];
          [left; reflexivity |].
        unfold run_ConvertRAWDataset.
        match goal with
        | |- context [ConvertRAWDataset X ?r] =>
            set (req := r); destruct (ConvertRAWDataset X req)
        end; (split; [apply not_in_removed |]);
          (split; [reflexivity |]); (split; [reflexivity |]);
          (split; [reflexivity |]); intros p Hp; cbn in Hp.
        -- apply in_removed_created in Hp as [Hp | Hp]; auto.
        -- apply in_removed in Hp. auto.
      * split; [reflexivity |]. split; [eexists; reflexivity |].
        left. reflexivity.
    + split; [reflexivity |]. split; [eexists; reflexivity |].
      left. reflexivity.
Qed.

Lemma dicom_element_passes (X : Externals) (b : bool) (e : StackElement)
    (st : DICOMLoop) :
  components st <> 3 ->
  sized e ->
  exists v,
    dicom_element X false b e st
    = Next {| vData := v;
              allocated := allocated st; components := components st;
              written := (written st ++
                if negb (Bool.eqb b (host_IsBigEndian X))
                then swapped (allocated st) (GetData e)
                else GetData e)%list |}.
Proof.
  intros Hc [Hsize Hbound]. unfold dicom_element, load_element.
  rewrite Hsize.
  assert (Hwrap : UINT32_wrap (Z.of_nat (length (GetData e)))
                  = Z.of_nat (length (GetData e))).
  { unfold UINT32_wrap. apply Z.mod_small. lia. }
  rewrite Hwrap, Nat2Z.id.
  destruct (negb _).
  - rewrite swap_endianness_swapped.
    pose proof (swap_endianness_length _ _ _ _
                  (swap_endianness_swapped (allocated st) (GetData e)))
      as Hlen.
    unfold write_element.
    destruct (Z.eqb_spec (components st) 3) as [H3 | _]; [contradiction |].
    rewrite Hlen, Nat.leb_refl.
    eexists. rewrite firstn_all2 by lia. reflexivity.
  - unfold write_element.
    destruct (Z.eqb_spec (components st) 3) as [H3 | _]; [contradiction |].
    rewrite Nat.leb_refl.
    eexists. rewrite firstn_all2 by lia. reflexivity.
Qed.

Lemma dicom_elements_pass (X : Externals) (pStack : FileStackInfo) es :
  forall st,
  components st <> 3 ->
  allocated st = m_iAllocated pStack ->
  List.Forall sized es ->
  exists v,
    dicom_elements X false (m_bIsBigEndian pStack) es st
    = Complete {| vData := v;
                  allocated := allocated st; components := components st;
                  written := (written st
                              ++ concat (map (stored X pStack) es))%list |}.
Proof.
  induction es as [| e rest IH]; intros st Hc Ha Hall.
  - exists (vData st). cbn [dicom_elements map concat].
    rewrite app_nil_r. destruct st; reflexivity.
  - inversion Hall as [| ? ? He Hrest]; subst.
    destruct (dicom_element_passes X (m_bIsBigEndian pStack) e st Hc He)
      as [v Hone].
    cbn [dicom_elements]. rewrite Hone.
    match goal with
    | |- context [dicom_elements _ _ _ rest ?s] =>
        destruct (IH s Hc Ha Hrest) as [v' Hrun]
    end.
    exists v'. rewrite Hrun. cbn [written allocated components map concat].
    unfold stored at 2. rewrite Ha, <- app_assoc. reflexivity.
Qed.



(** Only the first element of an RGB stack is padded.  For a DICOM stack
    of three components that is not JPEG-encoded, stored in the byte
    order of the host, whose first element is made of whole triples and
    whose elements report the size of their payload, the temp file is the
    first payload with 255 after every triple, followed by the payloads
    of all later elements as they are; the builder is told there are
    four components. *)
Theorem dicom_rgb_only_first_padded (X : Externals)
    (pStack : FileStackInfo) (first : StackElement)
    (rest : list StackElement)
    (strTargetFilename strTempDir : string) (iMaxBrickSize iBrickOverlap : Z)
    (bQuantizeTo8Bit : bool) (w : World) (k : nat)
    (Htype : m_strFileType pStack = "DICOM")
    (Htemp : can_create X
               (strTempDir +:+ GetFilename X strTargetFilename +:+ "~")
             = true)
    (Helements : m_Elements pStack = first :: rest)
    (Hcount : m_iComponentCount pStack = 3)
    (Hjpeg : m_bIsJPEGEncoded pStack = false)
    (Hendian : m_bIsBigEndian pStack = host_IsBigEndian X)
    (Hsize : GetDataSize first = Z.of_nat (length (GetData first)))
    (Htriples : length (GetData first) = (3 * k)%nat)
    (Hbound : Z.of_nat (4 * k) < 2 ^ 32)
    (Hsized : List.Forall sized rest) :
  exists request result w',
    ConvertDataset X pStack strTargetFilename strTempDir iMaxBrickSize
      iBrickOverlap bQuantizeTo8Bit w
    = Built (pad_RGBA (GetData first) ++ concat (map GetData rest))%list
            request result w'
    /\ raw_iComponentCount request = 4.
Proof.
  unfold ConvertDataset. rewrite Htype, Htemp, Helements, Hjpeg.
  cbn [String.eqb Ascii.eqb Bool.eqb negb dicom_elements].
  rewrite (dicom_element_pads X _ first _ k) by assumption.
  match goal with
  | |- context [dicom_elements _ _ _ rest ?s] =>
      destruct (dicom_elements_pass X pStack rest s) as [v Hrun];
        [cbn [components]; lia | reflexivity | exact Hsized |]
  end.
  rewrite Hrun. cbn [written allocated components app].
  assert (Hstored : map (stored X pStack) rest = map GetData rest).
  { apply map_ext. intros e. unfold stored.
    rewrite Hendian, Bool.eqb_reflx. reflexivity. }
  rewrite Hstored. unfold run_ConvertRAWDataset.
  match goal with
  | |- context [ConvertRAWDataset X ?r] =>
      set (request := r); destruct (ConvertRAWDataset X request)
  end; (do 3 eexists; split; [reflexivity |]; reflexivity).
Qed.

Lemma dicom_rgb_only_first_padded_witness :
  exists request result w',
    ConvertDataset host rgb_stack_1x1x2 "out.uvf" "/tmp/" 256 4 false
      empty_world
    = Built [x01; x02; x03; xff; x01; x02; x03] request result w'
    /\ raw_iComponentCount request = 4.
Proof.
  apply (dicom_rgb_only_first_padded host rgb_stack_1x1x2
           (rgb_slice "0001.dcm" 1) [rgb_slice "0002.dcm" 1]
           "out.uvf" "/tmp/" 256 4 false empty_world 1).
  - reflexivity.
  - reflexivity.
  - reflexivity.
  - reflexivity.
  - reflexivity.
  - reflexivity.
  - reflexivity.
  - reflexivity.
  - reflexivity.
  - repeat constructor.
Defined.


End StackMore.

(* ===================================================================== *)
(** * Scanning a directory *)
(* ===================================================================== *)

Module ScanFacts.

Import Stacks Scanning Spec Examples MoreExamples Notions.

Lemma UINT64_wrap_small z : 0 <= z < 2 ^ 64 -> UINT64_wrap z = z.
Proof. intros H. unfold UINT64_wrap. apply Z.mod_small. exact H. Qed.

(** After an erase the index is where it was, also at zero. *)
Lemma UINT64_wrap_back z :
  0 <= z < 2 ^ 64 -> UINT64_wrap (UINT64_wrap (z - 1) + 1) = z.
Proof.
  intros H. unfold UINT64_wrap.
  rewrite Z.add_mod_idemp_l by lia.
  replace (z - 1 + 1) with z by lia. apply Z.mod_small. exact H.
Qed.

Lemma invalid_element_spec es : forall i,
  0 <= i -> i + Z.of_nat (length es) < 2 ^ 64 ->
  invalid_element es i
  = if forallb (fun e => bool_decide (JPEG e <> None)) es then None
    else Some (i + Z.of_nat (valid_prefix es)).
Proof.
  induction es as [| e rest IH]; intros i Hi Hfit; [reflexivity |].
  cbn [invalid_element forallb valid_prefix length] in *.
  destruct (JPEG e) as [image |].
  - rewrite bool_decide_true by discriminate. cbn [andb].
    rewrite UINT64_wrap_small by lia. rewrite IH by lia.
    destruct (forallb _ rest); [reflexivity |]. f_equal. lia.
  - rewrite bool_decide_false by (intros H; apply H; reflexivity).
    cbn [andb]. f_equal. lia.
Qed.

Lemma jpeg_test f :
  fits_size_t (m_Elements f) ->
  (if m_bIsJPEGEncoded f then invalid_element (m_Elements f) 0 else None)
  = if loadable f then None
    else Some (Z.of_nat (valid_prefix (m_Elements f))).
Proof.
  intros Hfit. unfold loadable, fits_size_t in *.
  destruct (m_bIsJPEGEncoded f); [| reflexivity]. cbn [negb orb].
  rewrite invalid_element_spec by lia. reflexivity.
Qed.

Lemma erase_middle {A} (kept rest : list A) (f : A) :
  erase (length kept) (kept ++ f :: rest) = kept ++ rest.
Proof.
  unfold erase.
  rewrite (proj1 (StackMore.firstn_skipn_front kept (f :: rest))).
  f_equal.
  replace (S (length kept)) with (length (kept ++ [f]))
    by (rewrite length_app; cbn [length]; lia).
  replace (kept ++ f :: rest) with ((kept ++ [f]) ++ rest)
    by (rewrite <- app_assoc; reflexivity).
  apply StackMore.firstn_skipn_front.
Qed.

Lemma nth_error_middle {A} (kept rest : list A) (f : A) :
  nth_error (kept ++ f :: rest) (length kept) = Some f.
Proof.
  rewrite nth_error_app2 by lia. rewrite Nat.sub_diag. reflexivity.
Qed.

(** The sorting loop, seen from a turn on: [kept] are the stacks in front
    of the index. *)
Lemma sort_out_from rest : forall fuel kept warnings,
  (length rest <= fuel)%nat ->
  fits_size_t (kept ++ rest) ->
  List.Forall (fun f => fits_size_t (m_Elements f)) rest ->
  sort_out fuel (Z.of_nat (length kept)) (kept ++ rest) warnings
  = Some (kept ++ List.filter loadable rest,
          warnings ++ reported (length kept) rest).
Proof.
  induction rest as [| f rest IH]; intros fuel kept warnings Hfuel Hfit Hall.
  - cbn [List.filter reported]. rewrite !app_nil_r in *.
    destruct fuel; cbn [sort_out]; rewrite Z.ltb_irrefl; reflexivity.
  - inversion Hall as [| ? ? Hf Hrest]; subst.
    unfold fits_size_t in Hfit. rewrite length_app in Hfit.
    cbn [length] in Hfit, Hfuel.
    destruct fuel as [| fuel]; [lia |].
    cbn [sort_out].
    assert (Hlt : (Z.of_nat (length kept)
                   <? Z.of_nat (length (kept ++ f :: rest))) = true).
    { apply Z.ltb_lt. rewrite length_app. cbn [length]. lia. }
    rewrite Hlt, Nat2Z.id, nth_error_middle, (jpeg_test f Hf).
    cbn [List.filter reported].
    destruct (loadable f).
    + rewrite UINT64_wrap_small by lia.
      replace (Z.of_nat (length kept) + 1)
        with (Z.of_nat (length (kept ++ [f])))
        by (rewrite length_app; cbn [length]; lia).
      replace (kept ++ f :: rest) with ((kept ++ [f]) ++ rest)
        by (rewrite <- app_assoc; reflexivity).
      rewrite IH.
      * rewrite <- app_assoc. cbn [app]. rewrite length_app.
        cbn [length]. rewrite Nat.add_1_r. reflexivity.
      * lia.
      * unfold fits_size_t. rewrite !length_app. cbn [length]. lia.
      * exact Hrest.
    + rewrite UINT64_wrap_back by lia. rewrite erase_middle.
      rewrite IH.
      * rewrite <- app_assoc. reflexivity.
      * lia.
      * unfold fits_size_t. rewrite length_app. lia.
      * exact Hrest.
Qed.

(** The scan is a filter.  When the stacks and their elements are few
    enough for a size_t, the scan ends; it hands out the DICOM stacks
    that can be loaded, in the order the parser found them, followed by
    the image stacks, each with its type put in front of its description;
    and it reports every DICOM stack it drops, under the number of the
    stacks kept in front of it. *)
Theorem ScanDirectory_filters
    (parseDICOM parseImages : string -> list FileStackInfo)
    (strDirectory : string)
    (Hstacks : fits_size_t (parseDICOM strDirectory))
    (Helements : List.Forall (fun f => fits_size_t (m_Elements f))
                   (parseDICOM strDirectory)) :
  ScanDirectory parseDICOM parseImages strDirectory
  = Some (map described (List.filter loadable (parseDICOM strDirectory))
            ++ map described (parseImages strDirectory),
          reported 0 (parseDICOM strDirectory)).
Proof.
  unfold ScanDirectory.
  pose proof (sort_out_from (parseDICOM strDirectory)
                (length (parseDICOM strDirectory)) [] []
                (Nat.le_refl _) Hstacks Helements) as Hloop.
  change (sort_out (length (parseDICOM strDirectory)) 0
            (parseDICOM strDirectory) []
          = Some (List.filter loadable (parseDICOM strDirectory),
                  reported 0 (parseDICOM strDirectory))) in Hloop.
  rewrite Hloop. reflexivity.
Qed.

Lemma ScanDirectory_filters_witness :
  ScanDirectory scanned_dicom scanned_images "/data"
  = Some ([described be16_stack;
           described (jpeg_stack "C" [jpeg_slice "c1" (Some [x00])]);
           described image_stack],
          [CantLoadJPEG 0 1; CantLoadJPEG 1 0]).
Proof.
  apply (ScanDirectory_filters scanned_dicom scanned_images "/data").
  - reflexivity.
  - repeat constructor.
Defined.

End ScanFacts.

(* ===================================================================== *)
(** * Converting and exporting single datasets *)
(* ===================================================================== *)

Module ConvertFacts.

Import Merging Converting Spec Examples MoreExamples Notions MergeFacts.

Local Open Scope string_scope.

Lemma existsb_same_elements {A} (p : A -> bool) (l1 l2 : list A) :
  (forall c, In c l1 <-> In c l2) -> existsb p l1 = existsb p l2.
Proof.
  intros Hsame. apply eq_true_iff_eq. rewrite !existsb_exists.
  split; intros (c & Hin & Hc); exists c; (split; [apply Hsame |]);
    assumption.
Qed.

Lemma in_vain_failed {A} (p : A -> bool) (l : list A) :
  (forall c, In c (in_vain p l) -> In c l /\ p c = false)
  /\ (existsb p l = false -> in_vain p l = l).
Proof.
  induction l as [| a l [IH1 IH2]]; cbn [in_vain existsb].
  - split; [intros c [] | reflexivity].
  - destruct (p a) eqn:Ha; cbn [orb].
    + split; [intros c [] | discriminate].
    + split.
      * intros c [Heq | Hc].
        -- subst c. split; [left; reflexivity | exact Ha].
        -- destruct (IH1 c Hc) as [H1 H2].
           split; [right; exact H1 | exact H2].
      * intros H. rewrite (IH2 H). reflexivity.
Qed.

Lemma first_success_some cs name d :
  first_success cs name = Some d ->
  exists c, In c cs /\ ConvertToRAW c name = Some d.
Proof.
  induction cs as [| c cs IH]; cbn [first_success]; [discriminate |].
  destruct (ConvertToRAW c name) as [r |] eqn:Hc.
  - intros [= <-]. exists c. split; [left; reflexivity | exact Hc].
  - intros H. destruct (IH H) as (c' & Hin & Hc'). exists c'.
    split; [right; exact Hin | exact Hc'].
Qed.

Lemma first_success_none cs name :
  first_success cs name = None ->
  forall c, In c cs -> ConvertToRAW c name = None.
Proof.
  induction cs as [| c0 cs IH]; cbn [first_success]; [intros _ c [] |].
  destruct (ConvertToRAW c0 name) as [r |] eqn:Hc; [discriminate |].
  intros H c [Heq | Hin]; [subst c; exact Hc | exact (IH H c Hin)].
Qed.

Section ConvertToUVF.

Variable ConvertToUVF : AbstrConverter -> list string -> string -> bool.
Variable set_order : list AbstrConverter -> list AbstrConverter.

Lemma to_UVF_spec names target converters : forall w,
  let ok := fun c => ConvertToUVF c names target in
  let w' := snd (to_UVF ConvertToUVF converters names target w) in
  fst (to_UVF ConvertToUVF converters names target w) = existsb ok converters
  /\ messages w'
     = (messages w
        ++ map (fun c => WARNING ("Converter " +:+ GetDesc c +:+
                           " can read files, but conversion failed!"))
               (in_vain ok converters))%list
  /\ stages w' = stages w
  /\ files w' = if existsb ok converters then {[ target ]} ∪ files w
                else files w.
Proof.
  induction converters as [| c rest IH]; intros w; cbn zeta.
  - cbn [to_UVF existsb in_vain map fst snd]. rewrite app_nil_r.
    repeat split; reflexivity.
  - cbn [to_UVF existsb in_vain].
    destruct (ConvertToUVF c names target) eqn:Hc.
    + cbn [fst snd orb map create messages stages files].
      rewrite app_nil_r. repeat split; reflexivity.
    + cbn [orb map].
      match goal with
      | |- context [to_UVF _ rest _ _ ?w1] =>
          destruct (IH w1) as (Hf & Hm & Hs & Hfiles)
      end.
      cbn zeta in *. rewrite Hf, Hm, Hs, Hfiles.
      cbn [say messages stages files].
      rewrite <- app_assoc. repeat split; reflexivity.
Qed.

(** Converting to UVF.  With a file to convert, a brick size the
    assertion accepts and a target whose extension is UVF in some letter
    case, the call succeeds exactly when the ConvertToUVF of a converter
    that can read the first file succeeds, or that of the final
    converter, in whatever order the set of the readers is gone through.
    It warns once for every reader it tried, each of them a reader whose
    conversion failed, and it has tried them all when none succeeded; it
    runs no stage of its own and leaves the files as they were but for
    the target of a conversion that succeeded. *)
Theorem ConvertDataset_to_UVF (io : IOManager) (X : Externals)
    (first : string) (others : list string)
    (strTargetFilename strTempDir : string) (iMaxBrickSize : Z) (w : World)
    (Hset : keeps_elements set_order)
    (Hbrick : 32 <= iMaxBrickSize)
    (Htarget : ToUpperCase (GetExt X strTargetFilename) = "UVF") :
  let ok := fun c => ConvertToUVF c (first :: others) strTargetFilename in
  let readers := identify_converters first (m_vpConverters io) in
  let converted :=
    existsb ok readers
    || match m_pFinalConverter io with
       | Some final => ok final
       | None => false
       end in
  exists w' tried,
    ConvertDataset ConvertToUVF set_order io X (first :: others)
      strTargetFilename strTempDir iMaxBrickSize w = Some (converted, w')
    /\ messages w'
       = (messages w
          ++ map (fun c => WARNING ("Converter " +:+ GetDesc c +:+
                             " can read files, but conversion failed!"))
                 tried)%list
    /\ (forall c, In c tried -> In c readers /\ ok c = false)
    /\ (existsb ok readers = false -> forall c, In c readers -> In c tried)
    /\ stages w' = stages w
    /\ files w' = if converted then {[ strTargetFilename ]} ∪ files w
                  else files w.
Proof.
  intros ok readers converted. unfold ConvertDataset.
  destruct (Z.ltb_spec iMaxBrickSize 32) as [Hlt | _]; [lia |].
  rewrite Htarget. cbn [String.eqb Ascii.eqb Bool.eqb]. fold readers.
  destruct (to_UVF_spec (first :: others) strTargetFilename
              (set_order readers) w) as (Hf & Hm & Hs & Hfiles).
  cbn zeta in Hf, Hm, Hs, Hfiles. fold ok in Hf, Hm, Hfiles.
  rewrite (existsb_same_elements ok _ readers (Hset readers))
    in Hf, Hfiles.
  destruct (in_vain_failed ok (set_order readers)) as [Hfailed Hall].
  assert (Htried : forall c, In c (in_vain ok (set_order readers)) ->
                             In c readers /\ ok c = false).
  { intros c Hc. destruct (Hfailed c Hc) as [Hin Hno].
    split; [apply Hset; exact Hin | exact Hno]. }
  assert (Hevery : existsb ok readers = false ->
                   forall c, In c readers ->
                             In c (in_vain ok (set_order readers))).
  { intros Hnone c Hc. rewrite Hall.
    - apply Hset. exact Hc.
    - rewrite (existsb_same_elements ok _ readers (Hset readers)).
      exact Hnone. }
  destruct (to_UVF ConvertToUVF (set_order readers) (first :: others)
              strTargetFilename w) as [flag w1].
  cbn [fst snd] in Hf, Hm, Hs, Hfiles. subst converted.
  rewrite <- Hf in *. destruct flag; cbn [orb].
  - exists w1, (in_vain ok (set_order readers)). auto 7.
  - destruct (m_pFinalConverter io) as [final |].
    + fold (ok final). destruct (ok final).
      * eexists _, (in_vain ok (set_order readers)).
        split; [reflexivity |].
        cbn [create messages stages files]. rewrite Hfiles. auto 7.
      * exists w1, (in_vain ok (set_order readers)). auto 7.
    + exists w1, (in_vain ok (set_order readers)). auto 7.
Qed.

Lemma advertises_In exts strExt :
  advertises exts strExt = true <-> In strExt exts.
Proof.
  induction exts as [| e rest IH]; cbn [advertises In].
  - split; [discriminate | contradiction].
  - destruct (String.eqb_spec e strExt) as [-> | Hne].
    + split; auto.
    + rewrite IH. split; [auto | intros [H | H]; [contradiction | exact H]].
Qed.

Lemma to_native_by_spec c strExt inter target exts : forall w,
  let r := to_native_by c exts strExt inter target w in
  fst r = advertises exts strExt && ConvertToNative c target
  /\ messages (snd r) = messages w
  /\ files (snd r) = if fst r then {[ target ]} ∪ files w else files w.
Proof.
  induction exts as [| e rest IH]; intros w; cbn zeta.
  - cbn. repeat split; reflexivity.
  - cbn [to_native_by advertises].
    destruct (String.eqb e strExt).
    + destruct (ConvertToNative c target) eqn:Hc.
      * cbn. repeat split; reflexivity.
      * match goal with
        | |- context [to_native_by _ rest _ _ _ ?w1] =>
            destruct (IH w1) as (Hf & Hm & Hfiles)
        end.
        cbn zeta in *. rewrite Hfiles, Hm, Hf, !andb_false_r.
        repeat split; reflexivity.
    + apply IH.
Qed.

Lemma to_native_spec strExt inter target cs : forall w,
  let r := to_native cs strExt inter target w in
  fst r = existsb (fun c => advertises (SupportedExt c) strExt
                            && ConvertToNative c target) cs
  /\ messages (snd r) = messages w
  /\ files (snd r) = if fst r then {[ target ]} ∪ files w else files w.
Proof.
  induction cs as [| c rest IH]; intros w; cbn zeta.
  - cbn. repeat split; reflexivity.
  - cbn [to_native existsb].
    destruct (to_native_by_spec c strExt inter target (SupportedExt c) w)
      as (Hf & Hm & Hfiles). cbn zeta in *.
    destruct (to_native_by c (SupportedExt c) strExt inter target w)
      as [flag w1]. cbn [fst snd] in *. rewrite <- Hf.
    destruct flag; cbn [orb fst snd].
    + auto.
    + destruct (IH w1) as (Hf' & Hm' & Hfiles'). cbn zeta in *.
      rewrite Hfiles', Hm', Hm, Hfiles. auto.
Qed.

Lemma existsb_writes strExt target cs :
  existsb (fun c => advertises (SupportedExt c) strExt
                    && ConvertToNative c target) cs = true
  <-> exists c, In c cs /\ writes strExt target c.
Proof.
  rewrite existsb_exists. unfold writes. split.
  - intros (c & Hin & H). apply andb_prop in H as [Ha Hc].
    exists c. split; [exact Hin |]. split; [| exact Hc].
    apply advertises_In. exact Ha.
  - intros (c & Hin & Ha & Hc). exists c. split; [exact Hin |].
    rewrite Hc, andb_true_r. apply advertises_In. exact Ha.
Qed.

(** The raw form of a source that is not a UVF file: the out-parameters
    of a converter of the chain that succeeds, with its intermediate
    file, or nothing when no converter of the chain succeeds. *)
Lemma to_RAW_foreign io X name tmp w :
  keeps_elements set_order ->
  is_UVF X name = false ->
  (exists d, to_RAW set_order io X name tmp w
             = inr (true, Some d, create (strIntermediateFile d) w)
             /\ chain_result io name d)
  \/ (to_RAW set_order io X name tmp w = inr (false, None, w)
      /\ forall d, ~ chain_result io name d).
Proof.
  intros Hset Huvf. unfold is_UVF in Huvf. unfold to_RAW. rewrite Huvf.
  rewrite try_converters_first_success.
  set (readers := identify_converters name (m_vpConverters io)).
  destruct (first_success (set_order readers) name) as [r |] eqn:Hfirst.
  - left. exists r. split.
    + destruct (m_pFinalConverter io); reflexivity.
    + left. apply first_success_some in Hfirst as (c & Hin & Hc).
      exists c. split; [apply Hset; exact Hin | exact Hc].
  - assert (Hflag :
      (match set_order readers with [] => false | _ => false end) = false)
      by (destruct (set_order readers); reflexivity).
    rewrite Hflag.
    assert (Hnone : forall c, In c readers -> ConvertToRAW c name = None).
    { intros c Hc. apply (first_success_none _ _ Hfirst).
      apply Hset. exact Hc. }
    destruct (m_pFinalConverter io) as [final |] eqn:Hfinal.
    + cbn [negb]. destruct (ConvertToRAW final name) as [r |] eqn:Hr.
      * left. exists r. split; [reflexivity |]. right. exists final. auto.
      * right. split; [reflexivity |].
        intros d [(c & Hin & Hc) | (f' & Heq & Hf')];
          [rewrite (Hnone c Hin) in Hc |]; congruence.
    + right. split; [reflexivity |].
      intros d [(c & Hin & Hc) | (f' & Hf' & _)];
        [rewrite (Hnone c Hin) in Hc |]; congruence.
Qed.

(** Exporting to another format.  For a single file, a brick size the
    assertion accepts and a target whose extension is not UVF, the call
    succeeds exactly when the source can be brought into raw form and
    some registered converter advertises the upper-cased extension of the
    target as it stands and writes the target; it reports neither an
    error nor a warning. *)
Theorem ConvertDataset_to_native (io : IOManager) (X : Externals)
    (strFilename strTargetFilename strTempDir : string) (iMaxBrickSize : Z)
    (w : World)
    (Hset : keeps_elements set_order)
    (Hbrick : 32 <= iMaxBrickSize)
    (Htarget : ToUpperCase (GetExt X strTargetFilename) <> "UVF") :
  exists b w',
    ConvertDataset ConvertToUVF set_order io X [strFilename]
      strTargetFilename strTempDir iMaxBrickSize w = Some (b, w')
    /\ (b = true <->
        raw_available io X strFilename strTempDir
        /\ exists c, In c (m_vpConverters io)
             /\ writes (ToUpperCase (GetExt X strTargetFilename))
                       strTargetFilename c)
    /\ messages w' = messages w.
Proof.
  unfold ConvertDataset.
  destruct (Z.ltb_spec iMaxBrickSize 32) as [Hlt | _]; [lia |].
  destruct (String.eqb_spec (ToUpperCase (GetExt X strTargetFilename)) "UVF")
    as [Heq | _]; [contradiction |].
  set (strExtTarget := ToUpperCase (GetExt X strTargetFilename)).
  unfold raw_available.
  destruct (is_UVF X strFilename) eqn:Huvf.
  - unfold to_RAW. unfold is_UVF in Huvf. rewrite Huvf.
    destruct (IsOpen (open_UVF X strFilename)); cbn [negb].
    + destruct (Export (open_UVF X strFilename) 0 _) eqn:Hexp; cbn [negb].
      * cbn [out_file out_delete strIntermediateFile
             bDeleteIntermediateFile].
        match goal with
        | |- context [to_native ?cs ?e ?i ?t ?w0] =>
            destruct (to_native_spec e i t cs w0) as (Hf & Hm & _);
            destruct (to_native cs e i t w0) as [flag w1]
        end.
        cbn [fst snd] in *. exists flag. eexists.
        split; [reflexivity |]. split.
        -- rewrite Hf, existsb_writes. tauto.
        -- cbn [remove messages]. exact Hm.
      * eexists false, _. split; [reflexivity |]. split.
        -- split; [discriminate | intros [[_ H] _]; discriminate].
        -- unfold FileExists. cbn [create files].
           rewrite bool_decide_true
             by (apply elem_of_union_l, elem_of_singleton; reflexivity).
           reflexivity.
    + eexists false, _. split; [reflexivity |]. split; [| reflexivity].
      split; [discriminate | intros [[H _] _]; discriminate].
  - destruct (to_RAW_foreign io X strFilename strTempDir w Hset Huvf)
      as [(d & -> & Hd) | [-> Hnone]]; cbn [negb].
    + cbn [out_file out_delete].
      match goal with
      | |- context [to_native ?cs ?e ?i ?t ?w0] =>
          destruct (to_native_spec e i t cs w0) as (Hf & Hm & _);
          destruct (to_native cs e i t w0) as [flag w1]
      end.
      cbn [fst snd] in *. exists flag. eexists.
      split; [reflexivity |]. split.
      * rewrite Hf, existsb_writes. split; [| tauto].
        intros H. split; [exists d; exact Hd | exact H].
      * destruct (bDeleteIntermediateFile d); cbn [remove messages];
          exact Hm.
    + eexists false, _. split; [reflexivity |]. split; [| reflexivity].
      split; [discriminate | intros [[d Hd] _]; destruct (Hnone d Hd)].
Qed.

Lemma in_created (p q : string) (s : gset string) :
  p ∈ {[ q ]} ∪ s -> p = q \/ p ∈ s.
Proof.
  intros H. apply elem_of_union in H as [H | H]; [left | right; exact H].
  apply elem_of_singleton in H. exact H.
Qed.

Lemma in_difference (p q : string) (s : gset string) :
  p ∈ s ∖ {[ q ]} -> p ∈ s.
Proof. intros H. apply elem_of_difference in H as [H _]. exact H. Qed.

(** What an export to another format leaves behind.  For a single file,
    a brick size the assertion accepts and a target whose extension is
    not UVF.  From a UVF source: no file is new but the target of a
    conversion that succeeded, and when the source opens the raw file
    exported from it is gone afterwards.  From any other source: either
    no converter of the chain converts it, and then the call fails and
    the files are as they were; or the chain has produced an
    intermediate file, which is gone afterwards when it was marked for
    deletion and is there when it was not, whether the target was
    written or not, and no file is new but that file and the target of
    a conversion that succeeded. *)
Theorem ConvertDataset_cleans_up (io : IOManager) (X : Externals)
    (strFilename strTargetFilename strTempDir : string) (iMaxBrickSize : Z)
    (w : World)
    (Hset : keeps_elements set_order)
    (Hbrick : 32 <= iMaxBrickSize)
    (Htarget : ToUpperCase (GetExt X strTargetFilename) <> "UVF") :
  exists b w',
    ConvertDataset ConvertToUVF set_order io X [strFilename]
      strTargetFilename strTempDir iMaxBrickSize w = Some (b, w')
    /\ (is_UVF X strFilename = true ->
        (forall p, p ∈ files w' ->
           p ∈ files w \/ (p = strTargetFilename /\ b = true))
        /\ (IsOpen (open_UVF X strFilename) = true ->
            (strTempDir +:+ GetFilename X strFilename +:+ ".raw")
              ∉ files w'))
    /\ (is_UVF X strFilename = false ->
        ((forall d, ~ chain_result io strFilename d)
         /\ b = false /\ files w' = files w)
        \/ exists d,
             chain_result io strFilename d
             /\ (if bDeleteIntermediateFile d
                 then strIntermediateFile d ∉ files w'
                 else strIntermediateFile d ∈ files w')
             /\ forall p, p ∈ files w' ->
                   p ∈ files w \/ (p = strTargetFilename /\ b = true)
                   \/ p = strIntermediateFile d).
Proof.
  unfold ConvertDataset.
  destruct (Z.ltb_spec iMaxBrickSize 32) as [Hlt | _]; [lia |].
  destruct (String.eqb_spec (ToUpperCase (GetExt X strTargetFilename)) "UVF")
    as [Heq | _]; [contradiction |].
  set (strExtTarget := ToUpperCase (GetExt X strTargetFilename)).
  destruct (is_UVF X strFilename) eqn:Huvf.
  - unfold to_RAW. pose proof Huvf as Huvf'. unfold is_UVF in Huvf'.
    rewrite Huvf'.
    set (file := strTempDir +:+ GetFilename X strFilename +:+ ".raw").
    destruct (IsOpen (open_UVF X strFilename)); cbn [negb].
    + destruct (Export (open_UVF X strFilename) 0 file) eqn:Hexp;
        cbn [negb].
      * cbn [out_file out_delete strIntermediateFile
             bDeleteIntermediateFile].
        match goal with
        | |- context [to_native ?cs ?e ?i ?t ?w0] =>
            destruct (to_native_spec e i t cs w0) as (_ & _ & Hfiles);
            destruct (to_native cs e i t w0) as [flag w1]
        end.
        cbn [fst snd] in *. exists flag. eexists.
        split; [reflexivity |]. split; [| discriminate].
        intros _. split.
        -- intros p Hp. cbn [remove files] in Hp.
           apply in_difference in Hp as Hp'. rewrite Hfiles in Hp'.
           apply elem_of_difference in Hp as [_ Hne].
           cbn [create files] in Hp'.
           destruct flag.
           ++ apply in_created in Hp' as [-> | Hp']; [auto |].
              apply in_created in Hp' as [-> | Hp']; [| auto].
              destruct Hne. apply elem_of_singleton. reflexivity.
           ++ apply in_created in Hp' as [-> | Hp']; [| auto].
              destruct Hne. apply elem_of_singleton. reflexivity.
        -- intros _. apply StackMore.not_in_removed.
      * eexists false, _. split; [reflexivity |].
        unfold FileExists. cbn [create files].
        rewrite bool_decide_true
          by (apply elem_of_union_l, elem_of_singleton; reflexivity).
        split; [| discriminate]. intros _. split.
        -- intros p Hp. left. cbn [remove files] in Hp.
           apply (StackMore.in_removed p file). exact Hp.
        -- intros _. cbn [remove files]. intros Hp.
           apply elem_of_difference in Hp as [_ Hne].
           apply Hne, elem_of_singleton. reflexivity.
    + eexists false, _. split; [reflexivity |].
      split; [| discriminate]. intros _. split; [auto | discriminate].
  - destruct (to_RAW_foreign io X strFilename strTempDir w Hset Huvf)
      as [(d & -> & Hd) | [-> Hnone]]; cbn [negb].
    + cbn [out_file out_delete].
      match goal with
      | |- context [to_native ?cs ?e ?i ?t ?w0] =>
          destruct (to_native_spec e i t cs w0) as (_ & _ & Hfiles);
          destruct (to_native cs e i t w0) as [flag w1]
      end.
      cbn [fst snd] in *. exists flag. eexists.
      split; [reflexivity |]. split; [discriminate |].
      intros _. right. exists d. split; [exact Hd |].
      assert (Hin1 : strIntermediateFile d ∈ files w1).
      { rewrite Hfiles. cbn [create files].
        destruct flag; [apply elem_of_union_r |];
          apply elem_of_union_l, elem_of_singleton; reflexivity. }
      split.
      * destruct (bDeleteIntermediateFile d);
          [apply StackMore.not_in_removed | exact Hin1].
      * intros p Hp.
        assert (Hp' : p ∈ files w1)
          by (destruct (bDeleteIntermediateFile d);
              [apply in_difference in Hp |]; exact Hp).
        rewrite Hfiles in Hp'. cbn [create files] in Hp'.
        destruct flag.
        -- apply in_created in Hp' as [-> | Hp']; [auto |].
           apply in_created in Hp' as [-> | Hp']; auto.
        -- apply in_created in Hp' as [-> | Hp']; auto.
    + eexists false, _. split; [reflexivity |].
      split; [discriminate |]. intros _. left. auto.
Qed.

End ConvertToUVF.

Lemma ConvertDataset_to_UVF_witness :
  exists w' tried,
    ConvertDataset uvf_by_nrrd (fun l => l) fallback_manager host ["a.dat"]
      "out.uvf" "/tmp/" 256 empty_world = Some (true, w')
    /\ messages w'
       = map (fun c => WARNING ("Converter " +:+ GetDesc c +:+
                          " can read files, but conversion failed!"))
             tried
    /\ (forall c, In c tried ->
          In c [flat_converter]
          /\ uvf_by_nrrd c ["a.dat"] "out.uvf" = false)
    /\ (false = false -> forall c, In c [flat_converter] -> In c tried)
    /\ stages w' = []
    /\ files w' = {[ "out.uvf" ]} ∪ ∅.
Proof.
  apply (ConvertDataset_to_UVF uvf_by_nrrd (fun l => l) fallback_manager
           host "a.dat" [] "out.uvf" "/tmp/" 256 empty_world).
  - intros l c. reflexivity.
  - lia.
  - reflexivity.
Defined.

Lemma ConvertDataset_to_native_witness :
  exists b w',
    ConvertDataset uvf_by_nrrd (fun l => l) two_writers host ["a.dat"]
      "out.dat" "/tmp/" 256 empty_world = Some (b, w')
    /\ (b = true <->
        raw_available two_writers host "a.dat" "/tmp/"
        /\ exists c, In c (m_vpConverters two_writers)
             /\ writes "DAT" "out.dat" c)
    /\ messages w' = [].
Proof.
  apply (ConvertDataset_to_native uvf_by_nrrd (fun l => l) two_writers host
           "a.dat" "out.dat" "/tmp/" 256 empty_world).
  - intros l c. reflexivity.
  - lia.
  - discriminate.
Defined.

Lemma ConvertDataset_cleans_up_witness :
  exists b w',
    ConvertDataset uvf_by_nrrd (fun l => l) two_writers host ["a.dat"]
      "out.dat" "/tmp/" 256 empty_world = Some (b, w')
    /\ (is_UVF host "a.dat" = true ->
        (forall p, p ∈ files w' ->
           p ∈ files empty_world \/ (p = "out.dat" /\ b = true))
        /\ (IsOpen (open_UVF host "a.dat") = true ->
            ("/tmp/" +:+ GetFilename host "a.dat" +:+ ".raw") ∉ files w'))
    /\ (is_UVF host "a.dat" = false ->
        ((forall d, ~ chain_result two_writers "a.dat" d)
         /\ b = false /\ files w' = files empty_world)
        \/ exists d,
             chain_result two_writers "a.dat" d
             /\ (if bDeleteIntermediateFile d
                 then strIntermediateFile d ∉ files w'
                 else strIntermediateFile d ∈ files w')
             /\ forall p, p ∈ files w' ->
                   p ∈ files empty_world \/ (p = "out.dat" /\ b = true)
                   \/ p = strIntermediateFile d).
Proof.
  apply (ConvertDataset_cleans_up uvf_by_nrrd (fun l => l) two_writers host
           "a.dat" "out.dat" "/tmp/" 256 empty_world).
  - intros l c. reflexivity.
  - lia.
  - discriminate.
Defined.

Lemma exporter_for_first cs strExt :
  match exporter_for cs strExt with
  | Some c =>
      exists before after,
        cs = (before ++ c :: after)%list
        /\ In strExt (SupportedExt c)
        /\ forall c', In c' before -> ~ In strExt (SupportedExt c')
  | None => forall c, In c cs -> ~ In strExt (SupportedExt c)
  end.
Proof.
  induction cs as [| c rest IH]; cbn [exporter_for]; [intros c [] |].
  destruct (advertises (SupportedExt c) strExt) eqn:Hadv.
  - exists [], rest. split; [reflexivity |].
    split; [apply advertises_In; exact Hadv | intros c' []].
  - assert (Hnot : ~ In strExt (SupportedExt c)).
    { intros H. apply advertises_In in H. congruence. }
    destruct (exporter_for rest strExt) as [c0 |].
    + destruct IH as (before & after & -> & Hin & Hbefore).
      exists (c :: before), after. split; [reflexivity |].
      split; [exact Hin |]. intros c' [<- | Hc']; auto.
    + intros c' [<- | Hc']; auto.
Qed.

(** The exporter is the first that advertises the extension.
    [ExportDataset] hands the target to the first registered converter
    that advertises the upper-cased extension of the target as it stands,
    whether or not that converter says it can export, and to no other:
    the call succeeds exactly when the export of the source to the temp
    file and the ConvertToNative of that converter do.  Without such a
    converter it fails and leaves the files alone; after an export that
    succeeded the temp file is gone. *)
Theorem ExportDataset_first_exporter (io : IOManager) (X : Externals)
    (pSourceData : Dataset) (iLODlevel : nat)
    (strTargetFilename strTempDir : string) (w : World) :
  let strExt := ToUpperCase (GetExt X strTargetFilename) in
  let strTempFilename :=
    strTempDir +:+ GetFilename X strTargetFilename +:+ ".tmp_raw" in
  let r := ExportDataset io X pSourceData iLODlevel strTargetFilename
             strTempDir w in
  match exporter_for (m_vpConverters io) strExt with
  | Some c =>
      (exists before after,
         m_vpConverters io = (before ++ c :: after)%list
         /\ In strExt (SupportedExt c)
         /\ forall c', In c' before -> ~ In strExt (SupportedExt c'))
      /\ fst r = Export pSourceData iLODlevel strTempFilename
                 && ConvertToNative c strTargetFilename
      /\ (Export pSourceData iLODlevel strTempFilename = true ->
          strTempFilename ∉ files (snd r))
  | None =>
      (forall c, In c (m_vpConverters io) -> ~ In strExt (SupportedExt c))
      /\ fst r = false
      /\ files (snd r) = files w
  end.
Proof.
  intros strExt strTempFilename r. subst r. unfold ExportDataset.
  fold strExt. fold strTempFilename.
  pose proof (exporter_for_first (m_vpConverters io) strExt) as Hfirst.
  destruct (exporter_for (m_vpConverters io) strExt) as [c |].
  - split; [exact Hfirst |].
    destruct (Export pSourceData iLODlevel strTempFilename); cbn [negb andb].
    + destruct (ConvertToNative c strTargetFilename); cbn [negb fst snd].
      * split; [reflexivity |]. intros _. apply StackMore.not_in_removed.
      * split; [reflexivity |]. intros _. cbn [say files].
        apply StackMore.not_in_removed.
    + split; [reflexivity | discriminate].
  - split; [exact Hfirst |]. split; reflexivity.
Qed.

Lemma upper_ascii_lower c : upper_ascii (lower_ascii c) = upper_ascii c.
Proof.
  destruct c as [[] [] [] [] [] [] [] []]; vm_compute; reflexivity.
Qed.

Lemma lower_ascii_upper c : lower_ascii (upper_ascii c) = lower_ascii c.
Proof.
  destruct c as [[] [] [] [] [] [] [] []]; vm_compute; reflexivity.
Qed.

Lemma ToUpperCase_ToLowerCase s : ToUpperCase (ToLowerCase s) = ToUpperCase s.
Proof.
  induction s as [| c s IH]; cbn [ToLowerCase ToUpperCase]; [reflexivity |].
  rewrite upper_ascii_lower, IH. reflexivity.
Qed.

Lemma ToLowerCase_ToUpperCase s : ToLowerCase (ToUpperCase s) = ToLowerCase s.
Proof.
  induction s as [| c s IH]; cbn [ToLowerCase ToUpperCase]; [reflexivity |].
  rewrite lower_ascii_upper, IH. reflexivity.
Qed.

Lemma advertises_ext_listed exts x :
  forallb (fun e => String.eqb (ToUpperCase e) e) exts = true ->
  advertises exts (ToUpperCase x) = ext_listed (ToLowerCase x) exts.
Proof.
  induction exts as [| e rest IH]; cbn [forallb advertises ext_listed];
    [reflexivity |].
  intros H. apply andb_prop in H as [He Hrest].
  apply String.eqb_eq in He. rewrite (IH Hrest).
  destruct (String.eqb_spec e (ToUpperCase x)) as [Heq | Hne];
    destruct (String.eqb_spec (ToLowerCase x) (ToLowerCase e)) as [Hl | Hl];
    try reflexivity.
  - destruct Hl. rewrite Heq, ToLowerCase_ToUpperCase. reflexivity.
  - destruct Hne. rewrite <- He, <- ToUpperCase_ToLowerCase, <- Hl.
    apply ToUpperCase_ToLowerCase.
Qed.

(** The two look-ups agree on a registry in upper case.  When every
    registered converter advertises its extensions in upper case, the
    exporter [ExportDataset] picks for an extension is the converter
    [GetConverterForExt] returns for its lower-case form when export
    support is not asked for. *)
Theorem exporter_is_GetConverterForExt (io : IOManager) (x : string)
    (Hupper : upper_case_registry (m_vpConverters io) = true) :
  exporter_for (m_vpConverters io) (ToUpperCase x)
  = GetConverterForExt io (ToLowerCase x) false.
Proof.
  unfold GetConverterForExt, upper_case_registry in *.
  induction (m_vpConverters io) as [| c rest IH]; [reflexivity |].
  cbn [forallb] in Hupper. apply andb_prop in Hupper as [Hc Hrest].
  cbn [exporter_for GetConverterForExt_from negb orb].
  rewrite (advertises_ext_listed _ x Hc), (IH Hrest). reflexivity.
Qed.

Lemma exporter_is_GetConverterForExt_witness :
  exporter_for (m_vpConverters flat_manager) (ToUpperCase "dat")
  = GetConverterForExt flat_manager (ToLowerCase "dat") false.
Proof.
  apply (exporter_is_GetConverterForExt flat_manager "dat").
  reflexivity.
Defined.

End ConvertFacts.

(* ===================================================================== *)
(** * More on merging *)
(* ===================================================================== *)

Module MergeMore.

Import Merging Spec Examples MoreExamples Notions MergeFacts.

Local Open Scope string_scope.

Lemma out_created_stages out w : stages (out_created out w) = stages w.
Proof. destruct out; reflexivity. Qed.

Lemma uvf_input_stages X tmp i name s b st :
  stages (world (snd (uvf_input X tmp i name s b st))) = stages (world st).
Proof.
  unfold uvf_input.
  destruct (IsOpen (open_UVF X name)); cbn [negb]; [| reflexivity].
  destruct i as [| i].
  - destruct (Export _ _ _); cbn [negb snd world]; [reflexivity |].
    unfold FileExists. destruct (bool_decide _); reflexivity.
  - pose proof (uvf_checks_stages (G st) (uvf_meta (open_UVF X name))
                  (bRAWCreated st, world st)) as Hchk.
    destruct (uvf_checks _ _ _) as [flag w1]. cbn [snd] in Hchk.
    destruct flag; cbn [negb].
    + destruct (Export _ _ _); cbn [negb snd world G bRAWCreated
                                    vIntermediateFiles].
      * cbn [create stages]. rewrite warn_aspect_stages. exact Hchk.
      * unfold FileExists. destruct (bool_decide _);
          cbn [create remove stages]; rewrite warn_aspect_stages;
          exact Hchk.
    + cbn [snd world say stages]. exact Hchk.
Qed.

Lemma uvf_input_flow X tmp i name s b st flag :
  fst (uvf_input X tmp i name s b st) = Return flag -> flag = false.
Proof.
  unfold uvf_input.
  destruct (IsOpen (open_UVF X name)); cbn [negb];
    [| intros [= <-]; reflexivity].
  destruct i as [| i].
  - destruct (Export _ _ _); discriminate.
  - destruct (uvf_checks _ _ _) as [c w1].
    destruct c; cbn [negb]; [| discriminate].
    destruct (Export _ _ _); discriminate.
Qed.

Lemma foreign_input_stages io X i name s b st :
  stages (world (snd (foreign_input io X i name s b st))) = stages (world st)
  /\ forall flag, fst (foreign_input io X i name s b st) <> Return flag.
Proof.
  unfold foreign_input.
  destruct (try_converters _ _ _ _) as [flag out].
  assert (Hgen : forall flag out,
    stages (world (snd
      (let w := out_created out (world st) in
       if negb flag then
         (Break, mkMergeLoop (G st) flag (vIntermediateFiles st) w)
       else
         let files := (vIntermediateFiles st ++ [intermediate out s b])%list
         in
         match i with
         | O => (Continue, mkMergeLoop (out_meta out) flag files w)
         | S _ =>
             if negb (same_type (G st) (out_meta out)) then
               (Break,
                mkMergeLoop (G st) false files
                  (say (T_ERROR "Incompatible data types.") w))
             else
               (Continue,
                mkMergeLoop (G st) flag files
                  (warn_aspect (G st) (out_meta out) w))
         end))) = stages (world st)
    /\ forall r,
      fst (let w := out_created out (world st) in
       if negb flag then
         (Break, mkMergeLoop (G st) flag (vIntermediateFiles st) w)
       else
         let files := (vIntermediateFiles st ++ [intermediate out s b])%list
         in
         match i with
         | O => (Continue, mkMergeLoop (out_meta out) flag files w)
         | S _ =>
             if negb (same_type (G st) (out_meta out)) then
               (Break,
                mkMergeLoop (G st) false files
                  (say (T_ERROR "Incompatible data types.") w))
             else
               (Continue,
                mkMergeLoop (G st) flag files
                  (warn_aspect (G st) (out_meta out) w))
         end) <> Return r).
  { intros flag' out'. cbn zeta.
    destruct (negb flag');
      [cbn; split; [apply out_created_stages | discriminate] |].
    destruct i;
      [cbn; split; [apply out_created_stages | discriminate] |].
    destruct (negb (same_type _ _)); cbn [fst snd world say stages].
    - split; [apply out_created_stages | discriminate].
    - rewrite warn_aspect_stages.
      split; [apply out_created_stages | discriminate]. }
  destruct (m_pFinalConverter io) as [final |]; [| apply Hgen].
  destruct (negb flag); [| apply Hgen].
  destruct (ConvertToRAW final name); apply Hgen.
Qed.

Lemma input_stages io X tmp i name s b st :
  stages (world (snd (input io X tmp i name s b st))) = stages (world st)
  /\ forall flag, fst (input io X tmp i name s b st) = Return flag ->
                  flag = false.
Proof.
  unfold input. destruct (String.eqb _ _).
  - split; [apply uvf_input_stages | apply uvf_input_flow].
  - destruct (foreign_input_stages io X i name s b st) as [Hs Hf].
    split; [exact Hs |]. intros flag H. destruct (Hf flag H).
Qed.

(** The input loop starts no stage, and leaves early only with [false]. *)
Lemma inputs_stages io X tmp vScales vBiases names : forall i st,
  stages (world (snd (inputs io X tmp vScales vBiases i names st)))
    = stages (world st)
  /\ forall flag,
       fst (inputs io X tmp vScales vBiases i names st) = Return flag ->
       flag = false.
Proof.
  induction names as [| name rest IH]; intros i st; cbn [inputs].
  - split; [reflexivity | discriminate].
  - destruct (input_stages io X tmp i name (nth i vScales 0)
                (nth i vBiases 0) st) as [Hs Hf].
    destruct (input io X tmp i name _ _ st) as [[| | flag] st1];
      cbn [fst snd] in *.
    + destruct (IH (S i) st1) as [Hs' Hf']. rewrite Hs', Hs. auto.
    + split; [exact Hs | discriminate].
    + split; [exact Hs |]. intros flag' [= <-]. apply Hf. reflexivity.
Qed.

(** The merger: what it returns and what it leaves. *)
Lemma merge_cases X g fs merged mode w :
  let r := merge X g fs merged mode w in
  (fst r = Some true
   /\ snd r = create merged (start (StageMerge merged) w))
  \/ (fst r = Some false
      /\ (snd r = start (StageMerge merged) w \/ snd r = w))
  \/ (fst r = None /\ stages (snd r) = stages w).
Proof.
  unfold merge. cbn zeta.
  destruct (bSigned g), (bIsFloat g);
    repeat match goal with
           | |- context [Z.eqb ?a ?b] => destruct (Z.eqb a b)
           end;
    cbn [orb]; try destruct (DataMerger_IsOK X _ _ _ _);
    cbn [fst snd]; auto 6.
Qed.

Lemma native_by_stages c strExt merged target exts : forall w,
  let r := native_by c exts strExt merged target w in
  (exists rest,
     stages (snd r) = (stages w ++ rest)%list
     /\ List.Forall (target_stage merged target) rest
     /\ (fst r = true -> rest <> []))
  /\ (fst r = true -> target ∈ files (snd r)).
Proof.
  induction exts as [| e rest IH]; intros w; cbn zeta; cbn [native_by].
  - split; [| discriminate]. exists []. rewrite app_nil_r.
    split; [reflexivity |]. split; [constructor | discriminate].
  - destruct (String.eqb e strExt); [| apply IH].
    destruct (ConvertToNative c target).
    + cbn [fst snd create start stages files]. split.
      * eexists [_]. split; [reflexivity |].
        split; [| discriminate].
        constructor; [right; eexists; reflexivity | constructor].
      * intros _. apply elem_of_union_l, elem_of_singleton. reflexivity.
    + match goal with
      | |- context [native_by _ rest _ _ _ ?w1] =>
          destruct (IH w1) as [(more & Hs & Hall & Hne) Hfiles]
      end.
      cbn zeta in *. split; [| exact Hfiles].
      cbn [say start stages] in Hs.
      exists (StageToNative (GetDesc c) merged target :: more).
      rewrite Hs, <- app_assoc. split; [reflexivity |].
      split; [| discriminate].
      constructor; [right; eexists; reflexivity | exact Hall].
Qed.

Lemma native_stages strExt merged target cs : forall w,
  let r := native cs strExt merged target w in
  (exists rest,
     stages (snd r) = (stages w ++ rest)%list
     /\ List.Forall (target_stage merged target) rest
     /\ (fst r = true -> rest <> []))
  /\ (fst r = true -> target ∈ files (snd r)).
Proof.
  induction cs as [| c rest IH]; intros w; cbn zeta; cbn [native].
  - split; [| discriminate]. exists []. rewrite app_nil_r.
    split; [reflexivity |]. split; [constructor | discriminate].
  - destruct (native_by_stages c strExt merged target (SupportedExt c) w)
      as [(more & Hs & Hall & Hne) Hfiles]. cbn zeta in *.
    destruct (native_by c (SupportedExt c) strExt merged target w)
      as [flag w1]. cbn [fst snd] in *. destruct flag.
    + cbn [fst snd]. split; [| exact Hfiles]. exists more. auto.
    + destruct (IH w1) as [(more' & Hs' & Hall' & Hne') Hfiles'].
      cbn zeta in *. split; [| exact Hfiles'].
      exists (more ++ more')%list. rewrite Hs', Hs, <- app_assoc.
      split; [reflexivity |]. split; [apply List.Forall_app; auto |].
      intros Ht. specialize (Hne' Ht). destruct more; [exact Hne' |].
      discriminate.
Qed.

(** The stages of a merge.  A call of [MergeDatasets] either starts no
    stage at all, or starts the merger on the merged file once and, after
    it, only stages that turn the merged file into the target.  A call
    that succeeds has run the merger and at least one such stage, leaves
    no merged file behind, and leaves the target unless the target is the
    merged file itself. *)
Theorem MergeDatasets_stages (io : IOManager) (X : Externals)
    (strFilenames : list string) (vScales vBiases : list Z)
    (strTargetFilename strTempDir : string) (bUseMaxMode : bool)
    (w : World) :
  let strMergedFile := strTempDir +:+ "merged.raw" in
  let r := MergeDatasets io X strFilenames vScales vBiases
             strTargetFilename strTempDir bUseMaxMode w in
  (stages (snd r) = stages w /\ fst r = false
   \/ exists rest,
        stages (snd r) = (stages w ++ StageMerge strMergedFile :: rest)%list
        /\ List.Forall (target_stage strMergedFile strTargetFilename) rest
        /\ (fst r = true -> rest <> []))
  /\ (fst r = true ->
      (strMergedFile ∉ files (snd r))
      /\ (strTargetFilename <> strMergedFile ->
          strTargetFilename ∈ files (snd r))).
Proof.
  intros merged r. subst r. unfold MergeDatasets. fold merged.
  destruct (inputs_stages io X strTempDir vScales vBiases strFilenames 0
              (mkMergeLoop zero_meta false [] w)) as [Hs Hflow].
  cbn [world] in Hs.
  destruct (inputs io X strTempDir vScales vBiases 0 strFilenames _)
    as [flow st]. cbn [fst snd] in Hs, Hflow.
  assert (Hrest :
    let r :=
      if negb (bRAWCreated st) then
        let w := say (T_ERROR "No raw files.  Deleting temp files...")
                     (world st) in
        let w := remove_intermediates (vIntermediateFiles st) w in
        (false, say (T_ERROR "...  and bailing.") w)
      else
        match merge X (G st) (vIntermediateFiles st) merged
                bUseMaxMode (world st) with
        | (None, w) => (false, w)
        | (Some bIsMerged, w) =>
            let w := remove_intermediates (vIntermediateFiles st) w in
            if negb bIsMerged then
              (false,
               say (WARNING "Merged failed, see other debug messages.") w)
            else
              let strExtTarget :=
                ToUpperCase (GetExt X strTargetFilename) in
              let (bTargetCreated, w) :=
                if String.eqb strExtTarget "UVF" then
                  run_ConvertRAWDataset X
                    {| raw_strFilename := merged;
                       raw_strTargetFilename := strTargetFilename;
                       raw_strTempDir := strTempDir;
                       raw_iHeaderSkip := 0;
                       raw_iComponentSize := iComponentSize (G st);
                       raw_iComponentCount := iComponentCount (G st);
                       raw_timesteps := 1;
                       raw_bConvertEndianness := bConvertEndianess (G st);
                       raw_bSigned := bSigned (G st);
                       raw_bIsFloat := bIsFloat (G st);
                       raw_vVolumeSize := vVolumeSize (G st);
                       raw_vVolumeAspect := vVolumeAspect (G st);
                       raw_strDesc := "Merged data from multiple files";
                       raw_strSource := GetFilename X merged;
                       raw_iTargetBrickSize := m_iMaxBrickSize io;
                       raw_iTargetBrickOverlap := m_iBrickOverlap io;
                       raw_bQuantizeTo8Bit := false |} w
                else
                  native (m_vpConverters io) strExtTarget merged
                         strTargetFilename w in
              (bTargetCreated, remove merged w)
        end in
    (stages (snd r) = stages w /\ fst r = false
     \/ exists rest,
          stages (snd r) = (stages w ++ StageMerge merged :: rest)%list
          /\ List.Forall (target_stage merged strTargetFilename) rest
          /\ (fst r = true -> rest <> []))
    /\ (fst r = true ->
        (merged ∉ files (snd r))
        /\ (strTargetFilename <> merged ->
            strTargetFilename ∈ files (snd r)))).
  { cbn zeta. destruct (negb (bRAWCreated st)).
    - cbn [fst snd say stages]. rewrite remove_intermediates_stages.
      cbn [say stages]. split; [left; auto | discriminate].
    - destruct (merge_cases X (G st) (vIntermediateFiles st) merged
                  bUseMaxMode (world st))
        as [[Hb Hw] | [[Hb Hw] | [Hb Hw]]];
        destruct (merge X (G st) (vIntermediateFiles st) merged
                    bUseMaxMode (world st)) as [ob w1];
        cbn [fst snd] in Hb, Hw; subst ob.
      + cbn [negb]. subst w1.
        set (w2 := remove_intermediates (vIntermediateFiles st) _).
        assert (Hw2 : stages w2 = (stages w ++ [StageMerge merged])%list).
        { subst w2. rewrite remove_intermediates_stages.
          cbn [create start stages]. rewrite Hs. reflexivity. }
        destruct (String.eqb _ "UVF").
        * unfold run_ConvertRAWDataset.
          match goal with
          | |- context [ConvertRAWDataset X ?c] =>
              destruct (ConvertRAWDataset X c)
          end; cbn [fst snd remove start create stages files
                    raw_strFilename raw_strTargetFilename].
          -- split.
             ++ right. eexists [_]. rewrite Hw2, <- app_assoc.
                split; [reflexivity |]. split; [| discriminate].
                constructor; [left; reflexivity | constructor].
             ++ intros _. split.
                ** intros H. apply elem_of_difference in H as [_ H].
                   apply H, elem_of_singleton. reflexivity.
                ** intros Hne. apply elem_of_difference. split.
                   --- apply elem_of_union_l, elem_of_singleton.
                       reflexivity.
                   --- rewrite elem_of_singleton. exact Hne.
          -- split; [| discriminate].
             right. eexists [_]. rewrite Hw2, <- app_assoc.
             split; [reflexivity |]. split; [| discriminate].
             constructor; [left; reflexivity | constructor].
        * destruct (native_stages (ToUpperCase (GetExt X strTargetFilename))
                      merged strTargetFilename (m_vpConverters io) w2)
            as [(rest & Hst & Hall & Hne) Hfiles]. cbn zeta in *.
          destruct (native (m_vpConverters io) _ merged strTargetFilename
                      w2) as [flag w3]. cbn [fst snd] in *.
          cbn [remove stages files]. split.
          -- right. exists rest. rewrite Hst, Hw2, <- app_assoc. auto.
          -- intros Ht. split.
             ++ intros H. apply elem_of_difference in H as [_ H].
                apply H, elem_of_singleton. reflexivity.
             ++ intros Hdiff. apply elem_of_difference.
                split; [apply Hfiles; exact Ht |].
                rewrite elem_of_singleton. exact Hdiff.
      + cbn [negb fst snd say stages].
        rewrite remove_intermediates_stages.
        split; [| discriminate].
        destruct Hw as [-> | ->]; cbn [start stages]; rewrite Hs.
        * right. exists []. split; [reflexivity |].
          split; [constructor | discriminate].
        * left. auto.
      + cbn [fst snd]. rewrite Hw, Hs. split; [left; auto | discriminate]. }
  destruct flow as [| | flag].
  - exact Hrest.
  - exact Hrest.
  - cbn [fst snd]. rewrite (Hflow flag eq_refl), Hs.
    split; [left; auto | discriminate].
Qed.

End MergeMore.

(* ===================================================================== *)
(** * Reading and evaluating bricks *)
(* ===================================================================== *)

Module EvaluateFacts.

Import Stats Expressions Evaluating Spec Examples MoreExamples Notions.
Import ExpressionFacts.













(** The three volumes are read at 32 bit floats: the bytes are expanded
    within the vector, the 16 bit values are written past its end, and
    the floats are read as they are. *)
Example mixed_reads :
  brick_step 32 true true = ReadAndEvalBrick F32
  /\ TypedRead F32 volume_a 4 = Interpolated U8 4 4
  /\ TypedRead F32 volume_u16 4 = Interpolated U16 2 4
  /\ TypedRead F32 volume_f 4 = Direct.
Proof. repeat split. Qed.

End EvaluateFacts.

(* ===================================================================== *)
(** * Meshes and isosurfaces *)
(* ===================================================================== *)

Module GeometryFacts.

Import Spec Examples MoreExamples Notions DispatchFacts.
Import Geometry.

Local Open Scope string_scope.

Section Meshes.

Variable Mesh : Type.

Lemma exports_mesh_test (x : string) (c : AbstrGeoConverter Mesh) :
  (negb true || CanExportData c)
  && ext_listed (ToLowerCase x) (SupportedExt c) = true
  <-> exports_mesh x c.
Proof.
  unfold exports_mesh, case_variant. cbn [negb orb].
  rewrite andb_true_iff, ext_listed_true. tauto.
Qed.

Lemma GetGeoConverterForExt_first (geo : list (AbstrGeoConverter Mesh))
    (x : string) :
  match GetGeoConverterForExt geo (ToLowerCase x) true with
  | Some conv =>
      exists before after,
        geo = (before ++ conv :: after)%list
        /\ exports_mesh x conv
        /\ forall c, In c before -> ~ exports_mesh x c
  | None => forall c, In c geo -> ~ exports_mesh x c
  end.
Proof.
  induction geo as [| c0 geo IH]; cbn [GetGeoConverterForExt];
    [intros c [] |].
  pose proof (exports_mesh_test x c0) as Hc0.
  destruct (negb true || CanExportData c0);
    [destruct (ext_listed (ToLowerCase x) (SupportedExt c0)) |];
    cbn [andb] in Hc0.
  - exists [], geo. split; [reflexivity |].
    split; [tauto | intros c []].
  - destruct (GetGeoConverterForExt geo (ToLowerCase x) true) as [c |].
    + destruct IH as (before & after & -> & Hc & Hbefore).
      exists (c0 :: before), after. split; [reflexivity |].
      split; [exact Hc |]. intros c' [<- | Hc']; [| auto].
      intros H. apply Hc0 in H. discriminate.
    + intros c' [<- | Hc']; [| auto].
      intros H. apply Hc0 in H. discriminate.
  - destruct (GetGeoConverterForExt geo (ToLowerCase x) true) as [c |].
    + destruct IH as (before & after & -> & Hc & Hbefore).
      exists (c0 :: before), after. split; [reflexivity |].
      split; [exact Hc |]. intros c' [<- | Hc']; [| auto].
      intros H. apply Hc0 in H. discriminate.
    + intros c' [<- | Hc']; [| auto].
      intros H. apply Hc0 in H. discriminate.
Qed.

(** The mesh export takes the extension in any letter case.
    [ExportMesh] hands the mesh to the first registered geometry
    converter that can export and advertises the extension of the target
    up to letter case, and returns what its ConvertToNative returns,
    reporting nothing; when no registered converter is such, it returns
    false, reports an unknown format and leaves the files alone. *)
Theorem ExportMesh_any_case (geo : list (AbstrGeoConverter Mesh))
    (X : Externals) (mesh : Mesh) (strTargetFilename : string) (w : World) :
  let r := ExportMesh geo X mesh strTargetFilename w in
  (exists before conv after,
     geo = (before ++ conv :: after)%list
     /\ exports_mesh (GetExt X strTargetFilename) conv
     /\ (forall c, In c before ->
           ~ exports_mesh (GetExt X strTargetFilename) c)
     /\ fst r = ConvertToNative conv mesh strTargetFilename
     /\ messages (snd r) = messages w)
  \/ ((forall c, In c geo -> ~ exports_mesh (GetExt X strTargetFilename) c)
      /\ r = (false, say (T_ERROR "Unknown Mesh Format.") w)).
Proof.
  intros r. subst r. unfold ExportMesh.
  pose proof (GetGeoConverterForExt_first geo (GetExt X strTargetFilename))
    as Hfirst.
  destruct (GetGeoConverterForExt geo _ true) as [conv |].
  - left. destruct Hfirst as (before & after & Hgeo & Hc & Hbefore).
    exists before, conv, after.
    destruct (ConvertToNative conv mesh strTargetFilename); auto.
  - right. auto.
Qed.

Lemma MCData_type_supported (u : Dataset) :
  MCData_type (GetIsFloat u) (GetIsSigned u) (GetBitWidth u) <> None
  <-> stored_type_ok u = true.
Proof.
  unfold MCData_type, stored_type_ok.
  destruct (GetIsFloat u), (GetIsSigned u);
    destruct (GetBitWidth u =? 8)%Z, (GetBitWidth u =? 16)%Z,
             (GetBitWidth u =? 32)%Z, (GetBitWidth u =? 64)%Z;
    cbn; split; intros H; try reflexivity; try discriminate;
    try (destruct H; reflexivity).
Qed.

(** How an isosurface extraction ends.  [ExtractIsosurface] returns true
    exactly when the source has one component, some registered geometry
    converter can export and advertises the extension of the target up to
    letter case, the stored type is 8, 16, 32 or 64 bits wide (signed,
    with 32 or 64 bits, when it is floating point) and the export through
    the marching cubes succeeds.  After an export that failed the target
    does not exist, whatever the export and the destructor did; the temp
    file does not exist after an export that was run, provided the
    destructor does not bring it back; and when the export is not reached
    the files are as they were and one error is reported. *)
Theorem ExtractIsosurface_outcome (geo : list (AbstrGeoConverter Mesh))
    (X : Externals)
    (Export_MC : nat -> string -> MCType -> AbstrGeoConverter Mesh ->
                 World -> bool * World)
    (delete_pMCData : MCType -> World -> World)
    (pSourceData : Dataset) (iLODlevel : nat)
    (strTargetFilename strTempDir : string) (w : World) :
  let r := ExtractIsosurface geo X Export_MC delete_pMCData pSourceData
             iLODlevel strTargetFilename strTempDir w in
  let strTempFilename :=
    strTempDir +:+ GetFilename X strTargetFilename +:+ ".tmp_raw" in
  let conv := GetGeoConverterForExt geo
                (ToLowerCase (GetExt X strTargetFilename)) true in
  let T := MCData_type (GetIsFloat pSourceData) (GetIsSigned pSourceData)
             (GetBitWidth pSourceData) in
  (forall c t,
     External.GetComponentCount pSourceData = 1 ->
     conv = Some c -> T = Some t ->
     exports_mesh (GetExt X strTargetFilename) c
     /\ stored_type_ok pSourceData = true
     /\ fst r = fst (Export_MC iLODlevel strTempFilename t c w)
     /\ (fst r = false -> strTargetFilename ∉ files (snd r))
     /\ ((forall w0, strTempFilename ∉ files w0 ->
                     strTempFilename ∉ files (delete_pMCData t w0)) ->
         strTempFilename ∉ files (snd r)))
  /\ (External.GetComponentCount pSourceData <> 1
      \/ (forall c, In c geo ->
             ~ exports_mesh (GetExt X strTargetFilename) c)
      \/ stored_type_ok pSourceData = false ->
      fst r = false /\ files (snd r) = files w
      /\ exists text, messages (snd r) = (messages w ++ [T_ERROR text])%list).
Proof.
  intros r temp conv T. subst r. unfold ExtractIsosurface.
  fold temp. fold conv. fold T.
  pose proof (GetGeoConverterForExt_first geo (GetExt X strTargetFilename))
    as Hfirst. fold conv in Hfirst.
  pose proof (MCData_type_supported pSourceData) as Htype. fold T in Htype.
  split.
  - intros c t Hscalar Hconv Ht. rewrite Hconv in *. rewrite Ht in *.
    rewrite Hscalar. cbn [Z.eqb Pos.eqb negb].
    destruct Hfirst as (before & after & _ & Hc & _).
    split; [exact Hc |].
    split; [apply Htype; discriminate |].
    destruct (Export_MC iLODlevel temp t c w) as [bResult w1].
    cbn [fst].
    assert (Hgone : temp ∉ files (if FileExists temp w1
                                  then remove temp w1 else w1)).
    { unfold FileExists. case_bool_decide as Hex.
      - apply StackMore.not_in_removed.
      - exact Hex. }
    destruct bResult; cbn [fst snd].
    + split; [reflexivity |]. split; [discriminate |].
      intros Hdtor. apply Hdtor. exact Hgone.
    + split; [reflexivity |]. cbn [say files]. split.
      * intros _. apply StackMore.not_in_removed.
      * intros Hdtor H. apply (Hdtor _ Hgone). cbn [remove files] in H.
        apply elem_of_difference in H as [H _]. exact H.
  - intros Hnot.
    destruct (Z.eqb_spec (External.GetComponentCount pSourceData) 1)
      as [Hscalar | Hmany]; cbn [negb].
    + destruct conv as [c |].
      * destruct T as [t |].
        -- exfalso. destruct Hnot as [Hn | [Hn | Hn]].
           ++ contradiction.
           ++ destruct Hfirst as (before & after & Hgeo & Hc & _).
              apply (Hn c); [| exact Hc]. rewrite Hgeo.
              apply in_or_app. right. left. reflexivity.
           ++ assert (Hok : stored_type_ok pSourceData = true)
                by (apply Htype; discriminate).
              congruence.
        -- cbn. split; [reflexivity |]. split; [reflexivity |].
           eexists. reflexivity.
      * cbn. split; [reflexivity |]. split; [reflexivity |].
        eexists. reflexivity.
    + cbn. split; [reflexivity |]. split; [reflexivity |].
      eexists. reflexivity.
Qed.

End Meshes.

End GeometryFacts.
